(** * Archive-Tar-Builder: the directory walker of [src/b_find.c]

    A shallow embedding of [b_stat], [b_dir_open], [b_dir_destroy],
    [b_dir_read], [b_dir_item_free], [subst_member_name] and [b_find],
    followed by the properties of the traversal.

    Conventions of the embedding.
    - A [b_string] is a Rocq [string]: a NUL-free byte string, so that
      [strcmp] is string equality and [b_string_len] is [String.length].
    - C [int] values ([flags], [errno], the callback's result) are [Z];
      the code only masks and compares them.
    - Heap objects that the claims speak about (directory frames, entry
      records) carry the address [malloc] returned for them; addresses are
      the ordinal numbers of the allocation requests.
    - Every fallible allocation asks the oracle [alloc_ok] of the
      environment; the file system is a fixed function of paths.
    - The walker's side effects are written to a chronological event log.
    - A call that destroys a frame twice has no defined result in C; the
      log still shows both calls, and the outcome says so. *)

From Stdlib Require Import ZArith List String Ascii Bool Arith Lia.
Import ListNotations.
Local Open Scope string_scope.
Local Open Scope list_scope.

(** ** Data *)

(** [struct stat]: the file-type bits live in [st_mode]; [st_ino] stands for
    the remaining fields, which only the callback inspects. *)
Record stat := mk_stat { st_mode : Z; st_ino : Z }.

Definition S_IFMT : Z := 61440.   (* 0170000 *)
Definition S_IFDIR : Z := 16384.  (* 0040000 *)
Definition EACCES : Z := 13.
Definition ENOMEM : Z := 12.

(** [(st_mode & S_IFMT) == S_IFDIR] *)
Definition S_ISDIR (st : stat) : bool :=
  (Z.land (st_mode st) S_IFMT =? S_IFDIR)%Z.

(** One answer of [readdir]: an entry name, or a failure with its errno. An
    exhausted stream is the empty list. *)
Inductive dirent :=
| Dirent (d_name : string)
| ReaddirFail (e : Z).

(** [DIR *]: the entries still to be read. *)
Definition DIR := list dirent.

(** Modelled from the spec: the error accumulator of b_error.c, which is not
    among the sources. [set(severity, errno, message, context_path)] records
    a single error and [is_fatal] answers whether it aborts the walk. *)
Inductive b_error_type := B_ERROR_OK | B_ERROR_WARN | B_ERROR_FATAL.

Record b_error := mk_error {
  err_type : b_error_type;
  err_errno : Z;
  err_message : string;
  err_path : string
}.

Definition b_error_fatal (e : b_error) : bool :=
  match err_type e with B_ERROR_FATAL => true | _ => false end.

(** [b_dir] with the address of its allocation. *)
Record b_dir := mk_dir {
  dir_addr : nat;
  dir_dp : DIR;
  dir_path : string
}.

(** [b_dir_item] with the address of its allocation. *)
Record b_dir_item := mk_item {
  item_addr : nat;
  item_st : stat;
  item_path : string;
  item_name : string
}.

(** The two canonicalized strings [b_find] owns. *)
Inductive owned_string := CleanPath | CleanMemberName.

Inductive event :=
| EvCallback (path member_name : string) (st : stat) (res : Z)
| EvErrorSet (ty : b_error_type) (en : Z) (msg path : string)
| EvDirOpen (addr : nat) (path : string)
| EvStackPush (addr : nat)
| EvDirDestroy (addr : nat)
| EvItemFree (addr : nat)
| EvStackDestroy
| EvStringFree (which : owned_string).

(** What the caller of [b_find] observes: the value returned; nothing that C
    defines, when the call has handed a frame that was destroyed already to
    [b_dir_destroy] once more ([closedir] and [free] on freed memory); or
    nothing yet, when the model's iteration budget ran out first. *)
Inductive outcome :=
| Returned (r : Z)
| Undefined
| OutOfFuel.

(** ** The environment of a call

    - [err_present]: [b_builder_get_error(builder)] is not [NULL]; the
      pointer is read once, on entry.
    - [B_FIND_FOLLOW_SYMLINKS]: the flag constant of b_find.h.
    - [sys_stat], [sys_lstat], [sys_opendir]: the file system, answering
      with [inl errno] on failure.
    - [alloc_ok n]: whether the [n]-th allocation request succeeds.
    - [b_path_clean]: the canonicalization of b_path.c, [None] for [NULL]. *)
Class Env := {
  UserData : Type;
  err_present : bool;
  B_FIND_FOLLOW_SYMLINKS : Z;
  sys_stat : string -> Z + stat;
  sys_lstat : string -> Z + stat;
  sys_opendir : string -> Z + DIR;
  alloc_ok : nat -> bool;
  b_path_clean : string -> option string
}.

Section Walker.

Context {E : Env}.

(** The builder as the callback sees it: the accumulator and its own data. *)
Record b_builder := mk_builder {
  builder_err : b_error;
  builder_data : UserData
}.

Record state := mk_state {
  st_builder : b_builder;
  st_errno : Z;
  st_brk : nat;
  st_log : list event
}.

Definition b_find_callback : Type :=
  b_builder -> string -> string -> stat -> Z * b_builder.

Definition set_errno (e : Z) (s : state) : state :=
  mk_state (st_builder s) e (st_brk s) (st_log s).

Definition set_builder (b : b_builder) (s : state) : state :=
  mk_state b (st_errno s) (st_brk s) (st_log s).

Definition bump (s : state) : state :=
  mk_state (st_builder s) (st_errno s) (S (st_brk s)) (st_log s).

Definition emit (ev : event) (s : state) : state :=
  mk_state (st_builder s) (st_errno s) (st_brk s) (st_log s ++ [ev]).

(** Computations that may return [NULL]. *)
Definition M (A : Type) : Type := state -> option A * state.

Definition ret {A} (a : A) : M A := fun s => (Some a, s).

Definition bind {A B} (m : M A) (k : A -> M B) : M B :=
  fun s => match m s with
           | (Some a, s1) => k a s1
           | (None, s1) => (None, s1)
           end.

Notation "x <- m ;; k" := (bind m (fun x => k))
  (at level 61, m at next level, right associativity).

(** ** Allocation and strings *)

Definition malloc : M nat :=
  fun s =>
    if alloc_ok (st_brk s) then (Some (st_brk s), bump s)
    else (None, set_errno ENOMEM (bump s)).

(** Modelled from the spec: the string utilities of b_string.c, which is not
    among the sources; each one allocates and so may fail. *)
Definition b_string_dup (str : string) : M string :=
  _ <- malloc ;; ret str.

Definition b_string_new (str : string) : M string :=
  _ <- malloc ;; ret str.

Definition b_string_append_str (str add : string) : M string :=
  _ <- malloc ;; ret (str ++ add)%string.

Definition b_string_len (str : string) : nat := String.length str.

Definition b_string_free (which : owned_string) (s : state) : state :=
  emit (EvStringFree which) s.

(** [str + n] for a C string: what follows its first [n] bytes. The pointer
    is only meaningful for [n <= length str]. *)
Fixpoint str_from (n : nat) (str : string) : string :=
  match n, str with
  | O, _ => str
  | S n', String _ rest => str_from n' rest
  | S _, EmptyString => EmptyString
  end.

(** ** The accumulator *)

Definition b_error_set (ty : b_error_type) (en : Z) (msg path : string)
    (s : state) : state :=
  emit (EvErrorSet ty en msg path)
    (set_builder
       (mk_builder (mk_error ty en msg path) (builder_data (st_builder s))) s).

(** ** [b_stat] *)

Definition follows (flags : Z) : bool :=
  negb (Z.land flags B_FIND_FOLLOW_SYMLINKS =? 0)%Z.

Definition statfn (flags : Z) : string -> Z + stat :=
  if follows flags then sys_stat else sys_lstat.

Definition b_stat (path : string) (flags : Z) : M stat :=
  fun s =>
    match statfn flags path with
    | inr st => (Some st, s)
    | inl e => (None, set_errno e s)
    end.

(** ** Directory frames *)

Definition opendir (path : string) : M DIR :=
  fun s =>
    match sys_opendir path with
    | inr dp => (Some dp, s)
    | inl e => (None, set_errno e s)
    end.

Definition b_dir_open (path : string) : M b_dir :=
  a <- malloc ;;
  dp <- opendir path ;;
  p <- b_string_dup path ;;
  fun s => (Some (mk_dir a dp p), emit (EvDirOpen a p) s).

(** [b_dir_destroy], with [b_dir_close] inside it: closing the stream and
    freeing the path and the frame leave one event in the log. The frame has
    to be one that was not destroyed before; the log records the call either
    way, and [error_cleanup_result] below tells what becomes of a call of
    [b_find] that destroys a frame twice. *)
Definition b_dir_destroy (item : b_dir) (s : state) : state :=
  emit (EvDirDestroy (dir_addr item)) s.

(** [readdir] moves the cursor of the stream, also when it fails. *)
Definition readdir (dp : DIR) (s : state) : option string * DIR * state :=
  match dp with
  | [] => (None, [], s)
  | Dirent n :: rest => (Some n, rest, s)
  | ReaddirFail e :: rest => (None, rest, set_errno e s)
  end.

(** [b_dir_read]: the frame comes back with its cursor advanced. *)
Definition b_dir_read (dir : b_dir) (flags : Z) (s : state)
    : option b_dir_item * b_dir * state :=
  let '(entry, dp', s0) := readdir (dir_dp dir) s in
  let dir' := mk_dir (dir_addr dir) dp' (dir_path dir) in
  match entry with
  | None => (None, dir', s0)
  | Some d_name =>
    let '(item, s1) :=
      (a <- malloc ;;
       _ <- malloc ;;
       path <- b_string_dup (dir_path dir) ;;
       name <- b_string_new d_name ;;
       path1 <- (if (path =? "/")%string then ret path
                 else b_string_append_str path "/") ;;
       path2 <- b_string_append_str path1 d_name ;;
       st <- b_stat path2 flags ;;
       ret (mk_item a st path2 name)) s0 in
    (item, dir', s1)
  end.

Definition b_dir_item_free (item : b_dir_item) (s : state) : state :=
  emit (EvItemFree (item_addr item)) s.

(** ** [subst_member_name] *)

Definition subst_member_name (path member_name current : string)
    (s : state) : option string * state :=
  if negb (path =? member_name)%string then
    (new_member_name <- b_string_dup member_name ;;
     b_string_append_str new_member_name
       (str_from (b_string_len path) current)) s
  else (None, s).

(** ** The frame stack

    Modelled from the spec: the LIFO of b_stack.c, which is not among the
    sources. The head of the list is the top; [b_stack_destroy] walks the
    remaining elements and calls the registered destructor,
    [b_dir_destroy], on each. *)
Definition b_stack := list b_dir.

Definition b_stack_new : M b_stack :=
  _ <- malloc ;; ret (@nil b_dir).

Definition b_stack_push (dirs : b_stack) (dir : b_dir) : M b_stack :=
  _ <- malloc ;;
  fun s => (Some (dir :: dirs), emit (EvStackPush (dir_addr dir)) s).

Definition b_stack_top (dirs : b_stack) : option b_dir := hd_error dirs.

Definition b_stack_pop (dirs : b_stack) : option b_dir * b_stack :=
  match dirs with
  | [] => (None, [])
  | d :: rest => (Some d, rest)
  end.

Definition b_stack_destroy (dirs : b_stack) (s : state) : state :=
  emit EvStackDestroy (fold_left (fun s' d => b_dir_destroy d s') dirs s).

(** ** [b_find] *)

Definition invoke (callback : b_find_callback)
    (path member_name : string) (st : stat) (s : state) : Z * state :=
  let '(res, b) := callback (st_builder s) path member_name st in
  (res, emit (EvCallback path member_name st res) (set_builder b s)).

Definition is_dot (name : string) : bool :=
  ((name =? ".") || (name =? ".."))%string.

(** The labels [cleanup] and [error_cleanup] with everything below them. *)
Definition cleanup (dirs : b_stack) (s : state) : state :=
  b_string_free CleanMemberName
    (b_string_free CleanPath (b_stack_destroy dirs s)).

Definition error_dir_open (dirs : b_stack) (s : state) : state :=
  b_string_free CleanPath
    (b_string_free CleanMemberName (b_stack_destroy dirs s)).

Definition error_cleanup (dir : b_dir) (dirs : b_stack) (s : state) : state :=
  error_dir_open dirs (b_dir_destroy dir s).

(** [error_cleanup] destroys the frame [dir] and then has [b_stack_destroy]
    run the destructor over the frames left on the stack. When [dir] is
    still among them, the destructor is handed a frame that is gone, and the
    [return -1] below the labels is no longer something C promises. *)
Definition destroyed_again (dir : b_dir) (dirs : b_stack) : bool :=
  existsb (fun d => Nat.eqb (dir_addr d) (dir_addr dir)) dirs.

Definition error_cleanup_result (dir : b_dir) (dirs : b_stack) : outcome :=
  if destroyed_again dir dirs then Undefined else Returned (-1).

(** How one turn of the [while (1)] loop ends. *)
Inductive iter_result :=
| Continue (dirs : b_stack) (s : state)
| ErrorCleanup (dirs : b_stack) (s : state).

(** One turn of the loop with [cwd] on top of [cwd :: rest]. *)
Definition b_find_iter (callback : b_find_callback)
    (clean_path clean_member_name : string) (flags : Z)
    (cwd : b_dir) (rest : b_stack) (s : state) : iter_result :=
  match b_dir_read cwd flags s with
  | (None, cwd', s1) =>
    match b_stack_pop (cwd' :: rest) with
    | (Some oldcwd, dirs) => Continue dirs (b_dir_destroy oldcwd s1)
    | (None, dirs) => Continue dirs s1
    end
  | (Some item, cwd', s1) =>
    let dirs := cwd' :: rest in
    if is_dot (item_name item) then Continue dirs (b_dir_item_free item s1)
    else
      let '(new_member_name, s2) :=
        subst_member_name clean_path clean_member_name (item_path item) s1 in
      let '(res, s3) :=
        invoke callback (item_path item)
          (match new_member_name with
           | Some n => n
           | None => item_path item
           end) (item_st item) s2 in
      if (res =? 0)%Z then Continue dirs (b_dir_item_free item s3)
      else if (res <? 0)%Z then
        if err_present && negb (b_error_fatal (builder_err (st_builder s3)))
        then Continue dirs (b_dir_item_free item s3)
        else ErrorCleanup dirs (b_dir_item_free item s3)
      else if S_ISDIR (item_st item) then
        match b_dir_open (item_path item) s3 with
        | (None, s4) =>
          let s5 :=
            if err_present
            then b_error_set B_ERROR_WARN (st_errno s4)
                   "Unable to open directory" (item_path item) s4
            else s4 in
          if (st_errno s5 =? EACCES)%Z
          then Continue dirs (b_dir_item_free item s5)
          else ErrorCleanup dirs (b_dir_item_free item s5)
        | (Some newdir, s4) =>
          match b_stack_push dirs newdir s4 with
          | (None, s5) => ErrorCleanup dirs (b_dir_destroy newdir s5)
          | (Some dirs', s5) => Continue dirs' (b_dir_item_free item s5)
          end
        end
      else Continue dirs (b_dir_item_free item s3)
  end.

(** The [while (1)] loop; [dir] is the root frame the function holds on to. *)
Fixpoint b_find_loop (fuel : nat) (callback : b_find_callback)
    (clean_path clean_member_name : string) (flags : Z)
    (dir : b_dir) (dirs : b_stack) (s : state) : outcome * state :=
  match fuel with
  | O => (OutOfFuel, s)
  | S fuel' =>
    match b_stack_top dirs with
    | None => (Returned 0, cleanup dirs s)
    | Some cwd =>
      match b_find_iter callback clean_path clean_member_name flags
              cwd (tl dirs) s with
      | Continue dirs' s' =>
        b_find_loop fuel' callback clean_path clean_member_name flags
          dir dirs' s'
      | ErrorCleanup dirs' s' =>
        (error_cleanup_result dir dirs', error_cleanup dir dirs' s')
      end
    end
  end.

Definition b_find (fuel : nat) (callback : b_find_callback)
    (path member_name : string) (flags : Z) (s : state) : outcome * state :=
  match b_path_clean path with
  | None => (Returned (-1), s)
  | Some clean_path =>
    match b_path_clean member_name with
    | None => (Returned (-1), b_string_free CleanPath s)
    | Some clean_member_name =>
      match b_stack_new s with
      | (None, s1) =>
        (Returned (-1),
         b_string_free CleanPath (b_string_free CleanMemberName s1))
      | (Some dirs, s1) =>
        match b_stat clean_path flags s1 with
        | (None, s2) => (Returned (-1), error_dir_open dirs s2)
        | (Some st, s2) =>
          let '(res, s3) :=
            invoke callback clean_path clean_member_name st s2 in
          if (res =? 0)%Z then (Returned 0, cleanup dirs s3)
          else if (res <? 0)%Z then (Returned (-1), error_dir_open dirs s3)
          else if negb (S_ISDIR st) then (Returned 0, s3)
          else
            match b_dir_open clean_path s3 with
            | (None, s4) =>
              let s5 :=
                if err_present
                then b_error_set B_ERROR_WARN (st_errno s4)
                       "Unable to open directory" clean_path s4
                else s4 in
              (Returned (-1), error_dir_open dirs s5)
            | (Some dir, s4) =>
              match b_stack_push dirs dir s4 with
              | (None, s5) =>
                (error_cleanup_result dir dirs, error_cleanup dir dirs s5)
              | (Some dirs', s5) =>
                b_find_loop fuel callback clean_path clean_member_name
                  flags dir dirs' s5
              end
            end
        end
      end
    end
  end.

End Walker.

(** ** Reading the event log *)

Record visit := mk_visit {
  v_disk : string;
  v_logical : string;
  v_st : stat;
  v_res : Z
}.

(** The callback invocations, in order. *)
Fixpoint visits (L : list event) : list visit :=
  match L with
  | [] => []
  | EvCallback p m st r :: L' => mk_visit p m st r :: visits L'
  | _ :: L' => visits L'
  end.

(** What the callback was handed at each invocation. *)
Definition calls (L : list event) : list (string * string * stat) :=
  map (fun v => (v_disk v, v_logical v, v_st v)) (visits L).

Definition event_eqb (a b : event) : bool :=
  match a, b with
  | EvDirDestroy x, EvDirDestroy y => Nat.eqb x y
  | EvStackPush x, EvStackPush y => Nat.eqb x y
  | EvItemFree x, EvItemFree y => Nat.eqb x y
  | EvStackDestroy, EvStackDestroy => true
  | EvStringFree CleanPath, EvStringFree CleanPath => true
  | EvStringFree CleanMemberName, EvStringFree CleanMemberName => true
  | _, _ => false
  end.

(** How often a resource event occurs in a log. *)
Definition occurrences (ev : event) (L : list event) : nat :=
  List.length (filter (event_eqb ev) L).

(** ** The file system as a tree

    [Node st ents]: an entry with metadata [st]; for a directory, [ents] is
    what its stream yields, in order, the entries [.] and [..] included. *)
#[local] Unset Elimination Schemes.
Inductive tree := Node (st : stat) (ents : list (string * tree)).
#[local] Set Elimination Schemes.

Definition root_stat (t : tree) : stat :=
  match t with Node st _ => st end.

(** The path [b_dir_read] composes for the entry [name] of [dir]. *)
Definition dir_join (dir name : string) : string :=
  ((if (dir =? "/")%string then dir else dir ++ "/") ++ name)%string.

Fixpoint tsize (t : tree) : nat :=
  match t with
  | Node _ ents => 2 + list_sum (map (fun e => tsize (snd e)) ents)
  end.

Definition esize (ents : list (string * tree)) : nat :=
  list_sum (map (fun e => tsize (snd e)) ents).

(** Pre-order, depth first, children in stream order, [.] and [..] left
    out: each remaining node of the tree is listed once. *)
Fixpoint preorder (p : string) (t : tree) : list (string * stat) :=
  match t with
  | Node st ents =>
    (p, st) ::
    flat_map (fun e => if is_dot (fst e) then []
                       else preorder (dir_join p (fst e)) (snd e)) ents
  end.

Definition preorder_ents (p : string) (ents : list (string * tree))
    : list (string * stat) :=
  flat_map (fun e => if is_dot (fst e) then []
                     else preorder (dir_join p (fst e)) (snd e)) ents.

(** The number of entries of a tree, [.] and [..] left out. *)
Fixpoint entries (t : tree) : nat :=
  match t with
  | Node _ ents =>
    1 + list_sum (map (fun e => if is_dot (fst e) then 0
                                else entries (snd e)) ents)
  end.

(** The logical path of a descendant when no allocation fails. *)
Definition logical_of (clean_path clean_member_name disk : string) : string :=
  if (clean_path =? clean_member_name)%string then disk
  else (clean_member_name ++ str_from (String.length clean_path) disk)%string.

(** The invocations a complete walk of [t] consists of. *)
Definition expected_calls (clean_path clean_member_name : string) (t : tree)
    : list (string * string * stat) :=
  (clean_path, clean_member_name, root_stat t) ::
  match t with
  | Node _ ents =>
    map (fun e => (fst e, logical_of clean_path clean_member_name (fst e), snd e))
      (preorder_ents clean_path ents)
  end.

(** A frame of the walker, seen as the path it enumerates and the entries,
    with their subtrees, that its stream still holds. *)
Definition ghost : Type := (string * list (string * tree))%type.

(** The invocations still to come from a stack of such frames. *)
Definition pending (clean_path clean_member_name : string) (G : list ghost)
    : list (string * string * stat) :=
  flat_map
    (fun g =>
       map (fun e => (fst e, logical_of clean_path clean_member_name (fst e),
                      snd e))
         (preorder_ents (fst g) (snd g))) G.

Definition msize (G : list ghost) : nat :=
  list_sum (map (fun g => 1 + esize (snd g)) G).

Section Reference.

Context {E : Env}.

(** [unfolds flags p t]: the file system below [p], as [b_find] called with
    [flags] gets to see it, is the tree [t]; every stat and every open
    succeeds. *)
Fixpoint unfolds (flags : Z) (p : string) (t : tree) : Prop :=
  match t with
  | Node st ents =>
    statfn flags p = inr st /\
    if S_ISDIR st then
      sys_opendir p = inr (map (fun e => Dirent (fst e)) ents) /\
      fold_right
        (fun e acc =>
           (if is_dot (fst e)
            then statfn flags (dir_join p (fst e)) = inr (root_stat (snd e))
            else unfolds flags (dir_join p (fst e)) (snd e)) /\ acc)
        True ents
    else ents = []
  end.

Definition ents_ok (flags : Z) (p : string) (ents : list (string * tree))
    : Prop :=
  fold_right
    (fun e acc =>
       (if is_dot (fst e)
        then statfn flags (dir_join p (fst e)) = inr (root_stat (snd e))
        else unfolds flags (dir_join p (fst e)) (snd e)) /\ acc)
    True ents.

Definition frame_rel (flags : Z) (g : ghost) (f : b_dir) : Prop :=
  dir_path f = fst g /\
  dir_dp f = map (fun e => Dirent (fst e)) (snd g) /\
  ents_ok flags (fst g) (snd g).

End Reference.

(** ** The walk [b_find] owes to a tree

    The callback is handed a node first. What lies below the node follows
    only if the node is a directory on which the callback returned a
    positive value: its entries in stream order, [.] and [..] left out, each
    with everything that follows from it before the next one. The builder
    goes from one invocation to the next. *)
Section ReferenceWalk.

Context {E : Env}.
Variable callback : b_find_callback.
Variables clean_path clean_member_name : string.

Section Below.

Variable walk_entry :
  string -> string -> tree -> b_builder -> list visit * b_builder.

Fixpoint walk_below (p : string) (ents : list (string * tree))
    (b : b_builder) : list visit * b_builder :=
  match ents with
  | [] => ([], b)
  | e :: rest =>
    if is_dot (fst e) then walk_below p rest b
    else
      let q := dir_join p (fst e) in
      let '(W1, b1) :=
        walk_entry q (logical_of clean_path clean_member_name q) (snd e) b in
      let '(W2, b2) := walk_below p rest b1 in
      (W1 ++ W2, b2)
  end.

End Below.

(** The walk of the tree [t] found at [p] and reported under [m]. *)
Fixpoint walk (p m : string) (t : tree) (b : b_builder) {struct t}
    : list visit * b_builder :=
  match t with
  | Node st ents =>
    let '(r, b1) := callback b p m st in
    if (0 <? r)%Z && S_ISDIR st then
      let '(W, b2) := walk_below walk p ents b1 in
      (mk_visit p m st r :: W, b2)
    else ([mk_visit p m st r], b1)
  end.

Definition walk_ents : string -> list (string * tree) -> b_builder
    -> list visit * b_builder :=
  walk_below walk.

(** What is still to come from a stack of frames. *)
Fixpoint walk_pending (G : list ghost) (b : b_builder)
    : list visit * b_builder :=
  match G with
  | [] => ([], b)
  | g :: G' =>
    let '(W1, b1) := walk_ents (fst g) (snd g) b in
    let '(W2, b2) := walk_pending G' b1 in
    (W1 ++ W2, b2)
  end.

End ReferenceWalk.

(** The callback returned a positive value on every directory among the
    invocations [W]. *)
Definition accepts_directories (W : list visit) : Prop :=
  Forall (fun v => S_ISDIR (v_st v) = true -> (0 < v_res v)%Z) W.

(** ** Vocabulary for the invariants of the loop *)

(** The callback never reports an error. *)
Definition never_negative {E : Env} (callback : b_find_callback) : Prop :=
  forall b p m st, (0 <= fst (callback b p m st))%Z.

Definition iter_stack {E : Env} (r : iter_result) : b_stack :=
  match r with Continue dirs _ | ErrorCleanup dirs _ => dirs end.

Definition iter_state {E : Env} (r : iter_result) : state :=
  match r with Continue _ s | ErrorCleanup _ s => s end.

(** [quiet m P]: [m] invokes no callback, leaves the builder alone, and
    what it returns satisfies [P]. *)
Definition quiet {E : Env} {A : Type} (m : M A) (P : A -> Prop) : Prop :=
  forall s,
    visits (st_log (snd (m s))) = visits (st_log s) /\
    st_builder (snd (m s)) = st_builder s /\
    forall a, fst (m s) = Some a -> P a.

(** What one turn of the loop can do to the stack and to the sequence of
    invocations: pop, pass over an entry, surface an entry, or surface a
    directory and push a frame for it. *)
Inductive iter_step {E : Env} (clean_path clean_member_name : string)
    (flags : Z) (cwd : b_dir) (rest : b_stack) (V : list visit)
    : b_stack -> list visit -> Prop :=
| step_pop : iter_step clean_path clean_member_name flags cwd rest V rest V
| step_skip e dp' :
    dir_dp cwd = e :: dp' ->
    iter_step clean_path clean_member_name flags cwd rest V
      (mk_dir (dir_addr cwd) dp' (dir_path cwd) :: rest) V
| step_visit n dp' m st r :
    dir_dp cwd = Dirent n :: dp' ->
    is_dot n = false ->
    statfn flags (dir_join (dir_path cwd) n) = inr st ->
    (m = dir_join (dir_path cwd) n \/
     clean_path <> clean_member_name /\
     m = (clean_member_name
          ++ str_from (String.length clean_path)
               (dir_join (dir_path cwd) n))%string) ->
    iter_step clean_path clean_member_name flags cwd rest V
      (mk_dir (dir_addr cwd) dp' (dir_path cwd) :: rest)
      (V ++ [mk_visit (dir_join (dir_path cwd) n) m st r])
| step_push n dp' m st r nd :
    dir_dp cwd = Dirent n :: dp' ->
    is_dot n = false ->
    statfn flags (dir_join (dir_path cwd) n) = inr st ->
    (m = dir_join (dir_path cwd) n \/
     clean_path <> clean_member_name /\
     m = (clean_member_name
          ++ str_from (String.length clean_path)
               (dir_join (dir_path cwd) n))%string) ->
    (0 < r)%Z ->
    S_ISDIR st = true ->
    dir_path nd = dir_join (dir_path cwd) n ->
    sys_opendir (dir_join (dir_path cwd) n) = inr (dir_dp nd) ->
    iter_step clean_path clean_member_name flags cwd rest V
      (nd :: mk_dir (dir_addr cwd) dp' (dir_path cwd) :: rest)
      (V ++ [mk_visit (dir_join (dir_path cwd) n) m st r]).

(** The ways in which reading the next entry of a frame fails: [readdir]
    fails, one of the allocations for the entry record fails (five of them
    when the frame is [/], six otherwise), or the stat of the entry fails. *)
Inductive read_fails {E : Env} (flags : Z) (dir : b_dir) (s : state) : Prop :=
| fails_readdir e rest :
    dir_dp dir = ReaddirFail e :: rest -> read_fails flags dir s
| fails_alloc n rest k :
    dir_dp dir = Dirent n :: rest ->
    k < (if (dir_path dir =? "/")%string then 5 else 6) ->
    alloc_ok (st_brk s + k) = false ->
    read_fails flags dir s
| fails_stat n rest e :
    dir_dp dir = Dirent n :: rest ->
    statfn flags (dir_join (dir_path dir) n) = inl e ->
    read_fails flags dir s.

(** An entry name as a file system hands it out: not empty, no slash. *)
Fixpoint no_slash (str : string) : bool :=
  match str with
  | EmptyString => true
  | String c rest => negb (Ascii.eqb c "/") && no_slash rest
  end.

Definition name_ok (n : string) : bool :=
  negb (n =? "")%string && no_slash n.

(** [below p d]: the path [d] names a descendant of the directory [p]. *)
Inductive below (p : string) : string -> Prop :=
| below_child n : name_ok n = true -> below p (dir_join p n)
| below_deeper q n :
    below p q -> name_ok n = true -> below p (dir_join q n).

(** The callback returned a positive value on the path [q]. *)
Definition accepted (V : list visit) (q : string) : Prop :=
  exists v, In v V /\ v_disk v = q /\ (0 < v_res v)%Z.

(** A sequence of invocations that starts at the root and continues with
    entries of directories accepted before. *)
Inductive rooted (clean_path : string) : list visit -> Prop :=
| rooted_root v : v_disk v = clean_path -> rooted clean_path [v]
| rooted_snoc V v q n :
    rooted clean_path V -> accepted V q -> name_ok n = true ->
    v_disk v = dir_join q n -> rooted clean_path (V ++ [v]).

(** ** Vocabulary for the accounting of resources *)

Definition is_continue {E : Env} (r : iter_result) : bool :=
  match r with Continue _ _ => true | ErrorCleanup _ _ => false end.

(** What one turn of the loop writes to the log, next to what it does to
    the stack. [brk] and [brk'] are the allocation counter before and after
    the turn, [oi] the address of the entry record the turn read (if any),
    the boolean tells whether the loop goes on. *)
Inductive turn_shape {E : Env} (flags : Z) (cwd : b_dir) (rest : b_stack)
    (brk brk' : nat) : option nat -> bool -> b_stack -> list event -> Prop :=
| turn_pop :
    turn_shape flags cwd rest brk brk' None true rest
      [EvDirDestroy (dir_addr cwd)]
| turn_dot dp' i :
    turn_shape flags cwd rest brk brk' (Some i) true
      (mk_dir (dir_addr cwd) dp' (dir_path cwd) :: rest)
      [EvItemFree i]
| turn_visit dp' i p m st r b :
    statfn flags p = inr st ->
    (b = false -> (r < 0)%Z) ->
    (S_ISDIR st = true -> (r <= 0)%Z) ->
    turn_shape flags cwd rest brk brk' (Some i) b
      (mk_dir (dir_addr cwd) dp' (dir_path cwd) :: rest)
      [EvCallback p m st r; EvItemFree i]
| turn_open_fail dp' i p m st r e b :
    statfn flags p = inr st -> (0 < r)%Z -> S_ISDIR st = true ->
    (b = true <-> e = EACCES) ->
    turn_shape flags cwd rest brk brk' (Some i) b
      (mk_dir (dir_addr cwd) dp' (dir_path cwd) :: rest)
      (EvCallback p m st r
       :: (if err_present
           then [EvErrorSet B_ERROR_WARN e "Unable to open directory" p]
           else [])
       ++ [EvItemFree i])
| turn_push_fail dp' i p m st r a :
    statfn flags p = inr st -> (0 < r)%Z -> S_ISDIR st = true ->
    brk <= a ->
    turn_shape flags cwd rest brk brk' (Some i) false
      (mk_dir (dir_addr cwd) dp' (dir_path cwd) :: rest)
      [EvCallback p m st r; EvDirOpen a p; EvDirDestroy a]
| turn_push dp' i p m st r nd :
    statfn flags p = inr st -> (0 < r)%Z -> S_ISDIR st = true ->
    brk <= dir_addr nd -> dir_addr nd < brk' -> dir_path nd = p ->
    turn_shape flags cwd rest brk brk' (Some i) true
      (nd :: mk_dir (dir_addr cwd) dp' (dir_path cwd) :: rest)
      [EvCallback p m st r; EvDirOpen (dir_addr nd) p;
       EvStackPush (dir_addr nd); EvItemFree i].

(** The events with which [b_find] leaves through [cleanup] and through
    the error labels. *)
Definition cleanup_events : list event :=
  [EvStackDestroy; EvStringFree CleanPath; EvStringFree CleanMemberName].

Definition error_events : list event :=
  [EvStackDestroy; EvStringFree CleanMemberName; EvStringFree CleanPath].

(** The log holds an invocation on the path [p] to which the callback
    answered with a positive value and whose stat, taken under the symlink
    policy of [flags], says directory. *)
Definition accepted_dir {E : Env} (flags : Z) (L : list event) (p : string)
    : Prop :=
  exists m st r,
    In (EvCallback p m st r) L /\ (0 < r)%Z /\ S_ISDIR st = true /\
    statfn flags p = inr st.

(** What has to be in the log for an event of it to be in order: an error
    is set, and a directory opened, only for an accepted directory; an
    error only as a warning about the open, with an accumulator present. *)
Definition event_in_order {E : Env} (flags : Z) (L : list event)
    (ev : event) : Prop :=
  match ev with
  | EvErrorSet ty _ msg p =>
    err_present = true /\ ty = B_ERROR_WARN /\
    msg = "Unable to open directory" /\ accepted_dir flags L p
  | EvDirOpen _ p => accepted_dir flags L p
  | _ => True
  end.

(** ** Table-driven environments for the concrete runs *)

Definition ENOENT : Z := 2.

Fixpoint lookup {A} (tbl : list (string * A)) (p : string) : option A :=
  match tbl with
  | [] => None
  | (k, v) :: tbl' => if (k =? p)%string then Some v else lookup tbl' p
  end.

Definition table_env (errp : bool) (follow : Z)
    (stats lstats : list (string * stat))
    (dirs : list (string * (Z + DIR))) (oracle : nat -> bool) : Env :=
  {| UserData := nat;
     err_present := errp;
     B_FIND_FOLLOW_SYMLINKS := follow;
     sys_stat := fun p => match lookup stats p with
                          | Some st => inr st
                          | None => inl ENOENT
                          end;
     sys_lstat := fun p => match lookup lstats p with
                           | Some st => inr st
                           | None => inl ENOENT
                           end;
     sys_opendir := fun p => match lookup dirs p with
                             | Some r => r
                             | None => inl ENOENT
                             end;
     alloc_ok := oracle;
     b_path_clean := fun p => Some p |}.

Definition dir_stat (ino : Z) : stat := mk_stat 16877 ino.   (* 040755 *)
Definition reg_stat (ino : Z) : stat := mk_stat 33188 ino.   (* 0100644 *)
Definition lnk_stat (ino : Z) : stat := mk_stat 41471 ino.   (* 0120777 *)

(** The tree of the scenarios: [/t/a], [/t/b/c], [/t/b/d]. *)
Definition t_stats : list (string * stat) :=
  [("/t", dir_stat 1); ("/t/.", dir_stat 1); ("/t/..", dir_stat 0);
   ("/t/a", reg_stat 2); ("/t/b", dir_stat 3);
   ("/t/b/.", dir_stat 3); ("/t/b/..", dir_stat 1);
   ("/t/b/c", reg_stat 4); ("/t/b/d", reg_stat 5)].

Definition t_dirs : list (string * (Z + DIR)) :=
  [("/t", inr [Dirent "."; Dirent ".."; Dirent "a"; Dirent "b"]);
   ("/t/b", inr [Dirent "."; Dirent ".."; Dirent "c"; Dirent "d"])].

Definition t_tree : tree :=
  Node (dir_stat 1)
    [(".", Node (dir_stat 1) []); ("..", Node (dir_stat 0) []);
     ("a", Node (reg_stat 2) []);
     ("b", Node (dir_stat 3)
             [(".", Node (dir_stat 3) []); ("..", Node (dir_stat 1) []);
              ("c", Node (reg_stat 4) []); ("d", Node (reg_stat 5) [])])].

Definition always_ok : nat -> bool := fun _ => true.

(** No accumulator, every allocation succeeds. *)
Definition env_t : Env := table_env false 1 t_stats t_stats t_dirs always_ok.

(** The same with an accumulator. *)
Definition env_t_err : Env := table_env true 1 t_stats t_stats t_dirs always_ok.

Definition state0 {E : Env} (d : UserData) : state :=
  mk_state (mk_builder (mk_error B_ERROR_OK 0 "" "") d) 0 0 [].

Definition accept_all {E : Env} : b_find_callback :=
  fun b _ _ _ => (1%Z, b).

Definition skip_all {E : Env} : b_find_callback :=
  fun b _ _ _ => (0%Z, b).

(** Fails everywhere. *)
Definition fail_all {E : Env} : b_find_callback :=
  fun b _ _ _ => ((-1)%Z, b).

(** Accepts everything but the path [p], which it prunes. *)
Definition prune_at (p : string) {E : Env} : b_find_callback :=
  fun b d _ _ => (if (d =? p)%string then 0%Z else 1%Z, b).

(** Accepts everything but the path [p], on which it fails. *)
Definition fail_at (p : string) {E : Env} : b_find_callback :=
  fun b d _ _ => (if (d =? p)%string then (-1)%Z else 1%Z, b).

(** Records a fatal error on the accumulator and fails on the path [p];
    accepts everything else. *)
Definition fail_fatally_at (p : string) {E : Env} : b_find_callback :=
  fun b d _ _ =>
    if (d =? p)%string
    then ((-1)%Z,
          mk_builder (mk_error B_ERROR_FATAL 5 "Unable to read file" d)
            (builder_data b))
    else (1%Z, b).

(** A directory [/d] holding a dangling symbolic link [x], a symbolic link
    [l] to the file [y], and [y] itself. *)
Definition d_lstats : list (string * stat) :=
  [("/d", dir_stat 10); ("/d/x", lnk_stat 11); ("/d/l", lnk_stat 12);
   ("/d/y", reg_stat 13)].

Definition d_stats : list (string * stat) :=
  [("/d", dir_stat 10); ("/d/l", reg_stat 13); ("/d/y", reg_stat 13)].

Definition d_dirs : list (string * (Z + DIR)) :=
  [("/d", inr [Dirent "l"; Dirent "x"; Dirent "y"])].

Definition env_d : Env := table_env false 1 d_stats d_lstats d_dirs always_ok.

(** A directory [/p] holding a subdirectory [locked] that may not be
    opened, and a file [z]; an accumulator is present. *)
Definition p_stats : list (string * stat) :=
  [("/p", dir_stat 20); ("/p/locked", dir_stat 21); ("/p/z", reg_stat 22)].

Definition p_dirs : list (string * (Z + DIR)) :=
  [("/p", inr [Dirent "locked"; Dirent "z"]); ("/p/locked", inl EACCES)].

Definition env_p : Env := table_env true 1 p_stats p_stats p_dirs always_ok.

(** The directory [/p] of [env_p] for a process that is at its limit of
    open descriptors once [/p] is open: [locked] fails to open with
    EMFILE. *)
Definition EMFILE : Z := 24.

Definition q_dirs : list (string * (Z + DIR)) :=
  [("/p", inr [Dirent "locked"; Dirent "z"]); ("/p/locked", inl EMFILE)].

Definition env_q : Env := table_env true 1 p_stats p_stats q_dirs always_ok.

(** The directory [/p] of [env_p] in a file system where every other
    directory is closed to the caller. *)
Definition env_locked : Env :=
  {| UserData := nat;
     err_present := true;
     B_FIND_FOLLOW_SYMLINKS := 1;
     sys_stat := fun p => match lookup p_stats p with
                          | Some st => inr st
                          | None => inl ENOENT
                          end;
     sys_lstat := fun p => match lookup p_stats p with
                           | Some st => inr st
                           | None => inl ENOENT
                           end;
     sys_opendir := fun p =>
                      if (p =? "/p")%string
                      then inr [Dirent "locked"; Dirent "z"]
                      else inl EACCES;
     alloc_ok := always_ok;
     b_path_clean := fun p => Some p |}.

(** Every name in the directory table is a proper entry name. *)
Definition dirs_names_ok (dirs : list (string * (Z + DIR))) : bool :=
  forallb
    (fun d =>
       match snd d with
       | inr dp =>
         forallb (fun e => match e with
                           | Dirent n => name_ok n
                           | ReaddirFail _ => true
                           end) dp
       | inl _ => true
       end) dirs.

(** * Properties *)

Section LogFacts.

Context {E : Env}.

Lemma visits_app (L1 L2 : list event) :
  visits (L1 ++ L2) = visits L1 ++ visits L2.
Proof.
  induction L1 as [|ev L1 IH]; simpl; [reflexivity|].
  destruct ev; simpl; rewrite ?IH; reflexivity.
Qed.

Lemma calls_app (L1 L2 : list event) :
  calls (L1 ++ L2) = calls L1 ++ calls L2.
Proof. unfold calls. rewrite visits_app, map_app. reflexivity. Qed.

Lemma calls_emit_callback (s : state) p m st r :
  calls (st_log (emit (EvCallback p m st r) s))
  = calls (st_log s) ++ [(p, m, st)].
Proof. unfold emit; simpl. rewrite calls_app. reflexivity. Qed.

Lemma visits_emit_quiet (s : state) (ev : event) :
  visits [ev] = [] -> visits (st_log (emit ev s)) = visits (st_log s).
Proof.
  intros H. unfold emit; simpl. rewrite visits_app, H, app_nil_r. reflexivity.
Qed.

Lemma visits_b_stack_destroy (dirs : b_stack) (s : state) :
  visits (st_log (b_stack_destroy dirs s)) = visits (st_log s).
Proof.
  unfold b_stack_destroy. rewrite visits_emit_quiet by reflexivity.
  revert s. induction dirs as [|d dirs IH]; intros s; simpl; [reflexivity|].
  rewrite IH. unfold b_dir_destroy. apply visits_emit_quiet. reflexivity.
Qed.

Lemma visits_cleanup (dirs : b_stack) (s : state) :
  visits (st_log (cleanup dirs s)) = visits (st_log s).
Proof.
  unfold cleanup, b_string_free.
  rewrite !visits_emit_quiet by reflexivity. apply visits_b_stack_destroy.
Qed.

Lemma visits_error_dir_open (dirs : b_stack) (s : state) :
  visits (st_log (error_dir_open dirs s)) = visits (st_log s).
Proof.
  unfold error_dir_open, b_string_free.
  rewrite !visits_emit_quiet by reflexivity. apply visits_b_stack_destroy.
Qed.

Lemma visits_error_cleanup (dir : b_dir) (dirs : b_stack) (s : state) :
  visits (st_log (error_cleanup dir dirs s)) = visits (st_log s).
Proof.
  unfold error_cleanup. rewrite visits_error_dir_open.
  unfold b_dir_destroy. apply visits_emit_quiet. reflexivity.
Qed.

End LogFacts.

(** ** The walk of an intact tree *)

Section FullWalk.

Context {E : Env}.
Variable callback : b_find_callback.
Variables clean_path clean_member_name : string.
Variable flags : Z.

Hypothesis alloc_never_fails : forall n, alloc_ok n = true.

Lemma malloc_succeeds (s : state) : malloc s = (Some (st_brk s), bump s).
Proof. unfold malloc. rewrite alloc_never_fails. reflexivity. Qed.

Lemma b_dir_read_entry (dir : b_dir) (s : state) (n : string) (rest : DIR)
    (st : stat) :
  dir_dp dir = Dirent n :: rest ->
  statfn flags (dir_join (dir_path dir) n) = inr st ->
  exists a s1,
    b_dir_read dir flags s
    = (Some (mk_item a st (dir_join (dir_path dir) n) n),
       mk_dir (dir_addr dir) rest (dir_path dir), s1)
    /\ st_log s1 = st_log s /\ st_builder s1 = st_builder s.
Proof.
  intros Hdp Hst. unfold b_dir_read, readdir. rewrite Hdp.
  unfold dir_join in *.
  unfold bind, b_string_dup, b_string_new, b_string_append_str, bind, ret,
    b_stat.
  rewrite !malloc_succeeds.
  destruct (dir_path dir =? "/")%string eqn:Hslash;
    rewrite ?malloc_succeeds, Hst; eexists _, _;
    split; [reflexivity| |reflexivity|]; split; reflexivity.
Qed.

Lemma subst_member_name_total (current : string) (s : state) :
  exists s1,
    subst_member_name clean_path clean_member_name current s
    = (if (clean_path =? clean_member_name)%string then None
       else Some (clean_member_name
                  ++ str_from (String.length clean_path) current)%string, s1)
    /\ st_log s1 = st_log s /\ st_builder s1 = st_builder s.
Proof.
  unfold subst_member_name.
  destruct (clean_path =? clean_member_name)%string; simpl.
  - exists s. repeat split.
  - unfold bind, b_string_dup, b_string_append_str, bind, ret, b_string_len.
    rewrite !malloc_succeeds. eexists. repeat split.
Qed.

Lemma b_dir_open_succeeds (p : string) (dp : DIR) (s : state) :
  sys_opendir p = inr dp ->
  exists a s1,
    b_dir_open p s = (Some (mk_dir a dp p), s1)
    /\ visits (st_log s1) = visits (st_log s)
    /\ st_builder s1 = st_builder s.
Proof.
  intros Hop. unfold b_dir_open, bind, opendir, b_string_dup, bind, ret.
  rewrite malloc_succeeds, Hop, malloc_succeeds.
  eexists _, _. split; [reflexivity|]. split; [|reflexivity].
  rewrite visits_emit_quiet by reflexivity. reflexivity.
Qed.

Lemma b_stack_push_succeeds (dirs : b_stack) (d : b_dir) (s : state) :
  exists s1,
    b_stack_push dirs d s = (Some (d :: dirs), s1)
    /\ visits (st_log s1) = visits (st_log s)
    /\ st_builder s1 = st_builder s.
Proof.
  unfold b_stack_push, bind. rewrite malloc_succeeds.
  eexists. split; [reflexivity|]. split; [|reflexivity].
  rewrite visits_emit_quiet by reflexivity. reflexivity.
Qed.

Lemma logical_of_subst (current : string) :
  match (if (clean_path =? clean_member_name)%string then None
         else Some (clean_member_name
                    ++ str_from (String.length clean_path) current)%string)
  with
  | Some n => n
  | None => current
  end = logical_of clean_path clean_member_name current.
Proof.
  unfold logical_of. destruct (clean_path =? clean_member_name)%string;
    reflexivity.
Qed.

(** One turn of the loop on an exhausted frame. *)
Lemma iter_exhausted (f : b_dir) (rest : b_stack) (s : state) :
  dir_dp f = [] ->
  exists s1,
    b_find_iter callback clean_path clean_member_name flags f rest s
    = Continue rest s1
    /\ visits (st_log s1) = visits (st_log s)
    /\ st_builder s1 = st_builder s.
Proof.
  intros Hdp. unfold b_find_iter, b_dir_read, readdir. rewrite Hdp. simpl.
  eexists. split; [reflexivity|]. split; [|reflexivity].
  unfold b_dir_destroy. rewrite visits_emit_quiet by reflexivity.
  reflexivity.
Qed.

(** One turn of the loop on [.] or [..]. *)
Lemma iter_dot (f : b_dir) (rest : b_stack) (s : state) n dp st :
  dir_dp f = Dirent n :: dp ->
  statfn flags (dir_join (dir_path f) n) = inr st ->
  is_dot n = true ->
  exists s1,
    b_find_iter callback clean_path clean_member_name flags f rest s
    = Continue (mk_dir (dir_addr f) dp (dir_path f) :: rest) s1
    /\ visits (st_log s1) = visits (st_log s)
    /\ st_builder s1 = st_builder s.
Proof.
  intros Hdp Hst Hdot. unfold b_find_iter.
  destruct (b_dir_read_entry f s n dp st Hdp Hst)
    as (a & s1 & Hrd & Hlog & Hb).
  rewrite Hrd. simpl. rewrite Hdot.
  eexists. split; [reflexivity|]. split; [|exact Hb].
  unfold b_dir_item_free. rewrite visits_emit_quiet by reflexivity.
  rewrite Hlog. reflexivity.
Qed.

(** One turn of the loop on any other entry: the entry is surfaced; a
    frame is pushed for it if it is a directory that the callback accepts;
    and the loop goes on, unless the callback fails and the accumulator does
    not excuse it. *)
Lemma iter_entry (f : b_dir) (rest : b_stack) (s : state) n dp st dp2 :
  dir_dp f = Dirent n :: dp ->
  statfn flags (dir_join (dir_path f) n) = inr st ->
  is_dot n = false ->
  (S_ISDIR st = true -> sys_opendir (dir_join (dir_path f) n) = inr dp2) ->
  forall q m r b1,
    q = dir_join (dir_path f) n ->
    m = logical_of clean_path clean_member_name q ->
    callback (st_builder s) q m st = (r, b1) ->
    exists s1,
      visits (st_log s1) = visits (st_log s) ++ [mk_visit q m st r] /\
      st_builder s1 = b1 /\
      if (0 <? r)%Z && S_ISDIR st
      then exists a,
          b_find_iter callback clean_path clean_member_name flags f rest s
          = Continue (mk_dir a dp2 q
                      :: mk_dir (dir_addr f) dp (dir_path f) :: rest) s1
      else
        b_find_iter callback clean_path clean_member_name flags f rest s
        = Continue (mk_dir (dir_addr f) dp (dir_path f) :: rest) s1
        \/
        b_find_iter callback clean_path clean_member_name flags f rest s
        = ErrorCleanup (mk_dir (dir_addr f) dp (dir_path f) :: rest) s1
        /\ (r < 0)%Z.
Proof.
  intros Hdp Hst Hdot Hop q m r b1 Hq Hm Hcb. unfold b_find_iter.
  destruct (b_dir_read_entry f s n dp st Hdp Hst)
    as (a & s1 & Hrd & Hlog & Hb).
  rewrite Hrd. cbn [item_name item_path item_st]. rewrite Hdot.
  destruct (subst_member_name_total (dir_join (dir_path f) n) s1)
    as (s2 & Hsub & Hlog2 & Hb2).
  rewrite Hsub, logical_of_subst, <- Hq, <- Hm.
  unfold invoke. rewrite Hb2, Hb, Hcb.
  set (s3 := emit (EvCallback q m st r) (set_builder b1 s2)).
  assert (Hv3 : visits (st_log s3)
                = visits (st_log s) ++ [mk_visit q m st r]).
  { unfold s3, emit. cbn [st_log set_builder]. rewrite visits_app.
    rewrite Hlog2, Hlog. reflexivity. }
  assert (Hfree : forall item (s' : state),
            visits (st_log s') = visits (st_log s3) ->
            st_builder s' = b1 ->
            visits (st_log (b_dir_item_free item s'))
            = visits (st_log s) ++ [mk_visit q m st r] /\
            st_builder (b_dir_item_free item s') = b1).
  { intros item s' Hv Hb'. split; [|exact Hb'].
    unfold b_dir_item_free. rewrite visits_emit_quiet by reflexivity.
    rewrite Hv. exact Hv3. }
  destruct (r =? 0)%Z eqn:Hz.
  { apply Z.eqb_eq in Hz. subst r. cbn [Z.ltb Z.compare andb].
    eexists. split; [|split; [|left; reflexivity]];
      apply (Hfree _ s3); reflexivity. }
  destruct (r <? 0)%Z eqn:Hneg.
  { apply Z.ltb_lt in Hneg.
    replace (0 <? r)%Z with false by (symmetry; apply Z.ltb_ge; lia).
    cbn [andb].
    destruct (err_present
              && negb (b_error_fatal (builder_err (st_builder s3)))).
    - eexists. split; [|split; [|left; reflexivity]];
        apply (Hfree _ s3); reflexivity.
    - eexists. split; [|split; [|right; split; [reflexivity|exact Hneg]]];
        apply (Hfree _ s3); reflexivity. }
  apply Z.eqb_neq in Hz. apply Z.ltb_ge in Hneg.
  replace (0 <? r)%Z with true by (symmetry; apply Z.ltb_lt; lia).
  cbn [andb].
  destruct (S_ISDIR st) eqn:Hdir.
  - destruct (b_dir_open_succeeds q dp2 s3) as (a2 & s4 & Hopen & Hv4 & Hb4).
    { rewrite Hq. apply Hop. reflexivity. }
    rewrite Hopen.
    destruct (b_stack_push_succeeds
                (mk_dir (dir_addr f) dp (dir_path f) :: rest)
                (mk_dir a2 dp2 q) s4) as (s5 & Hpush & Hv5 & Hb5).
    rewrite Hpush.
    eexists. split; [|split; [|exists a2; reflexivity]];
      apply (Hfree _ s5);
      first [rewrite Hv5, Hv4; reflexivity|rewrite Hb5, Hb4; reflexivity].
  - eexists. split; [|split; [|left; reflexivity]];
      apply (Hfree _ s3); reflexivity.
Qed.

Lemma tsize_pos (t : tree) : 2 <= tsize t.
Proof. destruct t; simpl; lia. Qed.

Lemma msize_cons (p : string) (es : list (string * tree)) (G : list ghost) :
  msize ((p, es) :: G) = 1 + esize es + msize G.
Proof. reflexivity. Qed.

Lemma esize_cons (n : string) (k : tree) (es : list (string * tree)) :
  esize ((n, k) :: es) = tsize k + esize es.
Proof. reflexivity. Qed.

Lemma tsize_node (st : stat) (kids : list (string * tree)) :
  tsize (Node st kids) = 2 + esize kids.
Proof. reflexivity. Qed.

Lemma preorder_ents_cons (p n : string) (k : tree)
    (es : list (string * tree)) :
  preorder_ents p ((n, k) :: es)
  = (if is_dot n then [] else preorder (dir_join p n) k)
    ++ preorder_ents p es.
Proof. reflexivity. Qed.

Lemma preorder_node (p : string) (st : stat) (kids : list (string * tree)) :
  preorder p (Node st kids) = (p, st) :: preorder_ents p kids.
Proof. reflexivity. Qed.

(** The equations of the reference walk. *)
Lemma walk_node (p m : string) (st : stat) (ents : list (string * tree))
    (b : b_builder) :
  walk callback clean_path clean_member_name p m (Node st ents) b
  = (let '(r, b1) := callback b p m st in
     if (0 <? r)%Z && S_ISDIR st then
       let '(W, b2) :=
         walk_ents callback clean_path clean_member_name p ents b1 in
       (mk_visit p m st r :: W, b2)
     else ([mk_visit p m st r], b1)).
Proof. reflexivity. Qed.

Lemma walk_ents_cons (p n : string) (k : tree) (es : list (string * tree))
    (b : b_builder) :
  walk_ents callback clean_path clean_member_name p ((n, k) :: es) b
  = (if is_dot n
     then walk_ents callback clean_path clean_member_name p es b
     else
       let '(W1, b1) :=
         walk callback clean_path clean_member_name (dir_join p n)
           (logical_of clean_path clean_member_name (dir_join p n)) k b in
       let '(W2, b2) :=
         walk_ents callback clean_path clean_member_name p es b1 in
       (W1 ++ W2, b2)).
Proof. reflexivity. Qed.

Lemma walk_pending_exhausted (p : string) (G : list ghost) (b : b_builder) :
  walk_pending callback clean_path clean_member_name ((p, []) :: G) b
  = walk_pending callback clean_path clean_member_name G b.
Proof.
  cbn [walk_pending fst snd]. unfold walk_ents. cbn [walk_below].
  destruct (walk_pending callback clean_path clean_member_name G b).
  reflexivity.
Qed.

Lemma walk_pending_dot (p n : string) (k : tree) (es : list (string * tree))
    (G : list ghost) (b : b_builder) :
  is_dot n = true ->
  walk_pending callback clean_path clean_member_name
    ((p, (n, k) :: es) :: G) b
  = walk_pending callback clean_path clean_member_name ((p, es) :: G) b.
Proof.
  intros Hdot. cbn [walk_pending fst snd]. rewrite walk_ents_cons, Hdot.
  reflexivity.
Qed.

(** The next invocation owed by a stack of frames whose top holds the
    entry [n] first, and what is owed after it. *)
Lemma walk_pending_entry (p n : string) (st : stat)
    (kids es : list (string * tree)) (G : list ghost) (b : b_builder)
    (r : Z) (b1 : b_builder) :
  is_dot n = false ->
  callback b (dir_join p n)
    (logical_of clean_path clean_member_name (dir_join p n)) st = (r, b1) ->
  fst (walk_pending callback clean_path clean_member_name
         ((p, (n, Node st kids) :: es) :: G) b)
  = mk_visit (dir_join p n)
      (logical_of clean_path clean_member_name (dir_join p n)) st r
    :: fst (walk_pending callback clean_path clean_member_name
              (if (0 <? r)%Z && S_ISDIR st
               then (dir_join p n, kids) :: (p, es) :: G
               else (p, es) :: G) b1).
Proof.
  intros Hdot Hcb. cbn [walk_pending fst snd].
  rewrite walk_ents_cons, Hdot, walk_node, Hcb.
  destruct ((0 <? r)%Z && S_ISDIR st).
  - cbn [walk_pending fst snd].
    destruct (walk_ents callback clean_path clean_member_name
                (dir_join p n) kids b1) as [Wk bk].
    destruct (walk_ents callback clean_path clean_member_name p es bk)
      as [We be].
    destruct (walk_pending callback clean_path clean_member_name G be)
      as [Wg bg].
    cbn [fst]. rewrite <- !app_assoc. reflexivity.
  - cbn [walk_pending fst snd].
    destruct (walk_ents callback clean_path clean_member_name p es b1)
      as [We be].
    destruct (walk_pending callback clean_path clean_member_name G be)
      as [Wg bg].
    reflexivity.
Qed.

Lemma error_cleanup_result_fails (dir : b_dir) (dirs : b_stack) :
  error_cleanup_result dir dirs <> Returned 0 /\
  error_cleanup_result dir dirs <> OutOfFuel.
Proof.
  unfold error_cleanup_result. destruct (destroyed_again dir dirs);
    split; discriminate.
Qed.

(** The loop, started on frames that hold intact subtrees: when it returns
    0 it has surfaced exactly what the frames owed, in order; it takes no
    more turns than the frames hold entries, and it returns 0 when the
    callback never fails. *)
Lemma loop_walks_pending (fuel : nat) :
  forall (G : list ghost) (dirs : b_stack) (s : state) (dir : b_dir),
    Forall2 (frame_rel flags) G dirs ->
    (fst (b_find_loop fuel callback clean_path clean_member_name flags
            dir dirs s) = Returned 0 ->
     visits (st_log (snd (b_find_loop fuel callback clean_path
                            clean_member_name flags dir dirs s)))
     = visits (st_log s)
       ++ fst (walk_pending callback clean_path clean_member_name G
                 (st_builder s))) /\
    (msize G < fuel ->
     fst (b_find_loop fuel callback clean_path clean_member_name flags
            dir dirs s) <> OutOfFuel /\
     (never_negative callback ->
      fst (b_find_loop fuel callback clean_path clean_member_name flags
             dir dirs s) = Returned 0)).
Proof.
  induction fuel as [|fuel IH]; intros G dirs s dir Hrel.
  { split; [discriminate|lia]. }
  destruct Hrel as [|[p es] f G dirs (Hp & Hdp & Hok) Hrel].
  - cbn [b_find_loop b_stack_top hd_error fst snd walk_pending].
    split; [|intros _; split; [discriminate|reflexivity]].
    intros _. rewrite visits_cleanup, app_nil_r. reflexivity.
  - simpl in Hp, Hdp, Hok. subst p. rewrite msize_cons.
    cbn [b_find_loop b_stack_top hd_error tl].
    destruct es as [|[n k] es].
    + destruct (iter_exhausted f dirs s Hdp) as (s1 & Hit & Hv & Hb).
      rewrite Hit, walk_pending_exhausted, <- Hv, <- Hb.
      destruct (IH G dirs s1 dir Hrel) as [Hwalk Hend].
      split; [exact Hwalk|]. intros Hfuel. apply Hend. lia.
    + simpl in Hdp. destruct Hok as [Hent Hok]. simpl in Hent.
      rewrite esize_cons. pose proof (tsize_pos k) as Hk.
      assert (Hrel' : Forall2 (frame_rel flags) ((dir_path f, es) :: G)
                (mk_dir (dir_addr f) (map (fun e => Dirent (fst e)) es)
                   (dir_path f) :: dirs)).
      { constructor; [|exact Hrel]. repeat split; assumption. }
      destruct (is_dot n) eqn:Hdot.
      * destruct (iter_dot f dirs s n _ _ Hdp Hent Hdot)
          as (s1 & Hit & Hv & Hb).
        rewrite Hit, (walk_pending_dot _ _ _ _ _ _ Hdot), <- Hv, <- Hb.
        destruct (IH _ _ s1 dir Hrel') as [Hwalk Hend].
        split; [exact Hwalk|]. intros Hfuel. apply Hend.
        rewrite msize_cons. lia.
      * destruct k as [st kids]. destruct Hent as [Hst Hkids].
        rewrite tsize_node.
        destruct (callback (st_builder s) (dir_join (dir_path f) n)
                    (logical_of clean_path clean_member_name
                       (dir_join (dir_path f) n)) st) as [r b1] eqn:Hcb.
        rewrite (walk_pending_entry _ _ _ _ _ _ _ _ _ Hdot Hcb).
        destruct (iter_entry f dirs s n _ st
                    (map (fun e => Dirent (fst e)) kids) Hdp Hst Hdot
                    ltac:(intros Hd; rewrite Hd in Hkids; apply Hkids)
                    _ _ r b1 eq_refl eq_refl Hcb)
          as (s1 & Hv & Hb & Hit).
        destruct ((0 <? r)%Z && S_ISDIR st) eqn:Hacc.
        -- apply andb_true_iff in Hacc. destruct Hacc as [_ Hdir].
           rewrite Hdir in Hkids. destruct Hkids as [_ Hkok].
           destruct Hit as [a Hit]. rewrite Hit.
           assert (Hrel2 : Forall2 (frame_rel flags)
                     ((dir_join (dir_path f) n, kids)
                      :: (dir_path f, es) :: G)
                     (mk_dir a (map (fun e => Dirent (fst e)) kids)
                        (dir_join (dir_path f) n)
                      :: mk_dir (dir_addr f)
                           (map (fun e => Dirent (fst e)) es) (dir_path f)
                      :: dirs)).
           { constructor; [|exact Hrel']. split; [reflexivity|].
             split; [reflexivity|]. exact Hkok. }
           destruct (IH _ _ s1 dir Hrel2) as [Hwalk Hend].
           rewrite Hb in Hwalk. split.
           ++ intros Hret. rewrite (Hwalk Hret), Hv, <- app_assoc.
              reflexivity.
           ++ intros Hfuel. apply Hend. rewrite !msize_cons. lia.
        -- destruct Hit as [Hit|[Hit Hneg]]; rewrite Hit.
           ++ destruct (IH _ _ s1 dir Hrel') as [Hwalk Hend].
              rewrite Hb in Hwalk. split.
              ** intros Hret. rewrite (Hwalk Hret), Hv, <- app_assoc.
                 reflexivity.
              ** intros Hfuel. apply Hend. rewrite msize_cons. lia.
           ++ cbn [fst snd].
              destruct (error_cleanup_result_fails dir
                          (mk_dir (dir_addr f)
                             (map (fun e => Dirent (fst e)) es)
                             (dir_path f) :: dirs)) as [Hno0 Hnofuel].
              split; [intros Hret; destruct (Hno0 Hret)|].
              intros _. split; [exact Hnofuel|].
              intros Hnn.
              pose proof (Hnn (st_builder s) (dir_join (dir_path f) n)
                            (logical_of clean_path clean_member_name
                               (dir_join (dir_path f) n)) st) as Hge.
              rewrite Hcb in Hge. cbn [fst] in Hge. lia.
Qed.

Lemma length_preorder (t : tree) :
  forall p, List.length (preorder p t) = entries t.
Proof.
  assert (Hsz : forall n t, tsize t <= n ->
            forall p, List.length (preorder p t) = entries t).
  { clear. induction n as [|n IH]; intros t Hn p.
    - pose proof (tsize_pos t). lia.
    - destruct t as [st ents]. rewrite tsize_node in Hn.
      cbn [preorder entries List.length]. apply f_equal.
      assert (Hle : esize ents <= n) by lia. clear Hn.
      induction ents as [|[m k] ents IHe]; [reflexivity|].
      rewrite esize_cons in Hle. pose proof (tsize_pos k).
      cbn [flat_map map list_sum fold_right fst snd]. rewrite length_app.
      rewrite IHe by lia. apply f_equal2; [|reflexivity].
      destruct (is_dot m); [reflexivity|]. apply IH. lia. }
  intros p. apply (Hsz (tsize t)). lia.
Qed.

Lemma length_expected_calls (t : tree) :
  List.length (expected_calls clean_path clean_member_name t) = entries t.
Proof.
  rewrite <- (length_preorder t clean_path).
  destruct t as [st ents]. unfold expected_calls.
  cbn [List.length preorder root_stat]. rewrite length_map. reflexivity.
Qed.

(** When no directory was refused, the walk is the whole tree. *)
Lemma walk_of_accepted_tree (size : nat) :
  forall (t : tree) (p m : string) (b : b_builder),
    tsize t <= size ->
    unfolds flags p t ->
    accepts_directories
      (fst (walk callback clean_path clean_member_name p m t b)) ->
    map (fun v => (v_disk v, v_logical v, v_st v))
      (fst (walk callback clean_path clean_member_name p m t b))
    = (p, m, root_stat t)
      :: map (fun e => (fst e,
                        logical_of clean_path clean_member_name (fst e),
                        snd e))
           (tl (preorder p t)).
Proof.
  induction size as [|size IH]; intros t p m b Hsize Hunf Hacc.
  { pose proof (tsize_pos t). lia. }
  destruct t as [st ents]. rewrite tsize_node in Hsize.
  rewrite preorder_node. cbn [tl root_stat].
  rewrite walk_node in *.
  destruct (callback b p m st) as [r b1].
  destruct Hunf as [_ Hents].
  destruct ((0 <? r)%Z && S_ISDIR st) eqn:Hdesc.
  - apply andb_true_iff in Hdesc. destruct Hdesc as [_ Hdir].
    rewrite Hdir in Hents. destruct Hents as [_ Hok].
    destruct (walk_ents callback clean_path clean_member_name p ents b1)
      as [W b2] eqn:Hw.
    cbn [fst map v_disk v_logical v_st] in *. apply f_equal.
    unfold accepts_directories in Hacc. apply Forall_inv_tail in Hacc.
    replace W with (fst (walk_ents callback clean_path clean_member_name
                           p ents b1)) in * by (rewrite Hw; reflexivity).
    clear Hw b2 Hdir.
    assert (Hle : esize ents <= size) by lia. clear Hsize.
    revert b1 Hacc.
    induction ents as [|[n k] ents IHe]; intros b1 Hacc; [reflexivity|].
    rewrite esize_cons in Hle. pose proof (tsize_pos k) as Hk.
    destruct Hok as [Hent Hok]. cbn [fst snd] in Hent.
    rewrite walk_ents_cons in *. rewrite preorder_ents_cons.
    destruct (is_dot n); [apply IHe; [exact Hok|lia|exact Hacc]|].
    specialize (IH k (dir_join p n)
                  (logical_of clean_path clean_member_name (dir_join p n))
                  b1 ltac:(lia) Hent).
    destruct (walk callback clean_path clean_member_name (dir_join p n)
                (logical_of clean_path clean_member_name (dir_join p n))
                k b1) as [W1 b'].
    specialize (IHe Hok ltac:(lia) b').
    destruct (walk_ents callback clean_path clean_member_name p ents b')
      as [W2 b''].
    cbn [fst] in *. apply Forall_app in Hacc. destruct Hacc as [Hacc1 Hacc2].
    rewrite !map_app, (IH Hacc1), (IHe Hacc2).
    destruct k as [stk kids]. rewrite preorder_node. reflexivity.
  - cbn [fst map v_disk v_logical v_st] in *. apply f_equal.
    unfold accepts_directories in Hacc. apply Forall_inv in Hacc.
    cbn [v_st v_res] in Hacc.
    destruct (S_ISDIR st) eqn:Hdir.
    + specialize (Hacc eq_refl). apply Z.ltb_lt in Hacc.
      rewrite Hacc in Hdesc. discriminate Hdesc.
    + subst ents. reflexivity.
Qed.


End FullWalk.


(** ** What one turn of the loop does, whatever fails *)

Section Steps.

Context {E : Env}.

Lemma quiet_ret {A} (a : A) (P : A -> Prop) : P a -> quiet (ret a) P.
Proof.
  intros HP s. simpl. repeat split. intros a' Ha. inversion Ha. subst. exact HP.
Qed.

Lemma quiet_bind {A B} (m : M A) (k : A -> M B) (P : A -> Prop)
    (Q : B -> Prop) :
  quiet m P -> (forall a, P a -> quiet (k a) Q) -> quiet (bind m k) Q.
Proof.
  intros Hm Hk s. unfold bind. destruct (Hm s) as (Hv & Hb & HP).
  destruct (m s) as [[a|] s1]; simpl in *.
  - destruct (Hk a (HP a eq_refl) s1) as (Hv' & Hb' & HQ).
    rewrite Hv', Hb', Hv, Hb. repeat split. exact HQ.
  - repeat split; try assumption. intros b Hb'. discriminate.
Qed.

Lemma quiet_malloc : quiet malloc (fun _ => True).
Proof.
  intros s. unfold malloc. destruct (alloc_ok (st_brk s)); simpl;
    repeat split; auto.
Qed.

Lemma quiet_b_string_dup (str : string) :
  quiet (b_string_dup str) (fun r => r = str).
Proof.
  unfold b_string_dup. eapply quiet_bind; [apply quiet_malloc|].
  intros _ _. apply quiet_ret. reflexivity.
Qed.

Lemma quiet_b_string_new (str : string) :
  quiet (b_string_new str) (fun r => r = str).
Proof.
  unfold b_string_new. eapply quiet_bind; [apply quiet_malloc|].
  intros _ _. apply quiet_ret. reflexivity.
Qed.

Lemma quiet_b_string_append_str (str add : string) :
  quiet (b_string_append_str str add) (fun r => r = (str ++ add)%string).
Proof.
  unfold b_string_append_str. eapply quiet_bind; [apply quiet_malloc|].
  intros _ _. apply quiet_ret. reflexivity.
Qed.

Lemma quiet_b_stat (path : string) (flags : Z) :
  quiet (b_stat path flags) (fun st => statfn flags path = inr st).
Proof.
  intros s. unfold b_stat. destruct (statfn flags path) as [e|st]; simpl;
    repeat split; intros a Ha; congruence.
Qed.

Lemma quiet_opendir (path : string) :
  quiet (opendir path) (fun dp => sys_opendir path = inr dp).
Proof.
  intros s. unfold opendir. destruct (sys_opendir path) as [e|dp]; simpl;
    repeat split; intros a Ha; congruence.
Qed.

(** [b_dir_read] surfaces nothing; an entry record it returns is the next
    name of the stream, joined to the frame's path and stat'ed. *)
Lemma b_dir_read_spec (dir : b_dir) (flags : Z) (s : state) :
  forall oi dir' s1,
    b_dir_read dir flags s = (oi, dir', s1) ->
    visits (st_log s1) = visits (st_log s) /\
    st_builder s1 = st_builder s /\
    exists dp',
      dir' = mk_dir (dir_addr dir) dp' (dir_path dir) /\
      (dir_dp dir = [] /\ dp' = [] \/ exists e, dir_dp dir = e :: dp') /\
      forall item, oi = Some item ->
        dir_dp dir = Dirent (item_name item) :: dp' /\
        item_path item = dir_join (dir_path dir) (item_name item) /\
        statfn flags (item_path item) = inr (item_st item).
Proof.
  intros oi dir' s1. unfold b_dir_read, readdir.
  destruct (dir_dp dir) as [|[n|e] rest] eqn:Hdp.
  - intros H. inversion H; subst. simpl.
    split; [reflexivity|]. split; [reflexivity|]. exists [].
    repeat split; auto; intros; discriminate.
  - match goal with
    | |- (let '(_, _) := ?m s in _) = _ -> _ =>
      assert (Hq : quiet m (fun item =>
                item_name item = n /\
                item_path item = dir_join (dir_path dir) n /\
                statfn flags (item_path item) = inr (item_st item)))
    end.
    { eapply quiet_bind; [apply quiet_malloc|]. intros a _.
      eapply quiet_bind; [apply quiet_malloc|]. intros _ _.
      eapply quiet_bind; [apply quiet_b_string_dup|]. intros path Hpath.
      eapply quiet_bind; [apply quiet_b_string_new|]. intros name Hname.
      eapply quiet_bind with
        (P := fun p1 => p1 = (if (dir_path dir =? "/")%string
                              then dir_path dir
                              else dir_path dir ++ "/")%string).
      { cbv beta in Hpath. subst path.
        destruct (dir_path dir =? "/")%string.
        - apply quiet_ret. reflexivity.
        - apply quiet_b_string_append_str. }
      intros path1 Hp1.
      eapply quiet_bind; [apply quiet_b_string_append_str|].
      intros path2 Hp2.
      eapply quiet_bind; [apply quiet_b_stat|]. intros st Hst.
      apply quiet_ret. cbv beta in *. simpl. subst. unfold dir_join.
      repeat split; auto. }
    specialize (Hq s). destruct Hq as (Hv & Hb & HP).
    match goal with
    | |- (let '(_, _) := ?m s in _) = _ -> _ => destruct (m s) as [oi2 s2]
    end.
    intros H. inversion H; subst. simpl in *.
    split; [exact Hv|]. split; [exact Hb|]. exists rest.
    split; [reflexivity|].
    split; [right; eexists; reflexivity|].
    intros it Hi. destruct (HP it Hi) as (Hn & Hp & Hst).
    rewrite Hn. split; [reflexivity|]. split; [rewrite Hp; reflexivity|].
    exact Hst.
  - intros H. inversion H; subst. simpl.
    split; [reflexivity|]. split; [reflexivity|]. exists rest.
    repeat split; auto; try (intros; discriminate).
    right. eexists. reflexivity.
Qed.

Lemma subst_member_name_spec (path member_name current : string) (s : state) :
  forall o s1,
    subst_member_name path member_name current s = (o, s1) ->
    visits (st_log s1) = visits (st_log s) /\
    st_builder s1 = st_builder s /\
    forall nm, o = Some nm ->
      path <> member_name /\
      nm = (member_name ++ str_from (String.length path) current)%string.
Proof.
  intros o s1. unfold subst_member_name.
  destruct (path =? member_name)%string eqn:Heq; simpl.
  - intros H. inversion H; subst. repeat split; intros; discriminate.
  - apply String.eqb_neq in Heq.
    assert (Hq : quiet
              (bind (b_string_dup member_name)
                 (fun new_member_name =>
                    b_string_append_str new_member_name
                      (str_from (b_string_len path) current)))
              (fun nm => nm = (member_name
                               ++ str_from (String.length path) current)%string)).
    { eapply quiet_bind; [apply quiet_b_string_dup|]. intros nm Hnm.
      cbv beta in Hnm. subst nm. apply quiet_b_string_append_str. }
    intros H. destruct (Hq s) as (Hv & Hb & HP). rewrite H in *. simpl in *.
    repeat split; auto.
Qed.

Lemma quiet_b_dir_open (path : string) :
  quiet (b_dir_open path)
    (fun d => dir_path d = path /\ sys_opendir path = inr (dir_dp d)).
Proof.
  unfold b_dir_open.
  eapply quiet_bind; [apply quiet_malloc|]. intros a _.
  eapply quiet_bind; [apply quiet_opendir|]. intros dp Hdp.
  eapply quiet_bind; [apply quiet_b_string_dup|]. intros p Hp.
  cbv beta in *. subst p. intros s. simpl.
  rewrite visits_app, app_nil_r.
  split; [reflexivity|]. split; [reflexivity|].
  intros d Hd. inversion Hd. simpl. split; [reflexivity|exact Hdp].
Qed.

Lemma quiet_b_stack_push (dirs : b_stack) (dir : b_dir) :
  quiet (b_stack_push dirs dir) (fun ds => ds = dir :: dirs).
Proof.
  unfold b_stack_push.
  eapply quiet_bind; [apply quiet_malloc|]. intros _ _.
  intros s. simpl. rewrite visits_app, app_nil_r.
  split; [reflexivity|]. split; [reflexivity|].
  intros d Hd. inversion Hd. reflexivity.
Qed.

Lemma visits_b_error_set ty en msg path (s : state) :
  visits (st_log (b_error_set ty en msg path s)) = visits (st_log s).
Proof. unfold b_error_set. simpl. rewrite visits_app, app_nil_r. reflexivity. Qed.

Lemma visits_b_dir_item_free (item : b_dir_item) (s : state) :
  visits (st_log (b_dir_item_free item s)) = visits (st_log s).
Proof. apply visits_emit_quiet. reflexivity. Qed.

Lemma visits_b_dir_destroy (d : b_dir) (s : state) :
  visits (st_log (b_dir_destroy d s)) = visits (st_log s).
Proof. apply visits_emit_quiet. reflexivity. Qed.

Lemma visits_invoke (callback : b_find_callback) p m st (s : state) :
  visits (st_log (snd (invoke callback p m st s)))
  = visits (st_log s) ++ [mk_visit p m st (fst (invoke callback p m st s))].
Proof.
  unfold invoke. destruct (callback (st_builder s) p m st) as [res b].
  simpl. rewrite visits_app. reflexivity.
Qed.

(** Every turn of the loop is one of the four steps. *)
Lemma iter_step_sound (callback : b_find_callback)
    (clean_path clean_member_name : string) (flags : Z)
    (cwd : b_dir) (rest : b_stack) (s : state) :
  iter_step clean_path clean_member_name flags cwd rest (visits (st_log s))
    (iter_stack (b_find_iter callback clean_path clean_member_name flags
                   cwd rest s))
    (visits (st_log (iter_state
       (b_find_iter callback clean_path clean_member_name flags cwd rest s)))).
Proof.
  unfold b_find_iter.
  destruct (b_dir_read cwd flags s) as [[oi cwd'] s1] eqn:Hrd.
  destruct (b_dir_read_spec _ _ _ _ _ _ Hrd)
    as (Hv1 & Hb1 & dp' & Hcwd' & Hdp & Hitem).
  subst cwd'. destruct oi as [item|].
  2:{ cbn [b_stack_pop iter_stack iter_state]. rewrite visits_b_dir_destroy, Hv1. apply step_pop. }
  destruct (Hitem item eq_refl) as (Hdpi & Hpath & Hst).
  destruct (is_dot (item_name item)) eqn:Hdot.
  { cbn [b_stack_pop iter_stack iter_state]. rewrite visits_b_dir_item_free, Hv1. eapply step_skip, Hdpi. }
  destruct (subst_member_name clean_path clean_member_name (item_path item) s1)
    as [nm s2] eqn:Hsub.
  destruct (subst_member_name_spec _ _ _ _ _ _ Hsub) as (Hv2 & Hb2 & Hnm).
  match goal with
  | |- context [invoke callback ?p ?m ?st s2] =>
    pose proof (visits_invoke callback p m st s2) as Hv3;
    assert (Hm : m = dir_join (dir_path cwd) (item_name item) \/
                 clean_path <> clean_member_name /\
                 m = (clean_member_name
                      ++ str_from (String.length clean_path)
                           (dir_join (dir_path cwd) (item_name item)))%string);
    [ destruct nm as [nm|];
      [ right; rewrite <- Hpath; apply Hnm; reflexivity
      | left; exact Hpath ]
    | destruct (invoke callback p m st s2) as [res s3]; set (mm := m) in * ]
  end.
  cbn [fst snd] in Hv3. rewrite Hv2, Hv1, Hpath in Hv3. rewrite Hpath in Hst.
  assert (Hvisit : forall s', visits (st_log s') = visits (st_log s3) ->
            iter_step clean_path clean_member_name flags cwd rest
              (visits (st_log s))
              (mk_dir (dir_addr cwd) dp' (dir_path cwd) :: rest)
              (visits (st_log s'))).
  { intros s' Hs'. rewrite Hs', Hv3. eapply step_visit; eassumption. }
  destruct (res =? 0)%Z eqn:Hz.
  { cbn [b_stack_pop iter_stack iter_state]. apply Hvisit, visits_b_dir_item_free. }
  destruct (res <? 0)%Z eqn:Hneg.
  { destruct (err_present
              && negb (b_error_fatal (builder_err (st_builder s3))));
      cbn [b_stack_pop iter_stack iter_state]; apply Hvisit, visits_b_dir_item_free. }
  destruct (S_ISDIR (item_st item)) eqn:Hdir.
  2:{ cbn [b_stack_pop iter_stack iter_state]. apply Hvisit, visits_b_dir_item_free. }
  destruct (quiet_b_dir_open (item_path item) s3) as (Hv4 & Hb4 & Hnd).
  destruct (b_dir_open (item_path item) s3) as [[newdir|] s4]; cbn [fst snd iter_stack iter_state] in *.
  2:{ match goal with
      | |- context [(st_errno ?s5 =? EACCES)%Z] =>
        assert (Hv5 : visits (st_log s5) = visits (st_log s3))
          by (destruct err_present;
              rewrite ?visits_b_error_set; exact Hv4);
        destruct (st_errno s5 =? EACCES)%Z; cbn [b_stack_pop iter_stack iter_state]; apply Hvisit;
          rewrite visits_b_dir_item_free; exact Hv5
      end. }
  destruct (Hnd newdir eq_refl) as (Hndp & Hnop).
  destruct (quiet_b_stack_push
              (mk_dir (dir_addr cwd) dp' (dir_path cwd) :: rest) newdir s4)
    as (Hv5 & Hb5 & Hpush).
  destruct (b_stack_push (mk_dir (dir_addr cwd) dp' (dir_path cwd) :: rest)
              newdir s4) as [[dirs'|] s5]; cbn [fst snd iter_stack iter_state] in *.
  2:{ apply Hvisit. rewrite visits_b_dir_destroy, Hv5. exact Hv4. }
  rewrite (Hpush dirs' eq_refl), visits_b_dir_item_free, Hv5, Hv4, Hv3.
  rewrite Hpath in *.
  eapply step_push; try eassumption.
  apply Z.eqb_neq in Hz. apply Z.ltb_ge in Hneg. lia.
Qed.

(** An invariant of the steps holds of what the loop leaves behind. *)
Lemma loop_invariant (Inv : b_stack -> list visit -> Prop)
    (callback : b_find_callback) (clean_path clean_member_name : string)
    (flags : Z) :
  (forall cwd rest V dirs' V',
      Inv (cwd :: rest) V ->
      iter_step clean_path clean_member_name flags cwd rest V dirs' V' ->
      Inv dirs' V') ->
  forall fuel dir dirs s,
    Inv dirs (visits (st_log s)) ->
    exists dirs',
      Inv dirs' (visits (st_log (snd
        (b_find_loop fuel callback clean_path clean_member_name flags
           dir dirs s)))).
Proof.
  intros Hstep. induction fuel as [|fuel IH]; intros dir dirs s HI.
  - exists dirs. exact HI.
  - cbn [b_find_loop].
    destruct dirs as [|cwd rest]; cbn [b_stack_top hd_error tl].
    + exists []. cbn [snd]. rewrite visits_cleanup. exact HI.
    + pose proof (iter_step_sound callback clean_path clean_member_name flags
                    cwd rest s) as Hsound.
      destruct (b_find_iter callback clean_path clean_member_name flags
                  cwd rest s) as [dirs' s'|dirs' s'];
        cbn [iter_stack iter_state] in Hsound.
      * apply IH. eapply Hstep; eassumption.
      * exists dirs'. cbn [snd]. rewrite visits_error_cleanup.
        eapply Hstep; eassumption.
Qed.

(** The invocations of a whole call: none, the root alone, or the root
    followed by what the loop surfaced. *)
Lemma b_find_invariant (Inv : b_stack -> list visit -> Prop)
    (callback : b_find_callback) (path member_name : string)
    (clean_path clean_member_name : string) (flags : Z) (fuel : nat)
    (s : state) :
  b_path_clean path = Some clean_path ->
  b_path_clean member_name = Some clean_member_name ->
  visits (st_log s) = [] ->
  (forall dir st r,
      statfn flags clean_path = inr st -> (0 < r)%Z -> S_ISDIR st = true ->
      dir_path dir = clean_path ->
      sys_opendir clean_path = inr (dir_dp dir) ->
      Inv [dir] [mk_visit clean_path clean_member_name st r]) ->
  (forall cwd rest V dirs' V',
      Inv (cwd :: rest) V ->
      iter_step clean_path clean_member_name flags cwd rest V dirs' V' ->
      Inv dirs' V') ->
  let V := visits (st_log (snd
             (b_find fuel callback path member_name flags s))) in
  V = [] \/
  (exists st r, statfn flags clean_path = inr st /\
                V = [mk_visit clean_path clean_member_name st r]) \/
  (exists dirs, Inv dirs V).
Proof.
  intros Hcp Hcm Hempty Hinit Hstep. unfold b_find. rewrite Hcp, Hcm.
  assert (Hq1 : quiet b_stack_new (fun ds => ds = [])).
  { unfold b_stack_new. eapply quiet_bind; [apply quiet_malloc|].
    intros _ _. apply quiet_ret. reflexivity. }
  destruct (Hq1 s) as (Hv1 & _ & Hnil).
  destruct (b_stack_new s) as [[dirs|] s1]; cbn [fst snd] in *.
  2:{ left. unfold b_string_free.
      rewrite !visits_emit_quiet by reflexivity. congruence. }
  rewrite (Hnil dirs eq_refl). clear Hnil dirs.
  destruct (quiet_b_stat clean_path flags s1) as (Hv2 & _ & Hst).
  destruct (b_stat clean_path flags s1) as [[st|] s2]; cbn [fst snd] in *.
  2:{ left. rewrite visits_error_dir_open. congruence. }
  specialize (Hst st eq_refl).
  pose proof (visits_invoke callback clean_path clean_member_name st s2)
    as Hv3.
  destruct (invoke callback clean_path clean_member_name st s2) as [res s3].
  cbn [fst snd] in Hv3. rewrite Hv2, Hv1, Hempty in Hv3. simpl in Hv3.
  assert (Hroot : forall s', visits (st_log s') = visits (st_log s3) ->
            exists st0 r, statfn flags clean_path = inr st0 /\
              visits (st_log s')
              = [mk_visit clean_path clean_member_name st0 r]).
  { intros s' Hs'. exists st, res. split; [exact Hst|]. congruence. }
  destruct (res =? 0)%Z eqn:Hz.
  { right. left. apply Hroot, visits_cleanup. }
  destruct (res <? 0)%Z eqn:Hneg.
  { right. left. apply Hroot, visits_error_dir_open. }
  destruct (S_ISDIR st) eqn:Hdir; cbn [negb].
  2:{ right. left. apply Hroot. reflexivity. }
  destruct (quiet_b_dir_open clean_path s3) as (Hv4 & _ & Hnd).
  destruct (b_dir_open clean_path s3) as [[dir|] s4]; cbn [fst snd] in *.
  2:{ right. left. apply Hroot. rewrite visits_error_dir_open.
      destruct err_present; rewrite ?visits_b_error_set; exact Hv4. }
  destruct (Hnd dir eq_refl) as (Hdp & Hop).
  destruct (quiet_b_stack_push [] dir s4) as (Hv5 & _ & Hpush).
  destruct (b_stack_push [] dir s4) as [[dirs'|] s5]; cbn [fst snd] in *.
  2:{ right. left. apply Hroot. rewrite visits_error_cleanup.
      congruence. }
  right. right. rewrite (Hpush dirs' eq_refl).
  assert (Hres : (0 < res)%Z)
    by (apply Z.eqb_neq in Hz; apply Z.ltb_ge in Hneg; lia).
  apply loop_invariant; [exact Hstep|].
  rewrite Hv5, Hv4, Hv3. apply Hinit; assumption.
Qed.

End Steps.

(** ** Logical paths *)

Section LogicalPaths.

Context {E : Env}.

Lemma str_from_app (a b : string) :
  str_from (String.length a) (a ++ b)%string = b.
Proof. induction a as [|c a IH]; simpl; [reflexivity|exact IH]. Qed.

(** The invocation a turn of the loop makes for an entry it surfaces. *)
Lemma iter_surfaces (callback : b_find_callback)
    (clean_path clean_member_name : string) (flags : Z)
    (cwd cwd' : b_dir) (rest : b_stack) (s s1 s2 : state)
    (item : b_dir_item) (o : option string) :
  b_dir_read cwd flags s = (Some item, cwd', s1) ->
  is_dot (item_name item) = false ->
  subst_member_name clean_path clean_member_name (item_path item) s1
  = (o, s2) ->
  let logical := match o with Some n => n | None => item_path item end in
  visits (st_log (iter_state
    (b_find_iter callback clean_path clean_member_name flags cwd rest s)))
  = visits (st_log s)
    ++ [mk_visit (item_path item) logical (item_st item)
          (fst (callback (st_builder s) (item_path item) logical
                  (item_st item)))].
Proof.
  intros Hrd Hdot Hsub logical. unfold b_find_iter.
  rewrite Hrd, Hdot, Hsub. fold logical.
  destruct (b_dir_read_spec _ _ _ _ _ _ Hrd) as (Hv1 & Hb1 & _).
  destruct (subst_member_name_spec _ _ _ _ _ _ Hsub) as (Hv2 & Hb2 & _).
  pose proof (visits_invoke callback (item_path item) logical (item_st item)
                s2) as Hv3.
  assert (Hres : fst (invoke callback (item_path item) logical
                        (item_st item) s2)
                 = fst (callback (st_builder s) (item_path item) logical
                          (item_st item))).
  { unfold invoke. rewrite Hb2, Hb1.
    destruct (callback (st_builder s) (item_path item) logical
                (item_st item)); reflexivity. }
  rewrite Hres, Hv2, Hv1 in Hv3. clear Hres.
  destruct (invoke callback (item_path item) logical (item_st item) s2)
    as [res s3]. cbn [fst snd] in Hv3.
  destruct (res =? 0)%Z.
  { cbn [iter_state]. rewrite visits_b_dir_item_free. exact Hv3. }
  destruct (res <? 0)%Z.
  { destruct (err_present
              && negb (b_error_fatal (builder_err (st_builder s3))));
      cbn [iter_state]; rewrite visits_b_dir_item_free; exact Hv3. }
  destruct (S_ISDIR (item_st item)).
  2:{ cbn [iter_state]. rewrite visits_b_dir_item_free. exact Hv3. }
  destruct (quiet_b_dir_open (item_path item) s3) as (Hv4 & _ & _).
  destruct (b_dir_open (item_path item) s3) as [[newdir|] s4];
    cbn [fst snd] in Hv4.
  2:{ match goal with
      | |- context [(st_errno ?s5 =? EACCES)%Z] =>
        assert (Hv5 : visits (st_log s5) = visits (st_log s3))
          by (destruct err_present;
              rewrite ?visits_b_error_set; exact Hv4);
        destruct (st_errno s5 =? EACCES)%Z; cbn [iter_state];
          rewrite visits_b_dir_item_free, Hv5; exact Hv3
      end. }
  destruct (quiet_b_stack_push (cwd' :: rest) newdir s4) as (Hv5 & _ & _).
  destruct (b_stack_push (cwd' :: rest) newdir s4) as [[dirs'|] s5];
    cbn [fst snd iter_state] in *.
  - rewrite visits_b_dir_item_free, Hv5, Hv4. exact Hv3.
  - rewrite visits_b_dir_destroy, Hv5, Hv4. exact Hv3.
Qed.

(** C6. [subst_member_name] returns [NULL] when the path equals the member
    name; otherwise, when both of its allocations succeed, it returns the
    member name followed by what [current] holds from byte [len(path)] on
    (for [current = path ++ rest] that is [member_name ++ rest]); when an
    allocation fails it returns [NULL] again. On [NULL] the driver hands the
    callback the entry's on-disk path as its logical path. *)
Theorem subst_member_name_splices_prefix
    (path member_name current : string) (s : state) :
  (path = member_name ->
   subst_member_name path member_name current s = (None, s)) /\
  (path <> member_name ->
   String.length path <= String.length current ->
   alloc_ok (st_brk s) = true -> alloc_ok (S (st_brk s)) = true ->
   fst (subst_member_name path member_name current s)
   = Some (member_name ++ str_from (String.length path) current)%string /\
   forall rest, current = (path ++ rest)%string ->
     fst (subst_member_name path member_name current s)
     = Some (member_name ++ rest)%string) /\
  (path <> member_name ->
   alloc_ok (st_brk s) = false \/ alloc_ok (S (st_brk s)) = false ->
   fst (subst_member_name path member_name current s) = None) /\
  (forall callback flags cwd cwd' rest s0 s1 item,
     b_dir_read cwd flags s0 = (Some item, cwd', s) ->
     is_dot (item_name item) = false ->
     current = item_path item ->
     subst_member_name path member_name current s = (None, s1) ->
     visits (st_log (iter_state
       (b_find_iter callback path member_name flags cwd rest s0)))
     = visits (st_log s0)
       ++ [mk_visit (item_path item) (item_path item) (item_st item)
             (fst (callback (st_builder s0) (item_path item)
                     (item_path item) (item_st item)))]).
Proof.
  split; [|split; [|split]].
  - intros Heq. unfold subst_member_name.
    apply String.eqb_eq in Heq. rewrite Heq. reflexivity.
  - intros Hne _ Ha1 Ha2. apply String.eqb_neq in Hne.
    assert (Hrun : fst (subst_member_name path member_name current s)
                   = Some (member_name
                           ++ str_from (String.length path) current)%string).
    { unfold subst_member_name. rewrite Hne. cbn [negb].
      unfold bind, b_string_dup, b_string_append_str, bind, ret, malloc,
        b_string_len.
      rewrite Ha1. cbn [st_brk bump]. rewrite Ha2. reflexivity. }
    split; [exact Hrun|].
    intros rest Hcur. rewrite Hrun, Hcur, str_from_app. reflexivity.
  - intros Hne Hfail. apply String.eqb_neq in Hne.
    unfold subst_member_name. rewrite Hne. cbn [negb].
    unfold bind, b_string_dup, b_string_append_str, bind, ret, malloc.
    destruct (alloc_ok (st_brk s)) eqn:Ha1; [|reflexivity].
    cbn [st_brk bump]. destruct Hfail as [Hf|Hf]; [discriminate|].
    rewrite Hf. reflexivity.
  - intros callback flags cwd cwd' rest s0 s1 item Hrd Hdot Hcur Hsub.
    subst current.
    exact (iter_surfaces callback path member_name flags cwd cwd' rest
             s0 s s1 item None Hrd Hdot Hsub).
Qed.

End LogicalPaths.

Lemma subst_member_name_splices_prefix_witness :
  fst (@subst_member_name env_t "/t" "pkg" "/t/b/c" (@state0 env_t 0))
  = Some "pkg/b/c".
Proof.
  destruct (@subst_member_name_splices_prefix env_t "/t" "pkg" "/t/b/c"
              (@state0 env_t 0)) as (_ & Hrewrite & _).
  destruct Hrewrite as [_ Hrest].
  - intros H. discriminate H.
  - simpl. lia.
  - reflexivity.
  - reflexivity.
  - exact (Hrest "/b/c" eq_refl).
Defined.

(** ** Failed reads *)

Section FailedReads.

Context {E : Env}.

Ltac crunch_read :=
  unfold b_dir_read, readdir, bind, b_string_dup, b_string_new,
    b_string_append_str, bind, ret, malloc, b_stat.

Ltac alloc_steps tac :=
  repeat match goal with
         | |- context [if alloc_ok ?n then _ else _] =>
           destruct (alloc_ok n) eqn:?; simpl; [|tac]
         end.

(** [b_dir_read] writes nothing to the log and keeps the frame's address. *)
Lemma b_dir_read_silent (dir : b_dir) (flags : Z) (s : state) :
  st_log (snd (b_dir_read dir flags s)) = st_log s /\
  dir_addr (snd (fst (b_dir_read dir flags s))) = dir_addr dir.
Proof.
  crunch_read.
  destruct (dir_dp dir) as [|[n|e] rest]; simpl;
    [split; reflexivity| |split; reflexivity].
  alloc_steps ltac:(split; reflexivity).
  destruct (dir_path dir =? "/")%string; simpl;
    alloc_steps ltac:(split; reflexivity);
    match goal with
    | |- context [match statfn ?f ?p with _ => _ end] =>
      destruct (statfn f p); simpl; split; reflexivity
    end.
Qed.

Lemma read_fails_returns_null (dir : b_dir) (flags : Z) (s : state) :
  read_fails flags dir s -> fst (fst (b_dir_read dir flags s)) = None.
Proof.
  intros [e rest Hdp|n rest k Hdp Hk Hal|n rest e Hdp Hst]; crunch_read;
    rewrite Hdp; simpl.
  - reflexivity.
  - alloc_steps reflexivity.
    destruct (dir_path dir =? "/")%string; simpl;
      alloc_steps reflexivity; exfalso.
    + destruct k as [|[|[|[|[|k]]]]]; try lia;
        rewrite ?Nat.add_0_r, ?(Nat.add_comm (st_brk s)) in Hal;
        cbn [Nat.add] in Hal; congruence.
    + destruct k as [|[|[|[|[|[|k]]]]]]; try lia;
        rewrite ?Nat.add_0_r, ?(Nat.add_comm (st_brk s)) in Hal;
        cbn [Nat.add] in Hal; congruence.
  - unfold dir_join in Hst. alloc_steps reflexivity.
    destruct (dir_path dir =? "/")%string; simpl;
      alloc_steps reflexivity; rewrite Hst; reflexivity.
Qed.

(** C8. A read that fails (in [readdir], in an allocation for the entry
    record, or in the stat of the entry) makes [b_dir_read] return [NULL],
    the value it returns on an exhausted stream; the driver then pops the
    frame and destroys it, and no callback is invoked in that turn. *)
Theorem failed_read_ends_the_frame (callback : b_find_callback)
    (clean_path clean_member_name : string) (flags : Z)
    (cwd : b_dir) (rest : b_stack) (s : state) :
  read_fails flags cwd s ->
  fst (fst (b_dir_read cwd flags s)) = None /\
  (forall dir0 s0, dir_dp dir0 = [] ->
     fst (fst (b_dir_read dir0 flags s0)) = None) /\
  exists s1,
    b_find_iter callback clean_path clean_member_name flags cwd rest s
    = Continue rest s1 /\
    st_log s1 = st_log s ++ [EvDirDestroy (dir_addr cwd)] /\
    visits (st_log s1) = visits (st_log s).
Proof.
  intros Hfail. pose proof (read_fails_returns_null cwd flags s Hfail) as Hnull.
  split; [exact Hnull|]. split.
  { intros dir0 s0 Hdp. unfold b_dir_read, readdir. rewrite Hdp. reflexivity. }
  unfold b_find_iter.
  destruct (b_dir_read_silent cwd flags s) as [Hlog Haddr].
  destruct (b_dir_read cwd flags s) as [[oi cwd'] s1]. cbn [fst snd] in *.
  subst oi. cbn [b_stack_pop]. eexists. split; [reflexivity|].
  unfold b_dir_destroy, emit. cbn [st_log]. rewrite Hlog, Haddr.
  split; [reflexivity|]. rewrite visits_app, app_nil_r. reflexivity.
Qed.

End FailedReads.

Lemma failed_read_ends_the_frame_witness :
  exists s1,
    @b_find_iter env_d accept_all "/d" "/d" 1
      (mk_dir 1 [Dirent "x"; Dirent "y"] "/d") [] (@state0 env_d 0)
    = Continue [] s1 /\
    visits (st_log s1) = [].
Proof.
  destruct (@failed_read_ends_the_frame env_d accept_all "/d" "/d" 1%Z
              (mk_dir 1 [Dirent "x"; Dirent "y"] "/d") [] (@state0 env_d 0)
              (@fails_stat env_d 1%Z
                 (mk_dir 1 [Dirent "x"; Dirent "y"] "/d") (@state0 env_d 0)
                 "x" [Dirent "y"] ENOENT eq_refl eq_refl))
    as (_ & _ & s1 & Hit & _ & Hv).
  exists s1. split; [exact Hit|exact Hv].
Defined.

(** ** The symlink policy *)

Section SymlinkPolicy.

Context {E : Env}.

Lemma b_dir_read_flags (flags flags' : Z) (dir : b_dir) (s : state) :
  statfn flags = statfn flags' ->
  b_dir_read dir flags s = b_dir_read dir flags' s.
Proof. intros H. unfold b_dir_read, b_stat. rewrite H. reflexivity. Qed.

Lemma b_find_iter_flags (flags flags' : Z) callback cp cm cwd rest
    (s : state) :
  statfn flags = statfn flags' ->
  b_find_iter callback cp cm flags cwd rest s
  = b_find_iter callback cp cm flags' cwd rest s.
Proof.
  intros H. unfold b_find_iter. rewrite (b_dir_read_flags flags flags' cwd s H).
  reflexivity.
Qed.

Lemma b_find_loop_flags (flags flags' : Z) callback cp cm :
  statfn flags = statfn flags' ->
  forall fuel dir dirs (s : state),
    b_find_loop fuel callback cp cm flags dir dirs s
    = b_find_loop fuel callback cp cm flags' dir dirs s.
Proof.
  intros H. induction fuel as [|fuel IH]; intros dir dirs s; [reflexivity|].
  cbn [b_find_loop]. destruct (b_stack_top dirs) as [cwd|]; [|reflexivity].
  rewrite (b_find_iter_flags flags flags' callback cp cm cwd (tl dirs) s H).
  destruct (b_find_iter callback cp cm flags' cwd (tl dirs) s);
    [apply IH|reflexivity].
Qed.

Lemma statfn_same_bit (flags flags' : Z) :
  Z.land flags B_FIND_FOLLOW_SYMLINKS = Z.land flags' B_FIND_FOLLOW_SYMLINKS ->
  statfn flags = statfn flags'.
Proof. intros H. unfold statfn, follows. rewrite H. reflexivity. Qed.

(** C9. With the FOLLOW_SYMLINKS bit set [b_stat] is [stat], with the bit
    clear it is [lstat]; every stat handed to the callback, for the root and
    for each entry, was obtained that way; and two values of [flags] that
    agree on that bit give the same run of [b_find]. *)
Theorem flags_select_stat_or_lstat :
  (forall path flags (s : state),
     Z.land flags B_FIND_FOLLOW_SYMLINKS <> 0%Z ->
     statfn flags = sys_stat /\
     b_stat path flags s
     = match sys_stat path with
       | inr st => (Some st, s)
       | inl e => (None, set_errno e s)
       end) /\
  (forall path flags (s : state),
     Z.land flags B_FIND_FOLLOW_SYMLINKS = 0%Z ->
     statfn flags = sys_lstat /\
     b_stat path flags s
     = match sys_lstat path with
       | inr st => (Some st, s)
       | inl e => (None, set_errno e s)
       end) /\
  (forall fuel callback path member_name flags (s : state),
     visits (st_log s) = [] ->
     Forall (fun v => statfn flags (v_disk v) = inr (v_st v))
       (visits (st_log (snd
          (b_find fuel callback path member_name flags s))))) /\
  (forall fuel callback path member_name flags flags' (s : state),
     Z.land flags B_FIND_FOLLOW_SYMLINKS
     = Z.land flags' B_FIND_FOLLOW_SYMLINKS ->
     b_find fuel callback path member_name flags s
     = b_find fuel callback path member_name flags' s).
Proof.
  split; [|split; [|split]].
  - intros path flags s Hbit.
    assert (Hf : statfn flags = sys_stat).
    { unfold statfn, follows. apply Z.eqb_neq in Hbit. rewrite Hbit.
      reflexivity. }
    split; [exact Hf|]. unfold b_stat. rewrite Hf. reflexivity.
  - intros path flags s Hbit.
    assert (Hf : statfn flags = sys_lstat).
    { unfold statfn, follows. rewrite Hbit. reflexivity. }
    split; [exact Hf|]. unfold b_stat. rewrite Hf. reflexivity.
  - intros fuel callback path member_name flags s Hempty.
    destruct (b_path_clean path) as [cp|] eqn:Hcp.
    2:{ unfold b_find. rewrite Hcp. cbn [snd]. rewrite Hempty. constructor. }
    destruct (b_path_clean member_name) as [cm|] eqn:Hcm.
    2:{ unfold b_find. rewrite Hcp, Hcm. cbn [snd]. unfold b_string_free.
        rewrite visits_emit_quiet by reflexivity. rewrite Hempty.
        constructor. }
    destruct (b_find_invariant
                (fun _ V => Forall (fun v => statfn flags (v_disk v)
                                             = inr (v_st v)) V)
                callback path member_name cp cm flags fuel s Hcp Hcm Hempty)
      as [Hnil|[(st & r & Hst & Hone)|[_ Hall]]].
    + intros dir st r Hst _ _ _ _. constructor; [exact Hst|constructor].
    + intros cwd rest V dirs' V' HV Hstep.
      destruct Hstep; try exact HV;
        (apply Forall_app; split; [exact HV|]);
        (constructor; [assumption|constructor]).
    + rewrite Hnil. constructor.
    + rewrite Hone. constructor; [exact Hst|constructor].
    + exact Hall.
  - intros fuel callback path member_name flags flags' s Hbit.
    pose proof (statfn_same_bit flags flags' Hbit) as Hf.
    unfold b_find, b_stat. rewrite Hf.
    destruct (b_path_clean path) as [cp|]; [|reflexivity].
    destruct (b_path_clean member_name) as [cm|]; [|reflexivity].
    destruct (b_stack_new s) as [[dirs|] s1]; [|reflexivity].
    destruct (statfn flags' cp) as [e|st]; [reflexivity|].
    destruct (invoke callback cp cm st s1) as [res s3].
    destruct (res =? 0)%Z; [reflexivity|].
    destruct (res <? 0)%Z; [reflexivity|].
    destruct (negb (S_ISDIR st)); [reflexivity|].
    destruct (b_dir_open cp s3) as [[dir|] s4]; [|reflexivity].
    destruct (b_stack_push dirs dir s4) as [[dirs'|] s5]; [|reflexivity].
    apply b_find_loop_flags, Hf.
Qed.

End SymlinkPolicy.

Lemma flags_select_stat_or_lstat_witness :
  calls (st_log (snd (@b_find env_d 20 accept_all "/d" "/d" 0
                        (@state0 env_d 0))))
  = [("/d", "/d", dir_stat 10); ("/d/l", "/d/l", lnk_stat 12);
     ("/d/x", "/d/x", lnk_stat 11); ("/d/y", "/d/y", reg_stat 13)] /\
  calls (st_log (snd (@b_find env_d 20 accept_all "/d" "/d" 1
                        (@state0 env_d 0))))
  = [("/d", "/d", dir_stat 10); ("/d/l", "/d/l", reg_stat 13)] /\
  @b_find env_d 20 accept_all "/d" "/d" 3 (@state0 env_d 0)
  = @b_find env_d 20 accept_all "/d" "/d" 1 (@state0 env_d 0).
Proof.
  split; [reflexivity|]. split; [reflexivity|].
  destruct (@flags_select_stat_or_lstat env_d) as (_ & _ & _ & Hsame).
  apply Hsame. reflexivity.
Defined.

(** ** Errors reported by the callback *)

(** C4, as stated, fails at the root: an accumulator is present and not
    fatal, the callback returns -1 on the root [/t], and [b_find] aborts
    with -1 instead of skipping the entry. *)
Lemma root_failure_aborts_with_nonfatal_accumulator :
  let r := @b_find env_t_err 20 fail_all "/t" "/t" 0 (@state0 env_t_err 0) in
  @err_present env_t_err = true /\
  b_error_fatal (builder_err (st_builder (snd r))) = false /\
  visits (st_log (snd r)) = [mk_visit "/t" "/t" (dir_stat 1) (-1)] /\
  fst r = Returned (-1).
Proof. vm_compute. repeat split. Qed.

Section CallbackErrors.

Context {E : Env}.
Variable callback : b_find_callback.
Variables clean_path clean_member_name : string.
Variable flags : Z.

(** C4, amended. When the callback returns a negative value on an entry
    read from a directory: with an accumulator that is present and not
    fatal the entry record is released and the loop goes on with the same
    frames; with an accumulator that is fatal or absent the entry record is
    released and the loop is left for [error_cleanup], with no further
    invocation of the callback. On the root a negative value makes [b_find]
    return -1 whatever the accumulator says. *)
Theorem callback_failure_protocol :
  (forall fuel dir cwd cwd' rest (s s1 s2 s3 : state) item nm res,
     b_dir_read cwd flags s = (Some item, cwd', s1) ->
     is_dot (item_name item) = false ->
     subst_member_name clean_path clean_member_name (item_path item) s1
     = (nm, s2) ->
     invoke callback (item_path item)
       (match nm with Some n => n | None => item_path item end)
       (item_st item) s2 = (res, s3) ->
     (res < 0)%Z ->
     (err_present = true /\
      b_error_fatal (builder_err (st_builder s3)) = false ->
      b_find_loop (S fuel) callback clean_path clean_member_name flags dir
        (cwd :: rest) s
      = b_find_loop fuel callback clean_path clean_member_name flags dir
          (cwd' :: rest) (b_dir_item_free item s3)) /\
     (err_present = false \/
      b_error_fatal (builder_err (st_builder s3)) = true ->
      b_find_iter callback clean_path clean_member_name flags cwd rest s
      = ErrorCleanup (cwd' :: rest) (b_dir_item_free item s3) /\
      b_find_loop (S fuel) callback clean_path clean_member_name flags dir
        (cwd :: rest) s
      = (error_cleanup_result dir (cwd' :: rest),
         error_cleanup dir (cwd' :: rest) (b_dir_item_free item s3)) /\
      visits (st_log (error_cleanup dir (cwd' :: rest)
                        (b_dir_item_free item s3)))
      = visits (st_log s3))) /\
  (forall fuel path member_name (s s1 s2 s3 : state) dirs st res,
     b_path_clean path = Some clean_path ->
     b_path_clean member_name = Some clean_member_name ->
     b_stack_new s = (Some dirs, s1) ->
     b_stat clean_path flags s1 = (Some st, s2) ->
     invoke callback clean_path clean_member_name st s2 = (res, s3) ->
     (res < 0)%Z ->
     b_find fuel callback path member_name flags s
     = (Returned (-1), error_dir_open dirs s3)).
Proof.
  split.
  - intros fuel dir cwd cwd' rest s s1 s2 s3 item nm res
      Hrd Hdot Hsub Hinv Hneg.
    cbn [b_find_loop b_stack_top hd_error tl]. unfold b_find_iter.
    rewrite Hrd, Hdot, Hsub, Hinv.
    replace (res =? 0)%Z with false by (symmetry; apply Z.eqb_neq; lia).
    replace (res <? 0)%Z with true by (symmetry; apply Z.ltb_lt; lia).
    split.
    + intros [Hp Hnf]. rewrite Hp, Hnf. reflexivity.
    + intros Hor.
      assert (Hexc : err_present
                     && negb (b_error_fatal (builder_err (st_builder s3)))
                     = false).
      { destruct Hor as [Hp|Hf]; [rewrite Hp|rewrite Hf, andb_false_r];
          reflexivity. }
      rewrite Hexc. split; [reflexivity|]. split; [reflexivity|].
      rewrite visits_error_cleanup. unfold b_dir_item_free.
      apply visits_emit_quiet. reflexivity.
  - intros fuel path member_name s s1 s2 s3 dirs st res
      Hcp Hcm Hnew Hst Hinv Hneg.
    unfold b_find. rewrite Hcp, Hcm, Hnew, Hst, Hinv.
    replace (res =? 0)%Z with false by (symmetry; apply Z.eqb_neq; lia).
    replace (res <? 0)%Z with true by (symmetry; apply Z.ltb_lt; lia).
    reflexivity.
Qed.

(** ** Directories that do not open *)

(** X14. When [b_dir_open] fails, a WARN error with the errno and the path
    of the directory is set on the accumulator if there is one (when
    [opendir] is what failed, that errno is the one it reported). For the
    root [b_find] then returns -1. For a directory below the root the entry
    record is released; the loop goes on with the next entry of the same
    frame when the errno is EACCES, and is left for [error_cleanup], with no
    further invocation of the callback, otherwise. *)
Theorem open_failure_protocol :
  (forall path (s : state) e,
     alloc_ok (st_brk s) = true -> sys_opendir path = inl e ->
     b_dir_open path s = (None, set_errno e (bump s))) /\
  (forall en path (s : state),
     let s' := b_error_set B_ERROR_WARN en "Unable to open directory" path s in
     builder_err (st_builder s')
     = mk_error B_ERROR_WARN en "Unable to open directory" path /\
     st_log s'
     = st_log s ++ [EvErrorSet B_ERROR_WARN en "Unable to open directory" path]
     /\ st_errno s' = st_errno s) /\
  (forall fuel path member_name (s s1 s2 s3 s4 : state) dirs st res,
     b_path_clean path = Some clean_path ->
     b_path_clean member_name = Some clean_member_name ->
     b_stack_new s = (Some dirs, s1) ->
     b_stat clean_path flags s1 = (Some st, s2) ->
     invoke callback clean_path clean_member_name st s2 = (res, s3) ->
     (0 < res)%Z ->
     S_ISDIR st = true ->
     b_dir_open clean_path s3 = (None, s4) ->
     b_find fuel callback path member_name flags s
     = (Returned (-1),
        error_dir_open dirs
          (if err_present
           then b_error_set B_ERROR_WARN (st_errno s4)
                  "Unable to open directory" clean_path s4
           else s4))) /\
  (forall fuel dir cwd cwd' rest (s s1 s2 s3 s4 : state) item nm res,
     b_dir_read cwd flags s = (Some item, cwd', s1) ->
     is_dot (item_name item) = false ->
     subst_member_name clean_path clean_member_name (item_path item) s1
     = (nm, s2) ->
     invoke callback (item_path item)
       (match nm with Some n => n | None => item_path item end)
       (item_st item) s2 = (res, s3) ->
     (0 < res)%Z ->
     S_ISDIR (item_st item) = true ->
     b_dir_open (item_path item) s3 = (None, s4) ->
     let s5 :=
       if err_present
       then b_error_set B_ERROR_WARN (st_errno s4)
              "Unable to open directory" (item_path item) s4
       else s4 in
     (st_errno s4 = EACCES ->
      b_find_loop (S fuel) callback clean_path clean_member_name flags dir
        (cwd :: rest) s
      = b_find_loop fuel callback clean_path clean_member_name flags dir
          (cwd' :: rest) (b_dir_item_free item s5)) /\
     (st_errno s4 <> EACCES ->
      b_find_loop (S fuel) callback clean_path clean_member_name flags dir
        (cwd :: rest) s
      = (error_cleanup_result dir (cwd' :: rest),
         error_cleanup dir (cwd' :: rest) (b_dir_item_free item s5)) /\
      visits (st_log (error_cleanup dir (cwd' :: rest)
                        (b_dir_item_free item s5)))
      = visits (st_log s3))).
Proof.
  split; [|split; [|split]].
  - intros path s e Hal Hop. unfold b_dir_open, bind, malloc, opendir.
    rewrite Hal, Hop. reflexivity.
  - intros en path s. cbv zeta. repeat split.
  - intros fuel path member_name s s1 s2 s3 s4 dirs st res
      Hcp Hcm Hnew Hst Hinv Hpos Hdir Hopen.
    unfold b_find. rewrite Hcp, Hcm, Hnew, Hst, Hinv.
    replace (res =? 0)%Z with false by (symmetry; apply Z.eqb_neq; lia).
    replace (res <? 0)%Z with false by (symmetry; apply Z.ltb_ge; lia).
    rewrite Hdir, Hopen. reflexivity.
  - intros fuel dir cwd cwd' rest s s1 s2 s3 s4 item nm res
      Hrd Hdot Hsub Hinv Hpos Hdir Hopen s5.
    cbn [b_find_loop b_stack_top hd_error tl]. unfold b_find_iter.
    rewrite Hrd, Hdot, Hsub, Hinv.
    replace (res =? 0)%Z with false by (symmetry; apply Z.eqb_neq; lia).
    replace (res <? 0)%Z with false by (symmetry; apply Z.ltb_ge; lia).
    rewrite Hdir, Hopen. fold s5.
    assert (Hen : st_errno s5 = st_errno s4)
      by (unfold s5; destruct err_present; reflexivity).
    rewrite Hen. split.
    + intros He. rewrite He. reflexivity.
    + intros He. apply Z.eqb_neq in He. rewrite He.
      split; [reflexivity|].
      rewrite visits_error_cleanup. unfold b_dir_item_free.
      rewrite visits_emit_quiet by reflexivity.
      assert (H5 : visits (st_log s5) = visits (st_log s4)).
      { unfold s5. destruct err_present; [|reflexivity].
        apply visits_b_error_set. }
      rewrite H5. clear - Hopen.
      unfold b_dir_open, bind, malloc, opendir, b_string_dup, bind, ret,
        malloc in Hopen.
      destruct (alloc_ok (st_brk s3)); [|inversion Hopen; reflexivity].
      destruct (sys_opendir (item_path item));
        [inversion Hopen; reflexivity|].
      cbn [st_brk bump] in Hopen.
      destruct (alloc_ok (S (st_brk s3))); inversion Hopen; reflexivity.
Qed.

End CallbackErrors.

Lemma callback_failure_protocol_witness :
  exists s',
    @b_find_loop env_t_err 10 (fail_at "/t/a") "/t" "/t" 0
      (mk_dir 1 [Dirent "a"; Dirent "b"] "/t")
      [mk_dir 1 [Dirent "a"; Dirent "b"] "/t"] (@state0 env_t_err 0)
    = @b_find_loop env_t_err 9 (fail_at "/t/a") "/t" "/t" 0
        (mk_dir 1 [Dirent "a"; Dirent "b"] "/t")
        [mk_dir 1 [Dirent "b"] "/t"] s' /\
    st_log s' = [EvCallback "/t/a" "/t/a" (reg_stat 2) (-1); EvItemFree 0].
Proof.
  destruct (@callback_failure_protocol env_t_err (fail_at "/t/a") "/t" "/t"
              0%Z) as [Hbelow _].
  edestruct (Hbelow 9 (mk_dir 1 [Dirent "a"; Dirent "b"] "/t")
               (mk_dir 1 [Dirent "a"; Dirent "b"] "/t")
               (mk_dir 1 [Dirent "b"] "/t") [] (@state0 env_t_err 0))
    as [Hskip _].
  - reflexivity.
  - reflexivity.
  - reflexivity.
  - reflexivity.
  - reflexivity.
  - eexists. split; [apply Hskip; split; reflexivity|reflexivity].
Defined.

Lemma open_failure_protocol_witness :
  exists s',
    @b_find_loop env_p 10 accept_all "/p" "/p" 0
      (mk_dir 1 [Dirent "locked"; Dirent "z"] "/p")
      [mk_dir 1 [Dirent "locked"; Dirent "z"] "/p"] (@state0 env_p 0)
    = @b_find_loop env_p 9 accept_all "/p" "/p" 0
        (mk_dir 1 [Dirent "locked"; Dirent "z"] "/p")
        [mk_dir 1 [Dirent "z"] "/p"] s' /\
    st_log s'
    = [EvCallback "/p/locked" "/p/locked" (dir_stat 21) 1;
       EvErrorSet B_ERROR_WARN EACCES "Unable to open directory" "/p/locked";
       EvItemFree 0].
Proof.
  destruct (@open_failure_protocol env_p accept_all "/p" "/p" 0%Z)
    as (_ & _ & _ & Hbelow).
  edestruct (Hbelow 9 (mk_dir 1 [Dirent "locked"; Dirent "z"] "/p")
               (mk_dir 1 [Dirent "locked"; Dirent "z"] "/p")
               (mk_dir 1 [Dirent "z"] "/p") [] (@state0 env_p 0))
    as [Htolerate _].
  - reflexivity.
  - reflexivity.
  - reflexivity.
  - reflexivity.
  - reflexivity.
  - reflexivity.
  - reflexivity.
  - eexists. split; [apply Htolerate; reflexivity|reflexivity].
Defined.

(** C5. The claim fails for a directory below the root that does not open
    for another reason than EACCES: [/p/locked] fails to open with EMFILE.
    The warning is recorded and the entry record released, but the walk does
    not end in a return of -1: it leaves through [error_cleanup], where
    [b_dir_destroy(dir)] destroys the root frame, which is still on the
    stack, and [b_stack_destroy] destroys it once more. *)
Theorem failed_open_below_root_destroys_root_twice :
  let r := @b_find env_q 20 accept_all "/p" "/p" 0 (@state0 env_q 0) in
  @sys_opendir env_q "/p/locked" = inl EMFILE /\
  fst r = Undefined /\
  st_log (snd r)
  = [EvCallback "/p" "/p" (dir_stat 20) 1; EvDirOpen 1 "/p"; EvStackPush 1;
     EvCallback "/p/locked" "/p/locked" (dir_stat 21) 1;
     EvErrorSet B_ERROR_WARN EMFILE "Unable to open directory" "/p/locked";
     EvItemFree 4;
     EvDirDestroy 1; EvDirDestroy 1;
     EvStackDestroy; EvStringFree CleanMemberName; EvStringFree CleanPath] /\
  occurrences (EvStackPush 1) (st_log (snd r)) = 1 /\
  occurrences (EvDirDestroy 1) (st_log (snd r)) = 2.
Proof. vm_compute. repeat split. Qed.

(** ** The root invocation *)

Section RootInvocation.

Context {E : Env}.

(** C10. When the callback is invoked at all, its first invocation is for
    the root and receives the canonicalized path as disk path and the
    canonicalized member name, as it is, as logical path, together with the
    stat of the canonicalized path; so with equal canonicalized strings the
    root's logical path is its disk path. Every later invocation receives
    either the entry's disk path or, the two strings being different, the
    member name followed by the disk path from byte [len(path)] on. *)
Theorem root_reported_under_member_name (fuel : nat)
    (callback : b_find_callback)
    (path member_name clean_path clean_member_name : string) (flags : Z)
    (s : state) :
  b_path_clean path = Some clean_path ->
  b_path_clean member_name = Some clean_member_name ->
  visits (st_log s) = [] ->
  let V := visits (st_log (snd
             (b_find fuel callback path member_name flags s))) in
  V = [] \/
  exists st r V',
    statfn flags clean_path = inr st /\
    V = mk_visit clean_path clean_member_name st r :: V' /\
    (clean_path = clean_member_name ->
     forall v, hd_error V = Some v -> v_logical v = v_disk v) /\
    Forall (fun v =>
              v_logical v = v_disk v \/
              clean_path <> clean_member_name /\
              v_logical v
              = (clean_member_name
                 ++ str_from (String.length clean_path) (v_disk v))%string)
      V'.
Proof.
  intros Hcp Hcm Hempty V.
  set (shape := fun v =>
         v_logical v = v_disk v \/
         clean_path <> clean_member_name /\
         v_logical v
         = (clean_member_name
            ++ str_from (String.length clean_path) (v_disk v))%string).
  assert (Hmain : V = [] \/
            exists st r V',
              statfn flags clean_path = inr st /\
              V = mk_visit clean_path clean_member_name st r :: V' /\
              Forall shape V').
  { destruct (b_find_invariant
                (fun _ W => exists st r W',
                     statfn flags clean_path = inr st /\
                     W = mk_visit clean_path clean_member_name st r :: W' /\
                     Forall shape W')
                callback path member_name clean_path clean_member_name
                flags fuel s Hcp Hcm Hempty)
      as [Hnil|[(st & r & Hst & Hone)|[_ Hinv]]].
    - intros dir st r Hst _ _ _ _. exists st, r, []. repeat split; auto.
    - intros cwd rest W dirs' W' (st & r & W0 & Hst & HW & Hall) Hstep.
      destruct Hstep.
      + exists st, r, W0. auto.
      + exists st, r, W0. auto.
      + exists st, r, (W0 ++ [mk_visit (dir_join (dir_path cwd) n) m st0 r0]).
        split; [exact Hst|]. split; [rewrite HW; reflexivity|].
        apply Forall_app. split; [exact Hall|].
        constructor; [|constructor]. unfold shape. simpl. assumption.
      + exists st, r, (W0 ++ [mk_visit (dir_join (dir_path cwd) n) m st0 r0]).
        split; [exact Hst|]. split; [rewrite HW; reflexivity|].
        apply Forall_app. split; [exact Hall|].
        constructor; [|constructor]. unfold shape. simpl. assumption.
    - left. exact Hnil.
    - right. exists st, r, []. repeat split; auto.
    - right. exact Hinv. }
  destruct Hmain as [Hnil|(st & r & V' & Hst & HV & Hall)]; [left; exact Hnil|].
  right. exists st, r, V'. split; [exact Hst|]. split; [exact HV|].
  split; [|exact Hall].
  intros Heq v Hhd. rewrite HV in Hhd. inversion Hhd. simpl. symmetry.
  exact Heq.
Qed.

End RootInvocation.

Lemma root_reported_under_member_name_witness :
  hd_error (visits (st_log (snd (@b_find env_t 20 accept_all "/t" "pkg" 0
                                   (@state0 env_t 0)))))
  = Some (mk_visit "/t" "pkg" (dir_stat 1) 1).
Proof.
  destruct (@root_reported_under_member_name env_t 20 accept_all
              "/t" "pkg" "/t" "pkg" 0%Z (@state0 env_t 0)
              eq_refl eq_refl eq_refl)
    as [Hnil|(st & r & V' & _ & HV & _)].
  - exfalso.
    assert (Hrun : visits (st_log (snd (@b_find env_t 20 accept_all
                                          "/t" "pkg" 0 (@state0 env_t 0))))
                   <> []) by (vm_compute; discriminate).
    exact (Hrun Hnil).
  - vm_compute. reflexivity.
Defined.

(** ** Pruning *)

Section PathFacts.

Lemma append_assoc' (a b c : string) :
  ((a ++ b) ++ c)%string = (a ++ (b ++ c))%string.
Proof. induction a as [|x a IH]; simpl; [reflexivity|]. rewrite IH. reflexivity. Qed.

Lemma length_append' (a b : string) :
  String.length (a ++ b)%string = String.length a + String.length b.
Proof. induction a as [|x a IH]; simpl; [reflexivity|]. rewrite IH. reflexivity. Qed.

Lemma no_slash_after_slash (a n : string) :
  no_slash (a ++ String "/" n)%string = false.
Proof.
  induction a as [|x a IH]; simpl; [reflexivity|].
  rewrite IH. apply andb_false_r.
Qed.

(** A path splits in one way only at its last slash. *)
Lemma last_slash_unique (a a' n n' : string) :
  no_slash n = true -> no_slash n' = true ->
  (a ++ String "/" n)%string = (a' ++ String "/" n')%string ->
  a = a' /\ n = n'.
Proof.
  revert a'. induction a as [|x a IH]; intros [|x' a'] Hn Hn' Heq;
    simpl in Heq.
  - inversion Heq. split; reflexivity.
  - inversion Heq. subst. rewrite no_slash_after_slash in Hn. discriminate.
  - inversion Heq. subst. rewrite no_slash_after_slash in Hn'. discriminate.
  - inversion Heq. subst.
    destruct (IH a' Hn Hn' H1) as [Ha Hnn]. subst. split; reflexivity.
Qed.

Lemma dir_join_split (q n : string) :
  exists a, dir_join q n = (a ++ String "/" n)%string /\
            (q = "/" /\ a = "" \/ q <> "/" /\ a = q).
Proof.
  unfold dir_join. destruct (q =? "/")%string eqn:Hq.
  - apply String.eqb_eq in Hq. subst. exists "". split; [reflexivity|].
    left. split; reflexivity.
  - apply String.eqb_neq in Hq. exists q. rewrite append_assoc'.
    split; [reflexivity|]. right. split; [exact Hq|reflexivity].
Qed.

Lemma name_ok_parts (n : string) :
  name_ok n = true -> n <> "" /\ no_slash n = true.
Proof.
  unfold name_ok. intros H. apply andb_true_iff in H. destruct H as [Hne Hns].
  split; [|exact Hns]. intros ->. discriminate.
Qed.

Lemma dir_join_inj (q q' n n' : string) :
  name_ok n = true -> name_ok n' = true -> q <> "" -> q' <> "" ->
  dir_join q n = dir_join q' n' -> q = q' /\ n = n'.
Proof.
  intros Hn Hn' Hq Hq' Heq.
  apply name_ok_parts in Hn. apply name_ok_parts in Hn'.
  destruct (dir_join_split q n) as (a & Ha & Hqa).
  destruct (dir_join_split q' n') as (a' & Ha' & Hqa').
  rewrite Ha, Ha' in Heq.
  destruct (last_slash_unique a a' n n' (proj2 Hn) (proj2 Hn') Heq)
    as [Haa Hnn].
  split; [|exact Hnn].
  destruct Hqa as [[H1 H2]|[H1 H2]], Hqa' as [[H3 H4]|[H3 H4]]; congruence.
Qed.

Lemma dir_join_longer (q n : string) :
  name_ok n = true -> String.length q < String.length (dir_join q n).
Proof.
  intros Hn. apply name_ok_parts in Hn. destruct Hn as [Hne _].
  destruct (dir_join_split q n) as (a & Ha & Hqa). rewrite Ha.
  rewrite length_append'. simpl.
  destruct Hqa as [[H1 H2]|[H1 H2]]; subst; simpl.
  - destruct n; [congruence|simpl; lia].
  - lia.
Qed.

Lemma below_longer (p d : string) :
  below p d -> String.length p < String.length d.
Proof.
  induction 1 as [n Hn|q n Hq IH Hn].
  - apply dir_join_longer, Hn.
  - pose proof (dir_join_longer q n Hn). lia.
Qed.

Lemma below_nonempty (p d : string) : below p d -> d <> "".
Proof. intros H Hd. apply below_longer in H. subst. simpl in H. lia. Qed.

Lemma accepted_app (V W : list visit) (q : string) :
  accepted V q -> accepted (V ++ W) q.
Proof.
  intros (v & Hin & Hq & Hr). exists v. split; [|split; assumption].
  apply in_or_app. left. exact Hin.
Qed.

(** Every invocation of a rooted sequence is for the root or for a path
    below it. *)
Lemma rooted_under_root (cp : string) (V : list visit) :
  rooted cp V -> forall w, In w V -> v_disk w = cp \/ below cp (v_disk w).
Proof.
  induction 1 as [v Hv|V v q n Hroot IH Hacc Hn Hv]; intros w Hin.
  - destruct Hin as [<-|[]]. left. exact Hv.
  - apply in_app_or in Hin. destruct Hin as [Hin|[<-|[]]]; [apply IH, Hin|].
    right. rewrite Hv. destruct Hacc as (u & Hu & Hq & _).
    destruct (IH u Hu) as [Hc|Hb].
    + rewrite <- Hq, Hc. apply below_child, Hn.
    + apply below_deeper; [rewrite <- Hq; exact Hb|exact Hn].
Qed.

(** In a rooted sequence nothing below a path that was never accepted is
    invoked. *)
Lemma rooted_prune (cp P : string) (V : list visit) :
  rooted cp V -> cp <> "" ->
  P = cp \/ below cp P ->
  (forall w, In w V -> v_disk w = P -> (v_res w <= 0)%Z) ->
  forall w, In w V -> ~ below P (v_disk w).
Proof.
  intros Hroot Hcp HP.
  assert (HPne : P <> "").
  { destruct HP as [->|HP]; [exact Hcp|]. eapply below_nonempty, HP. }
  induction Hroot as [v Hv|V v q n Hroot IH Hacc Hn Hv]; intros Hnever w Hin Hb.
  - destruct Hin as [<-|[]]. rewrite Hv in Hb. apply below_longer in Hb.
    destruct HP as [->|HP]; [lia|]. apply below_longer in HP. lia.
  - apply in_app_or in Hin. destruct Hin as [Hin|[<-|[]]].
    + apply (IH (fun u Hu => Hnever u (in_or_app _ _ _ (or_introl Hu)))
                w Hin Hb).
    + rewrite Hv in Hb. destruct Hacc as (u & Hu & Hq & Hr).
      assert (Hqne : q <> "").
      { destruct (rooted_under_root cp V Hroot u Hu) as [Hc|Hbq].
        - congruence.
        - rewrite <- Hq. eapply below_nonempty, Hbq. }
      inversion Hb as [n' Hn' Heq|q' n' Hq' Hn' Heq].
      * destruct (dir_join_inj P q n' n Hn' Hn HPne Hqne Heq) as [HPq _].
        specialize (Hnever u (in_or_app _ _ _ (or_introl Hu))
                      ltac:(congruence)). lia.
      * assert (Hq'ne : q' <> "") by (eapply below_nonempty, Hq').
        destruct (dir_join_inj q' q n' n Hn' Hn Hq'ne Hqne Heq) as [Hqq _].
        subst q'.
        apply (IH (fun u0 Hu0 => Hnever u0 (in_or_app _ _ _ (or_introl Hu0)))
                  u Hu). rewrite Hq. exact Hq'.
Qed.

End PathFacts.

Section Pruning.

Context {E : Env}.

(** Whatever [b_find] does, its invocations form a rooted sequence, provided
    the file system hands out proper entry names. *)
Lemma b_find_rooted (fuel : nat) (callback : b_find_callback)
    (path member_name clean_path clean_member_name : string) (flags : Z)
    (s : state) :
  b_path_clean path = Some clean_path ->
  b_path_clean member_name = Some clean_member_name ->
  visits (st_log s) = [] ->
  (forall p dp n, sys_opendir p = inr dp -> In (Dirent n) dp ->
                  name_ok n = true) ->
  let V := visits (st_log (snd
             (b_find fuel callback path member_name flags s))) in
  V = [] \/ rooted clean_path V.
Proof.
  intros Hcp Hcm Hempty Hnames V.
  destruct (b_find_invariant
              (fun dirs W =>
                 rooted clean_path W /\
                 Forall (fun f =>
                           accepted W (dir_path f) /\
                           forall n, In (Dirent n) (dir_dp f) ->
                                     name_ok n = true) dirs)
              callback path member_name clean_path clean_member_name
              flags fuel s Hcp Hcm Hempty)
    as [Hnil|[(st & r & Hst & Hone)|[_ [Hroot _]]]].
  - intros dir st r Hst Hr Hdir Hdp Hop. split.
    + apply rooted_root. reflexivity.
    + constructor; [|constructor]. split.
      * eexists. split; [left; reflexivity|]. simpl. split; [congruence|exact Hr].
      * intros n Hn. eapply Hnames; eassumption.
  - intros cwd rest W dirs' W' [Hroot Hall] Hstep.
    inversion Hall as [|f fs [Hacc Hcwd] Hrest]; subst.
    destruct Hstep as [|e dp' Hdp|n dp' m st r Hdp Hdot Hst Hm
                       |n dp' m st r nd Hdp Hdot Hst Hm Hr Hdir Hndp Hop].
    + split; assumption.
    + split; [exact Hroot|]. constructor; [|exact Hrest].
      split; [exact Hacc|]. simpl. intros n Hn. apply Hcwd.
      rewrite Hdp. right. exact Hn.
    + assert (Hn : name_ok n = true)
        by (apply Hcwd; rewrite Hdp; left; reflexivity).
      split.
      * eapply rooted_snoc; [exact Hroot|exact Hacc|exact Hn|reflexivity].
      * constructor.
        -- split; [apply accepted_app, Hacc|]. simpl. intros n0 Hn0.
           apply Hcwd. rewrite Hdp. right. exact Hn0.
        -- eapply Forall_impl; [|exact Hrest]. intros f [Hf1 Hf2].
           split; [apply accepted_app, Hf1|exact Hf2].
    + assert (Hn : name_ok n = true)
        by (apply Hcwd; rewrite Hdp; left; reflexivity).
      split.
      * eapply rooted_snoc; [exact Hroot|exact Hacc|exact Hn|reflexivity].
      * constructor; [|constructor].
        -- split.
           ++ eexists. split; [apply in_or_app; right; left; reflexivity|].
              simpl. split; [congruence|exact Hr].
           ++ intros n0 Hn0. eapply Hnames; eassumption.
        -- split; [apply accepted_app, Hacc|]. simpl. intros n0 Hn0.
           apply Hcwd. rewrite Hdp. right. exact Hn0.
        -- eapply Forall_impl; [|exact Hrest]. intros f [Hf1 Hf2].
           split; [apply accepted_app, Hf1|exact Hf2].
  - left. exact Hnil.
  - right. unfold V. rewrite Hone. apply rooted_root. reflexivity.
  - right. exact Hroot.
Qed.

(** C7. When the callback returns 0 on an entry, the turn of the loop ends
    with the frames it had, none pushed, and on the root [b_find] returns at
    once. Over the whole call: if the callback returned 0 on a path and
    never a positive value on that path, then no path below it is ever
    handed to the callback. *)
Theorem pruned_directory_hides_descendants :
  (forall callback cp cm flags cwd cwd' rest (s s1 s2 s3 : state) item nm,
     b_dir_read cwd flags s = (Some item, cwd', s1) ->
     is_dot (item_name item) = false ->
     subst_member_name cp cm (item_path item) s1 = (nm, s2) ->
     invoke callback (item_path item)
       (match nm with Some n => n | None => item_path item end)
       (item_st item) s2 = (0%Z, s3) ->
     b_find_iter callback cp cm flags cwd rest s
     = Continue (cwd' :: rest) (b_dir_item_free item s3)) /\
  (forall fuel callback path member_name cp cm flags (s s1 s2 s3 : state)
          dirs st,
     b_path_clean path = Some cp ->
     b_path_clean member_name = Some cm ->
     b_stack_new s = (Some dirs, s1) ->
     b_stat cp flags s1 = (Some st, s2) ->
     invoke callback cp cm st s2 = (0%Z, s3) ->
     b_find fuel callback path member_name flags s
     = (Returned 0, cleanup dirs s3)) /\
  (forall fuel callback path member_name cp cm flags (s : state),
     b_path_clean path = Some cp ->
     b_path_clean member_name = Some cm ->
     cp <> "" ->
     visits (st_log s) = [] ->
     (forall p dp n, sys_opendir p = inr dp -> In (Dirent n) dp ->
                     name_ok n = true) ->
     let V := visits (st_log (snd
                (b_find fuel callback path member_name flags s))) in
     forall v,
       In v V -> v_res v = 0%Z ->
       (forall w, In w V -> v_disk w = v_disk v -> (v_res w <= 0)%Z) ->
       forall w, In w V -> ~ below (v_disk v) (v_disk w)).
Proof.
  split; [|split].
  - intros callback cp cm flags cwd cwd' rest s s1 s2 s3 item nm
      Hrd Hdot Hsub Hinv.
    unfold b_find_iter. rewrite Hrd, Hdot, Hsub, Hinv. reflexivity.
  - intros fuel callback path member_name cp cm flags s s1 s2 s3 dirs st
      Hcp Hcm Hnew Hst Hinv.
    unfold b_find. rewrite Hcp, Hcm, Hnew, Hst, Hinv. reflexivity.
  - intros fuel callback path member_name cp cm flags s Hcp Hcm Hne Hempty
      Hnames V v Hv Hzero Hnever w Hw.
    destruct (b_find_rooted fuel callback path member_name cp cm flags s
                Hcp Hcm Hempty Hnames) as [Hnil|Hroot].
    + fold V in Hnil. rewrite Hnil in Hv. destruct Hv.
    + fold V in Hroot.
      apply (rooted_prune cp (v_disk v) V Hroot Hne
               (rooted_under_root cp V Hroot v Hv) Hnever w Hw).
Qed.

End Pruning.

Lemma table_env_names (errp : bool) (follow : Z)
    (stats lstats : list (string * stat)) (dirs : list (string * (Z + DIR)))
    (oracle : nat -> bool) :
  dirs_names_ok dirs = true ->
  forall p dp n,
    @sys_opendir (table_env errp follow stats lstats dirs oracle) p = inr dp ->
    In (Dirent n) dp -> name_ok n = true.
Proof.
  intros Hok p dp n. simpl.
  induction dirs as [|[k r] dirs IH]; simpl; [discriminate|].
  unfold dirs_names_ok in Hok. simpl in Hok.
  apply andb_true_iff in Hok. destruct Hok as [Hr Hrest].
  destruct (k =? p)%string.
  - intros Hop Hin. subst r.
    rewrite forallb_forall in Hr. apply (Hr _ Hin).
  - apply IH. exact Hrest.
Qed.

Lemma pruned_directory_hides_descendants_witness :
  let V := visits (st_log (snd (@b_find env_t 20 (prune_at "/t/b") "/t" "/t" 0
                                  (@state0 env_t 0)))) in
  map v_disk V = ["/t"; "/t/a"; "/t/b"] /\
  Forall (fun w => ~ below "/t/b" (v_disk w)) V.
Proof.
  assert (HV : visits (st_log (snd (@b_find env_t 20 (prune_at "/t/b")
                                      "/t" "/t" 0 (@state0 env_t 0))))
               = [mk_visit "/t" "/t" (dir_stat 1) 1;
                  mk_visit "/t/a" "/t/a" (reg_stat 2) 1;
                  mk_visit "/t/b" "/t/b" (dir_stat 3) 0])
    by (vm_compute; reflexivity).
  cbv zeta. split; [rewrite HV; reflexivity|].
  apply Forall_forall. intros w Hw.
  destruct (@pruned_directory_hides_descendants env_t) as (_ & _ & Hglobal).
  apply (Hglobal 20 (prune_at "/t/b") "/t" "/t" "/t" "/t" 0%Z
           (@state0 env_t 0) eq_refl eq_refl
           ltac:(discriminate) eq_refl
           (table_env_names false 1 t_stats t_stats t_dirs always_ok eq_refl)
           (mk_visit "/t/b" "/t/b" (dir_stat 3) 0)).
  - rewrite HV. right. right. left. reflexivity.
  - reflexivity.
  - intros u Hu Hd. rewrite HV in Hu.
    destruct Hu as [<-|[<-|[<-|[]]]]; simpl in *;
      first [discriminate Hd | lia].
  - exact Hw.
Defined.

(** ** Entries a successful walk leaves out *)


(** ** Release of resources *)

(** C3. The claim fails on the early [return 0] of line 229: the root
    [/t/a] is a regular file and the callback accepts it; [b_find] returns 0
    and has neither destroyed the stack nor released either canonicalized
    string. *)
Theorem early_return_skips_cleanup :
  let r := @b_find env_t 20 accept_all "/t/a" "/t/a" 0 (@state0 env_t 0) in
  fst r = Returned 0 /\
  st_log (snd r) = [EvCallback "/t/a" "/t/a" (reg_stat 2) 1] /\
  occurrences EvStackDestroy (st_log (snd r)) = 0 /\
  occurrences (EvStringFree CleanPath) (st_log (snd r)) = 0 /\
  occurrences (EvStringFree CleanMemberName) (st_log (snd r)) = 0.
Proof. vm_compute. repeat split. Qed.

(** The sibling exit, where the callback returns 0 on the same root, does
    release all three. *)
Lemma root_skip_runs_cleanup :
  let r := @b_find env_t 20 skip_all "/t/a" "/t/a" 0 (@state0 env_t 0) in
  fst r = Returned 0 /\
  occurrences EvStackDestroy (st_log (snd r)) = 1 /\
  occurrences (EvStringFree CleanPath) (st_log (snd r)) = 1 /\
  occurrences (EvStringFree CleanMemberName) (st_log (snd r)) = 1.
Proof. vm_compute. repeat split. Qed.

(** Whatever the environment: a root that is not a directory and that the
    callback accepts makes [b_find] return 0 right after the invocation. *)
Lemma early_return_in_general {E : Env} (callback : b_find_callback)
    (path member_name clean_path clean_member_name : string) (flags : Z)
    (fuel : nat) (s : state) (st : stat) :
  b_path_clean path = Some clean_path ->
  b_path_clean member_name = Some clean_member_name ->
  alloc_ok (st_brk s) = true ->
  statfn flags clean_path = inr st ->
  S_ISDIR st = false ->
  (0 < fst (callback (st_builder s) clean_path clean_member_name st))%Z ->
  b_find fuel callback path member_name flags s
  = (Returned 0,
     snd (invoke callback clean_path clean_member_name st (bump s))).
Proof.
  intros Hcp Hcm Hal Hst Hdir Hpos. unfold b_find. rewrite Hcp, Hcm.
  unfold b_stack_new, bind, ret, malloc. rewrite Hal.
  unfold b_stat. rewrite Hst. unfold invoke. cbn [st_builder bump].
  destruct (callback (st_builder s) clean_path clean_member_name st)
    as [res b]. cbn [fst snd] in *.
  replace (res =? 0)%Z with false by (symmetry; apply Z.eqb_neq; lia).
  replace (res <? 0)%Z with false by (symmetry; apply Z.ltb_ge; lia).
  rewrite Hdir. reflexivity.
Qed.

(** C2. The claim fails on the abort out of the loop: the callback accepts
    [/t], [/t/a] and [/t/b] and fails on [/t/b/c] with no accumulator. Both
    frames were pushed once; the frame of [/t/b] is destroyed once, by
    [b_stack_destroy], but the root frame is destroyed by
    [b_dir_destroy(dir)] at [error_cleanup] and once more by
    [b_stack_destroy], so that what the call returns is not defined. *)
Theorem abort_destroys_root_frame_twice :
  let r := @b_find env_t 20 (fail_at "/t/b/c") "/t" "/t" 0 (@state0 env_t 0) in
  fst r = Undefined /\
  occurrences (EvStackPush 1) (st_log (snd r)) = 1 /\
  occurrences (EvDirDestroy 1) (st_log (snd r)) = 2 /\
  occurrences (EvStackPush 28) (st_log (snd r)) = 1 /\
  occurrences (EvDirDestroy 28) (st_log (snd r)) = 1.
Proof. vm_compute. repeat split. Qed.

Section AbortFromLoop.

Context {E : Env}.

Lemma log_destroy_all (dirs : b_stack) (s : state) :
  st_log (fold_left (fun s' d => b_dir_destroy d s') dirs s)
  = st_log s ++ map (fun d => EvDirDestroy (dir_addr d)) dirs.
Proof.
  revert s. induction dirs as [|d dirs IH]; intros s; simpl.
  - rewrite app_nil_r. reflexivity.
  - rewrite IH. unfold b_dir_destroy, emit. simpl.
    rewrite <- app_assoc. reflexivity.
Qed.

Lemma occurrences_app (ev : event) (L1 L2 : list event) :
  occurrences ev (L1 ++ L2) = occurrences ev L1 + occurrences ev L2.
Proof. unfold occurrences. rewrite filter_app, length_app. reflexivity. Qed.

Lemma occurrences_destroy_in (d : b_dir) (dirs : b_stack) :
  In d dirs ->
  1 <= occurrences (EvDirDestroy (dir_addr d))
         (map (fun d' => EvDirDestroy (dir_addr d')) dirs).
Proof.
  induction dirs as [|d' dirs IH]; intros Hin; [destruct Hin|].
  unfold occurrences in *. simpl.
  destruct Hin as [->|Hin].
  - rewrite Nat.eqb_refl. simpl. lia.
  - specialize (IH Hin).
    destruct (Nat.eqb (dir_addr d) (dir_addr d')); simpl; lia.
Qed.

(** Leaving through [error_cleanup] destroys the frame [dir] points to and
    then every frame still on the stack. *)
Lemma error_cleanup_log (dir : b_dir) (dirs : b_stack) (s : state) :
  st_log (error_cleanup dir dirs s)
  = st_log s ++ [EvDirDestroy (dir_addr dir)]
    ++ map (fun d => EvDirDestroy (dir_addr d)) dirs
    ++ [EvStackDestroy; EvStringFree CleanMemberName; EvStringFree CleanPath].
Proof.
  unfold error_cleanup, error_dir_open, b_string_free, b_stack_destroy, emit.
  cbn [st_log]. rewrite log_destroy_all. unfold b_dir_destroy, emit.
  cbn [st_log]. rewrite <- !app_assoc. reflexivity.
Qed.

(** A turn of the loop never touches the frames below the top one, and it
    only asks for [error_cleanup] with the top frame still in place. *)
Lemma iter_keeps_bottom (callback : b_find_callback) (cp cm : string)
    (flags : Z) (cwd : b_dir) (rest : b_stack) (s : state) (dflt : b_dir) :
  match b_find_iter callback cp cm flags cwd rest s with
  | Continue dirs' _ =>
    dirs' = [] \/
    dir_addr (last dirs' dflt) = dir_addr (last (cwd :: rest) dflt)
  | ErrorCleanup dirs' _ =>
    dirs' <> [] /\
    dir_addr (last dirs' dflt) = dir_addr (last (cwd :: rest) dflt)
  end.
Proof.
  assert (Hlast : forall cwd', dir_addr cwd' = dir_addr cwd ->
            dir_addr (last (cwd' :: rest) dflt)
            = dir_addr (last (cwd :: rest) dflt)).
  { intros cwd' Ha. destruct rest; simpl; [exact Ha|reflexivity]. }
  unfold b_find_iter.
  destruct (b_dir_read_silent cwd flags s) as [_ Haddr].
  destruct (b_dir_read cwd flags s) as [[oi cwd'] s1]. cbn [fst snd] in Haddr.
  specialize (Hlast cwd' Haddr).
  destruct oi as [item|]; cbn [b_stack_pop].
  2:{ destruct rest as [|f rest']; [left; reflexivity|right; reflexivity]. }
  destruct (is_dot (item_name item)); [right; exact Hlast|].
  destruct (subst_member_name cp cm (item_path item) s1) as [nm s2].
  destruct (invoke callback (item_path item) _ (item_st item) s2)
    as [res s3].
  destruct (res =? 0)%Z; [right; exact Hlast|].
  destruct (res <? 0)%Z.
  { destruct (err_present
              && negb (b_error_fatal (builder_err (st_builder s3))));
      [right; exact Hlast|split; [discriminate|exact Hlast]]. }
  destruct (S_ISDIR (item_st item)); [|right; exact Hlast].
  destruct (b_dir_open (item_path item) s3) as [[newdir|] s4].
  - unfold b_stack_push, bind, malloc.
    destruct (alloc_ok (st_brk s4)).
    + right. exact Hlast.
    + split; [discriminate|exact Hlast].
  - match goal with
    | |- context [(st_errno ?s5 =? EACCES)%Z] =>
      destruct (st_errno s5 =? EACCES)%Z;
        [right; exact Hlast|split; [discriminate|exact Hlast]]
    end.
Qed.

(** Whenever the loop, started with the root frame at the bottom of the
    stack, ends otherwise than by returning 0, it has left through
    [error_cleanup] with the root frame still on the stack: the root frame
    is destroyed at least twice and the outcome is not defined. *)
Lemma loop_abort_destroys_root_twice (callback : b_find_callback)
    (cp cm : string) (flags : Z) (dir : b_dir) :
  forall fuel dirs (s : state),
    dir_addr (last dirs dir) = dir_addr dir ->
    fst (b_find_loop fuel callback cp cm flags dir dirs s) <> Returned 0 ->
    fst (b_find_loop fuel callback cp cm flags dir dirs s) <> OutOfFuel ->
    fst (b_find_loop fuel callback cp cm flags dir dirs s) = Undefined /\
    2 + occurrences (EvDirDestroy (dir_addr dir)) (st_log s)
    <= occurrences (EvDirDestroy (dir_addr dir))
         (st_log (snd (b_find_loop fuel callback cp cm flags dir dirs s))).
Proof.
  induction fuel as [|fuel IH]; intros dirs s Hbot Hres Hfuel;
    [destruct Hfuel; reflexivity|].
  cbn [b_find_loop] in *.
  destruct dirs as [|cwd rest]; cbn [b_stack_top hd_error tl] in *;
    [destruct Hres; reflexivity|].
  pose proof (iter_keeps_bottom callback cp cm flags cwd rest s dir) as Hk.
  assert (Hmono : forall r, r = b_find_iter callback cp cm flags cwd rest s ->
            occurrences (EvDirDestroy (dir_addr dir)) (st_log s)
            <= occurrences (EvDirDestroy (dir_addr dir))
                 (st_log (iter_state r))).
  { intros r ->. clear. unfold b_find_iter.
    destruct (b_dir_read_silent cwd flags s) as [Hlog _].
    destruct (b_dir_read cwd flags s) as [[oi cwd'] s1]. cbn [fst snd] in Hlog.
    rewrite <- Hlog.
    assert (Hemit : forall ev (s' : state),
              occurrences (EvDirDestroy (dir_addr dir)) (st_log s')
              <= occurrences (EvDirDestroy (dir_addr dir))
                   (st_log (emit ev s'))).
    { intros ev s'. unfold emit. cbn [st_log]. rewrite occurrences_app. lia. }
    destruct oi as [item|]; cbn [b_stack_pop iter_state];
      [|apply Hemit].
    destruct (is_dot (item_name item)); cbn [iter_state]; [apply Hemit|].
    assert (Hsub : forall p m c (s' : state),
              st_log (snd (subst_member_name p m c s')) = st_log s').
    { intros p m c s'. unfold subst_member_name, bind, b_string_dup,
        b_string_append_str, bind, ret, malloc.
      destruct (negb (p =? m)%string); [|reflexivity].
      destruct (alloc_ok (st_brk s')); [|reflexivity]. cbn [st_brk bump].
      destruct (alloc_ok (S (st_brk s'))); reflexivity. }
    specialize (Hsub cp cm (item_path item) s1).
    destruct (subst_member_name cp cm (item_path item) s1) as [nm s2].
    cbn [snd] in Hsub. rewrite <- Hsub.
    assert (Hinv : forall p m st (s' : state),
              occurrences (EvDirDestroy (dir_addr dir)) (st_log s')
              <= occurrences (EvDirDestroy (dir_addr dir))
                   (st_log (snd (invoke callback p m st s')))).
    { intros p m st s'. unfold invoke.
      destruct (callback (st_builder s') p m st). cbn [snd].
      apply (Hemit _ (set_builder b s')). }
    match goal with
    | |- context [invoke callback ?p ?m ?st s2] =>
      specialize (Hinv p m st s2);
        destruct (invoke callback p m st s2) as [res s3]
    end.
    cbn [snd] in Hinv.
    assert (Hfree : forall (s' : state),
              occurrences (EvDirDestroy (dir_addr dir)) (st_log s3)
              <= occurrences (EvDirDestroy (dir_addr dir)) (st_log s') ->
              occurrences (EvDirDestroy (dir_addr dir)) (st_log s2)
              <= occurrences (EvDirDestroy (dir_addr dir))
                   (st_log (b_dir_item_free item s'))).
    { intros s' Hs'. pose proof (Hemit (EvItemFree (item_addr item)) s').
      unfold b_dir_item_free. lia. }
    destruct (res =? 0)%Z; cbn [iter_state]; [apply Hfree; lia|].
    destruct (res <? 0)%Z.
    { destruct (err_present
                && negb (b_error_fatal (builder_err (st_builder s3))));
        cbn [iter_state]; apply Hfree; lia. }
    destruct (S_ISDIR (item_st item)); cbn [iter_state]; [|apply Hfree; lia].
    assert (Hopen : occurrences (EvDirDestroy (dir_addr dir)) (st_log s3)
                    <= occurrences (EvDirDestroy (dir_addr dir))
                         (st_log (snd (b_dir_open (item_path item) s3)))).
    { unfold b_dir_open, bind, malloc, opendir, b_string_dup, bind, ret,
        malloc.
      destruct (alloc_ok (st_brk s3)); simpl; [|lia].
      destruct (sys_opendir (item_path item)); simpl; [lia|].
      destruct (alloc_ok (S (st_brk s3))); simpl; [|lia].
      rewrite occurrences_app. lia. }
    destruct (b_dir_open (item_path item) s3) as [[newdir|] s4];
      cbn [snd] in Hopen.
    - unfold b_stack_push, bind, malloc.
      destruct (alloc_ok (st_brk s4)); cbn [iter_state].
      + apply Hfree. pose proof (Hemit (EvStackPush (dir_addr newdir))
                                   (bump s4)). cbn [st_log bump] in *. lia.
      + pose proof (Hemit (EvDirDestroy (dir_addr newdir))
                      (set_errno ENOMEM (bump s4))).
        unfold b_dir_destroy. cbn [st_log bump set_errno] in *. lia.
    - match goal with
      | |- context [(st_errno ?s5 =? EACCES)%Z] =>
        assert (H5 : occurrences (EvDirDestroy (dir_addr dir)) (st_log s4)
                     <= occurrences (EvDirDestroy (dir_addr dir)) (st_log s5))
          by (destruct err_present;
              [unfold b_error_set;
               match goal with
               | |- context [emit ?ev ?s'] =>
                 pose proof (Hemit ev s') as He;
                 cbn [st_log set_builder] in He; exact He
               end
              |lia]);
          destruct (st_errno s5 =? EACCES)%Z; cbn [iter_state];
          apply Hfree; lia
      end. }
  specialize (Hmono _ eq_refl).
  destruct (b_find_iter callback cp cm flags cwd rest s) as [dirs' s'|dirs' s'];
    cbn [iter_state] in Hmono.
  - destruct Hk as [->|Hk].
    + exfalso.
      destruct fuel; cbn [b_find_loop b_stack_top hd_error fst] in *;
        [apply Hfuel|apply Hres]; reflexivity.
    + destruct (IH dirs' s' ltac:(congruence) Hres Hfuel) as [Hund Hocc].
      split; [exact Hund|lia].
  - cbn [fst snd]. destruct Hk as [Hne Hk].
    assert (Hin : In (last dirs' dir) dirs').
    { destruct dirs' as [|d0 ds]; [congruence|].
      destruct (exists_last (l := d0 :: ds) ltac:(discriminate))
        as (pre & x & Hx).
      rewrite Hx, last_last. apply in_or_app. right. left. reflexivity. }
    split.
    { unfold error_cleanup_result, destroyed_again.
      replace (existsb (fun d => Nat.eqb (dir_addr d) (dir_addr dir)) dirs')
        with true; [reflexivity|].
      symmetry. apply existsb_exists. exists (last dirs' dir).
      split; [exact Hin|]. apply Nat.eqb_eq. congruence. }
    rewrite error_cleanup_log, !occurrences_app.
    pose proof (occurrences_destroy_in _ _ Hin) as Hone.
    replace (dir_addr (last dirs' dir)) with (dir_addr dir) in Hone
      by congruence.
    assert (Hself : occurrences (EvDirDestroy (dir_addr dir))
                      [EvDirDestroy (dir_addr dir)] = 1).
    { unfold occurrences. simpl. rewrite Nat.eqb_refl. reflexivity. }
    lia.
Qed.

End AbortFromLoop.

(** On the clean run over the same tree both frames are destroyed once. *)
Lemma clean_run_destroys_frames_once :
  let r := @b_find env_t 20 accept_all "/t" "/t" 0 (@state0 env_t 0) in
  fst r = Returned 0 /\
  occurrences (EvStackPush 1) (st_log (snd r)) = 1 /\
  occurrences (EvDirDestroy 1) (st_log (snd r)) = 1 /\
  occurrences (EvStackPush 28) (st_log (snd r)) = 1 /\
  occurrences (EvDirDestroy 28) (st_log (snd r)) = 1.
Proof. vm_compute. repeat split. Qed.

(** ** The scenarios of the specification, run on the model *)

(** Scenario 4: a subdirectory that may not be opened is reported as a
    warning and passed over; the walk goes on and succeeds. *)
Lemma scenario_permission_denied :
  let r := @b_find env_p 20 accept_all "/p" "/p" 0 (@state0 env_p 0) in
  fst r = Returned 0 /\
  map v_disk (visits (st_log (snd r))) = ["/p"; "/p/locked"; "/p/z"] /\
  builder_err (st_builder (snd r))
  = mk_error B_ERROR_WARN EACCES "Unable to open directory" "/p/locked".
Proof. vm_compute. repeat split. Qed.

(** Scenario 5: a root that does not exist. *)
Lemma scenario_missing_root :
  let r := @b_find env_t 20 accept_all "/nope" "/nope" 0 (@state0 env_t 0) in
  fst r = Returned (-1) /\ visits (st_log (snd r)) = [].
Proof. vm_compute. repeat split. Qed.

(** Scenario 6: a fatal error on [/t/a] ends the walk; nothing is surfaced
    after it. The walk ends through [error_cleanup] with the root frame on
    the stack. *)
Lemma scenario_fatal_error :
  let r := @b_find env_t_err 20 (fail_fatally_at "/t/a") "/t" "/t" 0
             (@state0 env_t_err 0) in
  fst r = Undefined /\
  map v_disk (visits (st_log (snd r))) = ["/t"; "/t/a"].
Proof. vm_compute. repeat split. Qed.

(** The same error left non-fatal is passed over: the walk reaches the
    entries after [/t/a] and succeeds. *)
Lemma scenario_nonfatal_error :
  let r := @b_find env_t_err 20 (fail_at "/t/a") "/t" "/t" 0
             (@state0 env_t_err 0) in
  fst r = Returned 0 /\
  map v_disk (visits (st_log (snd r)))
  = ["/t"; "/t/a"; "/t/b"; "/t/b/c"; "/t/b/d"].
Proof. vm_compute. repeat split. Qed.

(** * Further properties of the walker *)

(** ** What the paths handed to the callback look like *)

Section SurfacedPaths.

Context {E : Env}.

Lemma dir_join_extends (cp s n : string) :
  exists s', dir_join (cp ++ s) n = (cp ++ s')%string.
Proof.
  unfold dir_join. destruct ((cp ++ s) =? "/")%string.
  - exists (s ++ n)%string. rewrite append_assoc'. reflexivity.
  - exists (s ++ "/" ++ n)%string. rewrite !append_assoc'. reflexivity.
Qed.

Lemma hd_error_app_keep {A} (V : list A) (v x : A) :
  hd_error V = Some x -> hd_error (V ++ [v]) = Some x.
Proof. destruct V; simpl; [discriminate|auto]. Qed.

Lemma tl_app_keep {A} (V : list A) (v : A) :
  V <> [] -> tl (V ++ [v]) = tl V ++ [v].
Proof. destruct V; simpl; [congruence|reflexivity]. Qed.

(** X1. Every path handed to the callback after the root extends the
    canonicalized starting path, byte for byte: the pointer
    [current->str + len(path)] that [subst_member_name] forms stays inside
    the string. The logical path of such an entry is its disk path, or the
    member name followed by exactly what the disk path adds to the starting
    path. *)
Theorem surfaced_paths_extend_the_root (fuel : nat)
    (callback : b_find_callback)
    (path member_name clean_path clean_member_name : string) (flags : Z)
    (s : state) :
  b_path_clean path = Some clean_path ->
  b_path_clean member_name = Some clean_member_name ->
  visits (st_log s) = [] ->
  Forall (fun v =>
            exists suffix,
              v_disk v = (clean_path ++ suffix)%string /\
              String.length clean_path <= String.length (v_disk v) /\
              (v_logical v = v_disk v \/
               clean_path <> clean_member_name /\
               v_logical v = (clean_member_name ++ suffix)%string))
    (tl (visits (st_log (snd
       (b_find fuel callback path member_name flags s))))).
Proof.
  intros Hcp Hcm Hempty.
  set (shape := fun v =>
         exists suffix,
           v_disk v = (clean_path ++ suffix)%string /\
           String.length clean_path <= String.length (v_disk v) /\
           (v_logical v = v_disk v \/
            clean_path <> clean_member_name /\
            v_logical v = (clean_member_name ++ suffix)%string)).
  destruct (b_find_invariant
              (fun dirs V =>
                 V <> [] /\ Forall shape (tl V) /\
                 Forall (fun f => exists sfx,
                           dir_path f = (clean_path ++ sfx)%string) dirs)
              callback path member_name clean_path clean_member_name
              flags fuel s Hcp Hcm Hempty)
    as [Hnil|[(st & r & _ & Hone)|[dirs (_ & Hall & _)]]].
  - intros dir st r _ _ _ Hdp _. split; [discriminate|].
    split; [constructor|]. constructor; [|constructor].
    exists "". rewrite Hdp. clear. induction clean_path; simpl; congruence.
  - intros cwd rest V dirs' V' (Hne & Hall & Hfr) Hstep.
    inversion Hfr as [|f fs [sfx Hsfx] Hrest]; subst.
    assert (Hnew : forall n m st r,
              (m = dir_join (dir_path cwd) n \/
               clean_path <> clean_member_name /\
               m = (clean_member_name
                    ++ str_from (String.length clean_path)
                         (dir_join (dir_path cwd) n))%string) ->
              shape (mk_visit (dir_join (dir_path cwd) n) m st r)).
    { intros n m st r Hm. rewrite Hsfx in *.
      destruct (dir_join_extends clean_path sfx n) as [s' Hs'].
      exists s'. simpl. rewrite Hs' in *. split; [reflexivity|].
      split; [rewrite length_append'; lia|].
      destruct Hm as [Hm|[Hd Hm]]; [left; exact Hm|right].
      split; [exact Hd|]. rewrite Hm, str_from_app. reflexivity. }
    destruct Hstep as [|e dp' Hdp|n dp' m st r Hdp Hdot Hst Hm
                       |n dp' m st r nd Hdp Hdot Hst Hm Hr Hdir Hndp Hop].
    + split; [exact Hne|]. split; [exact Hall|exact Hrest].
    + split; [exact Hne|]. split; [exact Hall|].
      constructor; [exists sfx; exact Hsfx|exact Hrest].
    + split; [destruct V; discriminate|].
      split.
      * rewrite tl_app_keep by exact Hne. apply Forall_app.
        split; [exact Hall|]. constructor; [apply Hnew, Hm|constructor].
      * constructor; [exists sfx; exact Hsfx|exact Hrest].
    + split; [destruct V; discriminate|].
      split.
      * rewrite tl_app_keep by exact Hne. apply Forall_app.
        split; [exact Hall|]. constructor; [apply Hnew, Hm|constructor].
      * constructor.
        -- rewrite Hndp, Hsfx.
           destruct (dir_join_extends clean_path sfx n) as [s' Hs'].
           exists s'. exact Hs'.
        -- constructor; [exists sfx; exact Hsfx|exact Hrest].
  - rewrite Hnil. constructor.
  - rewrite Hone. constructor.
  - exact Hall.
Qed.

(** X2. With entry names as a file system hands them out, no path handed
    to the callback after the root ends in [/.] or [/..]. *)
Theorem dot_entries_never_surfaced (fuel : nat)
    (callback : b_find_callback)
    (path member_name clean_path clean_member_name : string) (flags : Z)
    (s : state) :
  b_path_clean path = Some clean_path ->
  b_path_clean member_name = Some clean_member_name ->
  visits (st_log s) = [] ->
  (forall p dp n, sys_opendir p = inr dp -> In (Dirent n) dp ->
                  name_ok n = true) ->
  Forall (fun v => forall b,
            v_disk v <> (b ++ "/.")%string /\
            v_disk v <> (b ++ "/..")%string)
    (tl (visits (st_log (snd
       (b_find fuel callback path member_name flags s))))).
Proof.
  intros Hcp Hcm Hempty Hnames.
  set (clean := fun v : visit => forall b,
         v_disk v <> (b ++ "/.")%string /\
         v_disk v <> (b ++ "/..")%string).
  assert (Hjoin : forall q n st m r,
            name_ok n = true -> is_dot n = false ->
            clean (mk_visit (dir_join q n) m st r)).
  { intros q n st m r Hn Hdot b. simpl.
    destruct (dir_join_split q n) as (a & Ha & _). rewrite Ha.
    apply name_ok_parts in Hn. destruct Hn as [_ Hns].
    unfold is_dot in Hdot. apply orb_false_iff in Hdot.
    destruct Hdot as [Hd1 Hd2].
    apply String.eqb_neq in Hd1. apply String.eqb_neq in Hd2.
    split; intros Heq.
    - destruct (last_slash_unique a b n "." Hns eq_refl Heq) as [_ Hn].
      congruence.
    - destruct (last_slash_unique a b n ".." Hns eq_refl Heq) as [_ Hn].
      congruence. }
  destruct (b_find_invariant
              (fun dirs V =>
                 V <> [] /\ Forall clean (tl V) /\
                 Forall (fun f => forall n, In (Dirent n) (dir_dp f) ->
                                            name_ok n = true) dirs)
              callback path member_name clean_path clean_member_name
              flags fuel s Hcp Hcm Hempty)
    as [Hnil|[(st & r & _ & Hone)|[dirs (_ & Hall & _)]]].
  - intros dir st r _ _ _ _ Hop. split; [discriminate|].
    split; [constructor|]. constructor; [|constructor].
    intros n Hn. eapply Hnames; eassumption.
  - intros cwd rest V dirs' V' (Hne & Hall & Hfr) Hstep.
    inversion Hfr as [|f fs Hcwd Hrest]; subst.
    destruct Hstep as [|e dp' Hdp|n dp' m st r Hdp Hdot Hst Hm
                       |n dp' m st r nd Hdp Hdot Hst Hm Hr Hdir Hndp Hop].
    + split; [exact Hne|]. split; [exact Hall|exact Hrest].
    + split; [exact Hne|]. split; [exact Hall|].
      constructor; [|exact Hrest]. simpl. intros n Hn. apply Hcwd.
      rewrite Hdp. right. exact Hn.
    + assert (Hn : name_ok n = true)
        by (apply Hcwd; rewrite Hdp; left; reflexivity).
      split; [destruct V; discriminate|]. split.
      * rewrite tl_app_keep by exact Hne. apply Forall_app.
        split; [exact Hall|].
        constructor; [apply Hjoin; assumption|constructor].
      * constructor; [|exact Hrest]. simpl. intros n0 Hn0. apply Hcwd.
        rewrite Hdp. right. exact Hn0.
    + assert (Hn : name_ok n = true)
        by (apply Hcwd; rewrite Hdp; left; reflexivity).
      split; [destruct V; discriminate|]. split.
      * rewrite tl_app_keep by exact Hne. apply Forall_app.
        split; [exact Hall|].
        constructor; [apply Hjoin; assumption|constructor].
      * constructor; [intros n0 Hn0; eapply Hnames; eassumption|].
        constructor; [|exact Hrest]. simpl. intros n0 Hn0. apply Hcwd.
        rewrite Hdp. right. exact Hn0.
  - rewrite Hnil. constructor.
  - rewrite Hone. constructor.
  - exact Hall.
Qed.

End SurfacedPaths.

(** ** Setup *)

Section Setup.

Context {E : Env}.

(** X3. The callback is invoked exactly when the setup succeeds. If both
    canonicalizations, the allocation of the stack and the stat of the root
    succeed, the first invocation is for the root, with the builder as the
    caller passed it; if one of them fails, [b_find] returns -1 and the
    callback is never invoked. *)
Theorem callback_invoked_iff_setup_succeeds (fuel : nat)
    (callback : b_find_callback) (path member_name : string) (flags : Z)
    (s : state) :
  visits (st_log s) = [] ->
  (forall cp cm st,
     b_path_clean path = Some cp ->
     b_path_clean member_name = Some cm ->
     alloc_ok (st_brk s) = true ->
     statfn flags cp = inr st ->
     hd_error (visits (st_log (snd
       (b_find fuel callback path member_name flags s))))
     = Some (mk_visit cp cm st (fst (callback (st_builder s) cp cm st)))) /\
  (b_path_clean path = None \/
   b_path_clean member_name = None \/
   alloc_ok (st_brk s) = false \/
   (exists cp e, b_path_clean path = Some cp /\ statfn flags cp = inl e) ->
   b_find fuel callback path member_name flags s
   = (Returned (-1),
      snd (b_find fuel callback path member_name flags s)) /\
   visits (st_log (snd (b_find fuel callback path member_name flags s)))
   = []).
Proof.
  intros Hempty. split.
  - intros cp cm st Hcp Hcm Hal Hst. unfold b_find. rewrite Hcp, Hcm.
    unfold b_stack_new, bind, ret, malloc. rewrite Hal.
    unfold b_stat. rewrite Hst.
    pose proof (visits_invoke callback cp cm st (bump s)) as Hv3.
    assert (Hres : fst (invoke callback cp cm st (bump s))
                   = fst (callback (st_builder s) cp cm st)).
    { unfold invoke. cbn [st_builder bump].
      destruct (callback (st_builder s) cp cm st); reflexivity. }
    rewrite Hres in Hv3. clear Hres.
    destruct (invoke callback cp cm st (bump s)) as [res s3].
    cbn [fst snd st_log bump] in Hv3. rewrite Hempty in Hv3. simpl in Hv3.
    set (root := mk_visit cp cm st (fst (callback (st_builder s) cp cm st)))
      in *.
    assert (Hkeep : forall s', visits (st_log s') = visits (st_log s3) ->
              hd_error (visits (st_log s')) = Some root).
    { intros s' Hs'. rewrite Hs', Hv3. reflexivity. }
    destruct (res =? 0)%Z; [apply Hkeep, visits_cleanup|].
    destruct (res <? 0)%Z; [apply Hkeep, visits_error_dir_open|].
    destruct (negb (S_ISDIR st)); [apply Hkeep; reflexivity|].
    destruct (quiet_b_dir_open cp s3) as (Hv4 & _ & _).
    destruct (b_dir_open cp s3) as [[dir|] s4]; cbn [fst snd] in *.
    2:{ apply Hkeep. rewrite visits_error_dir_open.
        destruct err_present; rewrite ?visits_b_error_set; exact Hv4. }
    destruct (quiet_b_stack_push [] dir s4) as (Hv5 & _ & _).
    destruct (b_stack_push [] dir s4) as [[dirs'|] s5]; cbn [fst snd] in *.
    2:{ apply Hkeep. rewrite visits_error_cleanup. congruence. }
    destruct (loop_invariant (fun _ V => hd_error V = Some root)
                callback cp cm flags) with (fuel := fuel) (dir := dir)
      (dirs := dirs') (s := s5) as [_ Hhd].
    + intros cwd rest V ds' V' HV Hstep.
      destruct Hstep; try exact HV; apply hd_error_app_keep, HV.
    + apply Hkeep. congruence.
    + exact Hhd.
  - intros Hfail. unfold b_find.
    destruct (b_path_clean path) as [cp|] eqn:Hcp;
      [|split; [reflexivity|exact Hempty]].
    destruct (b_path_clean member_name) as [cm|] eqn:Hcm.
    2:{ split; [reflexivity|]. cbn [snd]. unfold b_string_free.
        rewrite visits_emit_quiet by reflexivity. exact Hempty. }
    unfold b_stack_new, bind, ret, malloc.
    destruct (alloc_ok (st_brk s)) eqn:Hal.
    2:{ split; [reflexivity|]. cbn [snd]. unfold b_string_free.
        rewrite !visits_emit_quiet by reflexivity. exact Hempty. }
    destruct Hfail as [H|[H|[H|(cp' & e & Hcp' & Hst)]]]; try discriminate.
    inversion Hcp'. subst cp'. unfold b_stat. rewrite Hst.
    split; [reflexivity|]. cbn [snd]. rewrite visits_error_dir_open.
    exact Hempty.
Qed.

End Setup.

Lemma callback_invoked_iff_setup_succeeds_witness :
  hd_error (visits (st_log (snd (@b_find env_t 20 skip_all "/t" "pkg" 0
                                   (@state0 env_t 0)))))
  = Some (mk_visit "/t" "pkg" (dir_stat 1) 0) /\
  visits (st_log (snd (@b_find env_t 20 skip_all "/nope" "pkg" 0
                         (@state0 env_t 0)))) = [].
Proof.
  split.
  - exact (proj1 (@callback_invoked_iff_setup_succeeds env_t 20 skip_all
                    "/t" "pkg" 0%Z (@state0 env_t 0) eq_refl)
             "/t" "pkg" (dir_stat 1) eq_refl eq_refl eq_refl eq_refl).
  - refine (proj2 (proj2 (@callback_invoked_iff_setup_succeeds env_t 20
                            skip_all "/nope" "pkg" 0%Z (@state0 env_t 0)
                            eq_refl) _)).
    right. right. right. exists "/nope", ENOENT. split; reflexivity.
Defined.

(** ** Runs that cannot fail *)

Section NoSpuriousFailure.

Context {E : Env}.
Variable callback : b_find_callback.
Variables clean_path clean_member_name : string.
Variable flags : Z.

Hypothesis alloc_never_fails : forall n, alloc_ok n = true.
Hypothesis callback_never_fails : never_negative callback.
Hypothesis open_fails_with_eacces :
  forall p e, sys_opendir p = inl e -> e = EACCES.

Lemma iter_always_continues (cwd : b_dir) (rest : b_stack) (s : state) :
  exists dirs' s',
    b_find_iter callback clean_path clean_member_name flags cwd rest s
    = Continue dirs' s'.
Proof.
  unfold b_find_iter.
  destruct (b_dir_read cwd flags s) as [[[item|] cwd'] s1];
    [|cbn [b_stack_pop]; eexists _, _; reflexivity].
  destruct (is_dot (item_name item)); [eexists _, _; reflexivity|].
  destruct (subst_member_name clean_path clean_member_name
              (item_path item) s1) as [nm s2].
  unfold invoke.
  match goal with
  | |- context [callback ?b ?p ?m ?st] =>
    pose proof (callback_never_fails b p m st) as Hres;
      destruct (callback b p m st) as [res b']
  end.
  cbn [fst] in Hres.
  destruct (res =? 0)%Z; [eexists _, _; reflexivity|].
  replace (res <? 0)%Z with false by (symmetry; apply Z.ltb_ge; lia).
  destruct (S_ISDIR (item_st item)); [|eexists _, _; reflexivity].
  unfold b_dir_open, bind, opendir, b_string_dup, bind, ret.
  rewrite (malloc_succeeds alloc_never_fails).
  destruct (sys_opendir (item_path item)) as [e|dp] eqn:Hop.
  - rewrite (open_fails_with_eacces _ _ Hop).
    destruct err_present; cbn [st_errno b_error_set emit set_builder set_errno];
      rewrite Z.eqb_refl; eexists _, _; reflexivity.
  - rewrite (malloc_succeeds alloc_never_fails).
    unfold b_stack_push, bind. rewrite (malloc_succeeds alloc_never_fails).
    eexists _, _. reflexivity.
Qed.

Lemma loop_never_aborts (fuel : nat) :
  forall dir dirs (s : state),
    fst (b_find_loop fuel callback clean_path clean_member_name flags
           dir dirs s) = Returned 0 \/
    fst (b_find_loop fuel callback clean_path clean_member_name flags
           dir dirs s) = OutOfFuel.
Proof.
  induction fuel as [|fuel IH]; intros dir dirs s; [right; reflexivity|].
  cbn [b_find_loop]. destruct (b_stack_top dirs) as [cwd|];
    [|left; reflexivity].
  destruct (iter_always_continues cwd (tl dirs) s) as (dirs' & s' & Hit).
  rewrite Hit. apply IH.
Qed.

(** X4. When no allocation fails, the callback never returns a negative
    value, directories fail to open only for want of permission, and the
    root can be stat'ed and, if it is a directory, opened, [b_find] never
    returns -1: entries that cannot be read or stat'ed and directories that
    may not be opened do not make the walk fail. *)
Theorem b_find_fails_only_for_a_reason (fuel : nat)
    (path member_name : string) (s : state) (st : stat) :
  b_path_clean path = Some clean_path ->
  b_path_clean member_name = Some clean_member_name ->
  statfn flags clean_path = inr st ->
  (S_ISDIR st = true -> exists dp, sys_opendir clean_path = inr dp) ->
  fst (b_find fuel callback path member_name flags s) = Returned 0 \/
  fst (b_find fuel callback path member_name flags s) = OutOfFuel.
Proof.
  intros Hcp Hcm Hst Hroot. unfold b_find. rewrite Hcp, Hcm.
  unfold b_stack_new, bind, ret. rewrite (malloc_succeeds alloc_never_fails).
  unfold b_stat. rewrite Hst. unfold invoke. cbn [st_builder bump].
  pose proof (callback_never_fails (st_builder s) clean_path
                clean_member_name st) as Hres.
  destruct (callback (st_builder s) clean_path clean_member_name st)
    as [res b']. cbn [fst] in Hres.
  destruct (res =? 0)%Z; [left; reflexivity|].
  replace (res <? 0)%Z with false by (symmetry; apply Z.ltb_ge; lia).
  destruct (S_ISDIR st); cbn [negb]; [|left; reflexivity].
  destruct (Hroot eq_refl) as [dp Hop].
  unfold b_dir_open, bind, opendir, b_string_dup, bind, ret.
  rewrite (malloc_succeeds alloc_never_fails), Hop,
    (malloc_succeeds alloc_never_fails).
  unfold b_stack_push, bind. rewrite (malloc_succeeds alloc_never_fails).
  apply loop_never_aborts.
Qed.

End NoSpuriousFailure.

Lemma b_find_fails_only_for_a_reason_witness :
  fst (@b_find env_locked 20 accept_all "/p" "/p" 0 (@state0 env_locked 0))
  = Returned 0.
Proof.
  destruct (@b_find_fails_only_for_a_reason env_locked accept_all "/p" "/p"
              0%Z ltac:(reflexivity) ltac:(intros b p m st; simpl; lia)
              ltac:(intros p e; simpl;
                    destruct (p =? "/p")%string; congruence)
              20 "/p" "/p" (@state0 env_locked 0) (dir_stat 20)
              eq_refl eq_refl eq_refl
              ltac:(intros _; eexists; reflexivity))
    as [Hok|Hfuel].
  - exact Hok.
  - exfalso.
    assert (Hrun : fst (@b_find env_locked 20 accept_all "/p" "/p" 0
                          (@state0 env_locked 0)) <> OutOfFuel)
      by (vm_compute; discriminate).
    exact (Hrun Hfuel).
Defined.

(** ** Splicing, joining and opening *)

Section Splicing.

Context {E : Env}.

Lemma subst_member_name_run (path member_name current : string) (s : state) :
  path <> member_name ->
  alloc_ok (st_brk s) = true -> alloc_ok (S (st_brk s)) = true ->
  subst_member_name path member_name current s
  = (Some (member_name ++ str_from (String.length path) current)%string,
     bump (bump s)).
Proof.
  intros Hne Ha1 Ha2. apply String.eqb_neq in Hne.
  unfold subst_member_name. rewrite Hne. cbn [negb].
  unfold bind, b_string_dup, b_string_append_str, bind, ret, malloc,
    b_string_len.
  rewrite Ha1. cbn [st_brk bump]. rewrite Ha2. reflexivity.
Qed.

(** X5. Splicing back undoes splicing: rewriting a path under [path] to
    [member_name] and the result back to [path] gives the path again (as
    long as the four allocations succeed). *)
Theorem subst_member_name_round_trip
    (path member_name rest : string) (s s' : state) :
  path <> member_name ->
  alloc_ok (st_brk s) = true -> alloc_ok (S (st_brk s)) = true ->
  alloc_ok (st_brk s') = true -> alloc_ok (S (st_brk s')) = true ->
  exists spliced,
    fst (subst_member_name path member_name (path ++ rest)%string s)
    = Some spliced /\
    fst (subst_member_name member_name path spliced s')
    = Some (path ++ rest)%string.
Proof.
  intros Hne Ha1 Ha2 Hb1 Hb2. exists (member_name ++ rest)%string.
  rewrite (subst_member_name_run path member_name _ s Hne Ha1 Ha2).
  rewrite (subst_member_name_run member_name path _ s'
             (fun H => Hne (eq_sym H)) Hb1 Hb2).
  cbn [fst]. rewrite !str_from_app. split; reflexivity.
Qed.

(** X6. The logical path of an entry [name] read from the root frame: the
    member name, a slash and the name; but for the root [/] the member name
    is followed by the name with nothing in between, because
    [b_dir_read] adds no separator after [/] and [subst_member_name] cuts
    after [len(path)] bytes. *)
Theorem logical_path_of_root_entry
    (clean_path clean_member_name name : string) (s : state) :
  clean_path <> clean_member_name ->
  alloc_ok (st_brk s) = true -> alloc_ok (S (st_brk s)) = true ->
  fst (subst_member_name clean_path clean_member_name
         (dir_join clean_path name) s)
  = Some (if (clean_path =? "/")%string
          then (clean_member_name ++ name)%string
          else (clean_member_name ++ "/" ++ name)%string).
Proof.
  intros Hne Ha1 Ha2.
  rewrite (subst_member_name_run _ _ _ s Hne Ha1 Ha2). cbn [fst].
  unfold dir_join. destruct (clean_path =? "/")%string.
  - rewrite str_from_app. reflexivity.
  - rewrite append_assoc', str_from_app. reflexivity.
Qed.

(** X7. When [b_dir_read] returns an entry record, it is for the next name
    of the stream: the frame has moved past that name, the record's path is
    the frame's path and the name with one slash between them (none after
    [/]), its stat is the stat of that path under the symlink policy, and
    nothing was logged. Conversely, with the next name at hand, the six
    allocations granted and the stat succeeding, the record is returned. *)
Theorem b_dir_read_yields_next_entry (dir : b_dir) (flags : Z) (s : state) :
  (forall item dir' s1,
     b_dir_read dir flags s = (Some item, dir', s1) ->
     exists rest,
       dir_dp dir = Dirent (item_name item) :: rest /\
       dir' = mk_dir (dir_addr dir) rest (dir_path dir) /\
       item_path item
       = (if (dir_path dir =? "/")%string
          then ("/" ++ item_name item)%string
          else (dir_path dir ++ "/" ++ item_name item)%string) /\
       statfn flags (item_path item) = inr (item_st item) /\
       st_log s1 = st_log s) /\
  (forall n rest st,
     dir_dp dir = Dirent n :: rest ->
     (forall k, k < 6 -> alloc_ok (st_brk s + k) = true) ->
     statfn flags (dir_join (dir_path dir) n) = inr st ->
     fst (b_dir_read dir flags s)
     = (Some (mk_item (st_brk s) st (dir_join (dir_path dir) n) n),
        mk_dir (dir_addr dir) rest (dir_path dir))).
Proof.
  split.
  - intros item dir' s1 Hrd.
    destruct (b_dir_read_spec _ _ _ _ _ _ Hrd)
      as (_ & _ & dp' & Hdir' & _ & Hitem).
    destruct (Hitem item eq_refl) as (Hdp & Hpath & Hst).
    destruct (b_dir_read_silent dir flags s) as [Hlog _].
    rewrite Hrd in Hlog. cbn [snd] in Hlog.
    exists dp'. split; [exact Hdp|]. split; [exact Hdir'|].
    split; [|split; [exact Hst|exact Hlog]].
    rewrite Hpath. unfold dir_join.
    destruct (dir_path dir =? "/")%string eqn:Hs.
    + apply String.eqb_eq in Hs. rewrite Hs. reflexivity.
    + rewrite append_assoc'. reflexivity.
  - intros n rest st Hdp Hal Hst.
    assert (H0 : alloc_ok (st_brk s) = true)
      by (rewrite <- (Nat.add_0_r (st_brk s)); apply Hal; lia).
    assert (Hk : forall k, k < 6 ->
              alloc_ok (Nat.iter k S (st_brk s)) = true).
    { intros k Hlt. replace (Nat.iter k S (st_brk s)) with (st_brk s + k);
        [apply Hal, Hlt|].
      clear. induction k; simpl; [lia|]. rewrite <- IHk. lia. }
    pose proof (Hk 1 ltac:(lia)) as H1. pose proof (Hk 2 ltac:(lia)) as H2.
    pose proof (Hk 3 ltac:(lia)) as H3. pose proof (Hk 4 ltac:(lia)) as H4.
    pose proof (Hk 5 ltac:(lia)) as H5. simpl in H1, H2, H3, H4, H5.
    unfold dir_join in *.
    unfold b_dir_read, readdir, bind, b_string_dup, b_string_new,
      b_string_append_str, bind, ret, malloc, b_stat.
    rewrite Hdp. simpl. rewrite H0. simpl. rewrite H1. simpl.
    rewrite H2. simpl. rewrite H3. simpl.
    destruct (dir_path dir =? "/")%string; simpl.
    + rewrite H4. simpl. rewrite Hst. reflexivity.
    + rewrite H4. simpl. rewrite H5. simpl. rewrite Hst. reflexivity.
Qed.

(** X8. A failed [b_dir_open] leaves errno at EACCES exactly when
    [opendir] itself failed with EACCES: a directory is passed over for
    want of permission only, never because memory ran out. *)
Theorem b_dir_open_eacces_is_opendir_eacces (path : string) (s s' : state) :
  b_dir_open path s = (None, s') ->
  (st_errno s' = EACCES <->
   alloc_ok (st_brk s) = true /\ sys_opendir path = inl EACCES).
Proof.
  unfold b_dir_open, bind, opendir, b_string_dup, bind, ret, malloc.
  destruct (alloc_ok (st_brk s)) eqn:Ha.
  2:{ intros H. inversion H. subst. cbn [st_errno set_errno].
      split; [discriminate|intros [Hf _]; discriminate]. }
  destruct (sys_opendir path) as [e|dp] eqn:Hop.
  { intros H. inversion H. subst. cbn [st_errno set_errno].
    split; [intros ->; split; reflexivity|intros [_ He]; congruence]. }
  cbn [st_brk bump]. destruct (alloc_ok (S (st_brk s))); [discriminate|].
  intros H. inversion H. subst. cbn [st_errno set_errno].
  split; [discriminate|intros [_ Hf]; discriminate].
Qed.

End Splicing.

Lemma subst_member_name_round_trip_witness :
  exists spliced,
    fst (@subst_member_name env_t "/t" "pkg" "/t/b/c" (@state0 env_t 0))
    = Some spliced /\
    fst (@subst_member_name env_t "pkg" "/t" spliced (@state0 env_t 0))
    = Some "/t/b/c".
Proof.
  exact (@subst_member_name_round_trip env_t "/t" "pkg" "/b/c"
           (@state0 env_t 0) (@state0 env_t 0)
           ltac:(discriminate) eq_refl eq_refl eq_refl eq_refl).
Defined.

Lemma logical_path_of_root_entry_witness :
  fst (@subst_member_name env_t "/" "pkg" (dir_join "/" "etc")
         (@state0 env_t 0)) = Some "pkgetc" /\
  fst (@subst_member_name env_t "/t" "pkg" (dir_join "/t" "a")
         (@state0 env_t 0)) = Some "pkg/a".
Proof.
  split.
  - exact (@logical_path_of_root_entry env_t "/" "pkg" "etc"
             (@state0 env_t 0) ltac:(discriminate) eq_refl eq_refl).
  - exact (@logical_path_of_root_entry env_t "/t" "pkg" "a"
             (@state0 env_t 0) ltac:(discriminate) eq_refl eq_refl).
Defined.

Lemma b_dir_open_eacces_is_opendir_eacces_witness :
  @sys_opendir env_p "/p/locked" = inl EACCES.
Proof.
  exact (proj2 (proj1 (@b_dir_open_eacces_is_opendir_eacces env_p
                         "/p/locked" (@state0 env_p 0)
                         (@set_errno env_p EACCES
                            (@bump env_p (@state0 env_p 0)))
                         eq_refl) eq_refl)).
Defined.

(** ** What the walker writes to its log *)

Section Accounting.

Context {E : Env}.

Lemma b_dir_read_counter (dir : b_dir) (flags : Z) (s : state) :
  st_brk s <= st_brk (snd (b_dir_read dir flags s)) /\
  forall item, fst (fst (b_dir_read dir flags s)) = Some item ->
               item_addr item = st_brk s.
Proof.
  unfold b_dir_read, readdir, bind, b_string_dup, b_string_new,
    b_string_append_str, bind, ret, malloc, b_stat.
  destruct (dir_dp dir) as [|[n|e] rest]; simpl;
    [split; [lia|discriminate]| |split; [lia|discriminate]].
  repeat match goal with
         | |- context [if alloc_ok ?n then _ else _] =>
           destruct (alloc_ok n); simpl; [|split; [lia|discriminate]]
         end.
  destruct (dir_path dir =? "/")%string; simpl;
    repeat match goal with
           | |- context [if alloc_ok ?n then _ else _] =>
             destruct (alloc_ok n); simpl; [|split; [lia|discriminate]]
           end;
    match goal with
    | |- context [match statfn ?f ?p with _ => _ end] =>
      destruct (statfn f p); simpl;
        (split; [lia|intros item H; inversion H; reflexivity
                     || discriminate])
    end.
Qed.

Lemma subst_member_name_counter (p m c : string) (s : state) :
  st_log (snd (subst_member_name p m c s)) = st_log s /\
  st_brk s <= st_brk (snd (subst_member_name p m c s)).
Proof.
  unfold subst_member_name, bind, b_string_dup, b_string_append_str, bind,
    ret, malloc.
  destruct (negb (p =? m)%string); simpl; [|split; [reflexivity|lia]].
  destruct (alloc_ok (st_brk s)); simpl; [|split; [reflexivity|lia]].
  destruct (alloc_ok (S (st_brk s))); simpl; split; (reflexivity || lia).
Qed.

Lemma invoke_log (callback : b_find_callback) p m st (s : state) :
  st_log (snd (invoke callback p m st s))
  = st_log s ++ [EvCallback p m st (fst (invoke callback p m st s))] /\
  st_brk (snd (invoke callback p m st s)) = st_brk s.
Proof.
  unfold invoke. destruct (callback (st_builder s) p m st).
  split; reflexivity.
Qed.

Lemma b_dir_open_log (path : string) (s : state) :
  match b_dir_open path s with
  | (Some nd, s') =>
    st_log s' = st_log s ++ [EvDirOpen (dir_addr nd) path] /\
    st_brk s <= dir_addr nd /\ dir_addr nd < st_brk s' /\
    dir_path nd = path
  | (None, s') => st_log s' = st_log s /\ st_brk s <= st_brk s'
  end.
Proof.
  unfold b_dir_open, bind, opendir, b_string_dup, bind, ret, malloc.
  destruct (alloc_ok (st_brk s)); simpl; [|split; [reflexivity|lia]].
  destruct (sys_opendir path); simpl; [split; [reflexivity|lia]|].
  destruct (alloc_ok (S (st_brk s))); simpl.
  - repeat split; lia.
  - split; [reflexivity|lia].
Qed.

Lemma b_stack_push_log (dirs : b_stack) (d : b_dir) (s : state) :
  match b_stack_push dirs d s with
  | (Some ds, s') =>
    ds = d :: dirs /\ st_log s' = st_log s ++ [EvStackPush (dir_addr d)] /\
    st_brk s' = S (st_brk s)
  | (None, s') => st_log s' = st_log s /\ st_brk s' = S (st_brk s)
  end.
Proof.
  unfold b_stack_push, bind, malloc.
  destruct (alloc_ok (st_brk s)); simpl; repeat split.
Qed.

(** Every turn of the loop has one of the six shapes. *)
Lemma iter_turn (callback : b_find_callback) (cp cm : string) (flags : Z)
    (cwd : b_dir) (rest : b_stack) (s : state) :
  exists suffix,
    st_log (iter_state (b_find_iter callback cp cm flags cwd rest s))
    = st_log s ++ suffix /\
    st_brk s
    <= st_brk (iter_state (b_find_iter callback cp cm flags cwd rest s)) /\
    turn_shape flags cwd rest (st_brk s)
      (st_brk (iter_state (b_find_iter callback cp cm flags cwd rest s)))
      (option_map item_addr (fst (fst (b_dir_read cwd flags s))))
      (is_continue (b_find_iter callback cp cm flags cwd rest s))
      (iter_stack (b_find_iter callback cp cm flags cwd rest s))
      suffix.
Proof.
  unfold b_find_iter.
  destruct (b_dir_read_silent cwd flags s) as [Hlog1 _].
  destruct (b_dir_read_counter cwd flags s) as [Hbrk1 Haddr].
  destruct (b_dir_read cwd flags s) as [[oi cwd'] s1] eqn:Hrd.
  destruct (b_dir_read_spec _ _ _ _ _ _ Hrd)
    as (_ & _ & dp' & Hcwd' & _ & Hitem).
  cbn [fst snd] in *. subst cwd'.
  destruct oi as [item|]; cbn [option_map b_stack_pop].
  2:{ exists [EvDirDestroy (dir_addr cwd)].
      cbn [iter_state iter_stack is_continue]. unfold b_dir_destroy, emit.
      cbn [st_log st_brk dir_addr]. rewrite Hlog1.
      split; [reflexivity|]. split; [exact Hbrk1|]. constructor. }
  destruct (Hitem item eq_refl) as (_ & _ & Hst).
  destruct (is_dot (item_name item)).
  { exists [EvItemFree (item_addr item)].
    cbn [iter_state iter_stack is_continue]. unfold b_dir_item_free, emit.
    cbn [st_log st_brk]. rewrite Hlog1.
    split; [reflexivity|]. split; [exact Hbrk1|]. constructor. }
  destruct (subst_member_name_counter cp cm (item_path item) s1)
    as [Hlog2 Hbrk2].
  destruct (subst_member_name cp cm (item_path item) s1) as [nm s2].
  cbn [snd] in Hlog2, Hbrk2.
  match goal with
  | |- context [invoke callback ?p ?m ?st s2] =>
    destruct (invoke_log callback p m st s2) as [Hlog3 Hbrk3];
      set (mm := m) in *;
      destruct (invoke callback p mm st s2) as [res s3]
  end.
  cbn [fst snd] in Hlog3, Hbrk3. rewrite Hlog2, Hlog1 in Hlog3.
  assert (Hfree : forall (s' : state) L b,
            st_log s' = st_log s3 ++ L -> st_brk s3 <= st_brk s' ->
            turn_shape flags cwd rest (st_brk s) (st_brk s')
              (Some (item_addr item)) b
              (mk_dir (dir_addr cwd) dp' (dir_path cwd) :: rest)
              (EvCallback (item_path item) mm (item_st item) res
               :: L ++ [EvItemFree (item_addr item)]) ->
            exists suffix,
              st_log (b_dir_item_free item s') = st_log s ++ suffix /\
              st_brk s <= st_brk (b_dir_item_free item s') /\
              turn_shape flags cwd rest (st_brk s)
                (st_brk (b_dir_item_free item s'))
                (Some (item_addr item)) b
                (mk_dir (dir_addr cwd) dp' (dir_path cwd) :: rest) suffix).
  { intros s' L b HL Hb Hshape. eexists. unfold b_dir_item_free, emit.
    cbn [st_log st_brk]. rewrite HL, Hlog3, <- !app_assoc.
    split; [reflexivity|]. split; [lia|]. exact Hshape. }
  destruct (res =? 0)%Z eqn:Hz.
  { cbn [iter_state iter_stack is_continue].
    apply (Hfree s3 [] true); [rewrite app_nil_r; reflexivity|lia|].
    apply Z.eqb_eq in Hz. apply turn_visit; [exact Hst|discriminate|lia]. }
  destruct (res <? 0)%Z eqn:Hneg.
  { apply Z.ltb_lt in Hneg.
    destruct (err_present
              && negb (b_error_fatal (builder_err (st_builder s3))));
      cbn [iter_state iter_stack is_continue].
    - apply (Hfree s3 [] true); [rewrite app_nil_r; reflexivity|lia|].
      apply turn_visit; [exact Hst|discriminate|lia].
    - apply (Hfree s3 [] false); [rewrite app_nil_r; reflexivity|lia|].
      apply turn_visit; [exact Hst|intros _; exact Hneg|lia]. }
  apply Z.eqb_neq in Hz. apply Z.ltb_ge in Hneg.
  assert (Hpos : (0 < res)%Z) by lia.
  destruct (S_ISDIR (item_st item)) eqn:Hdir.
  2:{ cbn [iter_state iter_stack is_continue].
      apply (Hfree s3 [] true); [rewrite app_nil_r; reflexivity|lia|].
      apply turn_visit; [exact Hst|discriminate|intros; congruence]. }
  pose proof (b_dir_open_log (item_path item) s3) as Hopen.
  destruct (b_dir_open (item_path item) s3) as [[nd|] s4].
  - destruct Hopen as (Hlog4 & Hlo & Hhi & Hndp).
    pose proof (b_stack_push_log
                  (mk_dir (dir_addr cwd) dp' (dir_path cwd) :: rest) nd s4)
      as Hpush.
    destruct (b_stack_push (mk_dir (dir_addr cwd) dp' (dir_path cwd) :: rest)
                nd s4) as [[ds|] s5].
    + destruct Hpush as (Hds & Hlog5 & Hbrk5). subst ds.
      cbn [iter_state iter_stack is_continue].
      eexists. unfold b_dir_item_free, emit. cbn [st_log st_brk].
      rewrite Hlog5, Hlog4, Hlog3, <- !app_assoc.
      split; [reflexivity|]. split; [lia|]. simpl.
      apply turn_push; try assumption; lia.
    + destruct Hpush as (Hlog5 & Hbrk5).
      cbn [iter_state iter_stack is_continue].
      eexists. unfold b_dir_destroy, emit. cbn [st_log st_brk].
      rewrite Hlog5, Hlog4, Hlog3, <- !app_assoc.
      split; [reflexivity|]. split; [lia|]. simpl.
      apply turn_push_fail; try assumption; lia.
  - destruct Hopen as (Hlog4 & Hbrk4).
    set (L := if err_present
              then [EvErrorSet B_ERROR_WARN (st_errno s4)
                      "Unable to open directory" (item_path item)]
              else []).
    match goal with
    | |- context [(st_errno ?s5 =? EACCES)%Z] => set (s5' := s5) in *
    end.
    assert (H5 : st_log s5' = st_log s3 ++ L /\
                 st_brk s5' = st_brk s4 /\ st_errno s5' = st_errno s4).
    { unfold s5', L. destruct err_present; cbn; rewrite ?app_nil_r, Hlog4;
        repeat split. }
    destruct H5 as (Hlog5 & Hbrk5 & Herr5).
    destruct (st_errno s5' =? EACCES)%Z eqn:He;
      cbn [iter_state iter_stack is_continue]; rewrite Herr5 in He.
    + apply Z.eqb_eq in He.
      apply (Hfree s5' L true); [exact Hlog5|lia|].
      apply turn_open_fail; try assumption. split; congruence.
    + apply Z.eqb_neq in He.
      apply (Hfree s5' L false); [exact Hlog5|lia|].
      apply turn_open_fail; try assumption. split; congruence.
Qed.

Lemma cleanup_log (dirs : b_stack) (s : state) :
  st_log (cleanup dirs s)
  = st_log s ++ map (fun d => EvDirDestroy (dir_addr d)) dirs
    ++ cleanup_events.
Proof.
  unfold cleanup, b_string_free, b_stack_destroy, emit. cbn [st_log].
  rewrite log_destroy_all, <- !app_assoc. reflexivity.
Qed.

Lemma error_dir_open_log (dirs : b_stack) (s : state) :
  st_log (error_dir_open dirs s)
  = st_log s ++ map (fun d => EvDirDestroy (dir_addr d)) dirs
    ++ error_events.
Proof.
  unfold error_dir_open, b_string_free, b_stack_destroy, emit. cbn [st_log].
  rewrite log_destroy_all, <- !app_assoc. reflexivity.
Qed.

(** How the loop ends, in terms of an invariant of the turns that let it go
    on. *)
Lemma loop_turns (Inv : b_stack -> list event -> nat -> Prop)
    (callback : b_find_callback) (cp cm : string) (flags : Z) :
  (forall cwd rest L brk brk' oi dirs' suffix,
      Inv (cwd :: rest) L brk -> brk <= brk' ->
      turn_shape flags cwd rest brk brk' oi true dirs' suffix ->
      Inv dirs' (L ++ suffix) brk') ->
  forall fuel dir dirs (s : state),
    Inv dirs (st_log s) (st_brk s) ->
    forall o s',
      b_find_loop fuel callback cp cm flags dir dirs s = (o, s') ->
      (o = OutOfFuel /\ exists dirs', Inv dirs' (st_log s') (st_brk s')) \/
      (o = Returned 0 /\
       exists L brk, Inv [] L brk /\ st_log s' = L ++ cleanup_events) \/
      ((o = Returned (-1) \/ o = Undefined) /\
       exists cwd rest L brk brk' oi dirs' suffix,
         Inv (cwd :: rest) L brk /\ brk <= brk' /\
         turn_shape flags cwd rest brk brk' oi false dirs' suffix /\
         st_log s'
         = L ++ suffix ++ [EvDirDestroy (dir_addr dir)]
           ++ map (fun d => EvDirDestroy (dir_addr d)) dirs'
           ++ error_events).
Proof.
  intros Hstep. induction fuel as [|fuel IH]; intros dir dirs s HI o s' Hrun.
  - simpl in Hrun. inversion Hrun; subst. left. split; [reflexivity|].
    exists dirs. exact HI.
  - cbn [b_find_loop] in Hrun.
    destruct dirs as [|cwd rest]; cbn [b_stack_top hd_error tl] in Hrun.
    + inversion Hrun; subst. right. left. split; [reflexivity|].
      exists (st_log s), (st_brk s). split; [exact HI|].
      rewrite cleanup_log. reflexivity.
    + destruct (iter_turn callback cp cm flags cwd rest s)
        as (suffix & Hlog & Hbrk & Hshape).
      destruct (b_find_iter callback cp cm flags cwd rest s)
        as [dirs' s1|dirs' s1];
        cbn [iter_state iter_stack is_continue] in *.
      * apply (IH dir dirs' s1); [|exact Hrun].
        rewrite Hlog. eapply Hstep; eassumption.
      * inversion Hrun; subst. right. right.
        split; [unfold error_cleanup_result;
                destruct (destroyed_again dir dirs'); auto|].
        eexists cwd, rest, (st_log s), (st_brk s), (st_brk s1), _, dirs',
          suffix.
        split; [exact HI|]. split; [exact Hbrk|]. split; [exact Hshape|].
        rewrite error_cleanup_log, Hlog, <- !app_assoc. reflexivity.
Qed.

(** The ways through [b_find], by what each leaves in the log. *)
Lemma b_find_cases (Q : outcome -> list event -> Prop)
    (callback : b_find_callback) (path member_name cp cm : string)
    (flags : Z) (fuel : nat) (s : state) :
  b_path_clean path = Some cp ->
  b_path_clean member_name = Some cm ->
  st_log s = [] ->
  (alloc_ok (st_brk s) = false ->
   Q (Returned (-1)) [EvStringFree CleanMemberName; EvStringFree CleanPath]) ->
  (forall e, statfn flags cp = inl e -> Q (Returned (-1)) error_events) ->
  (forall st r,
     statfn flags cp = inr st ->
     r = fst (callback (st_builder s) cp cm st) ->
     (r = 0%Z -> Q (Returned 0) (EvCallback cp cm st r :: cleanup_events)) /\
     ((r < 0)%Z -> Q (Returned (-1)) (EvCallback cp cm st r :: error_events))
     /\
     ((0 < r)%Z -> S_ISDIR st = false ->
      Q (Returned 0) [EvCallback cp cm st r]) /\
     ((0 < r)%Z -> S_ISDIR st = true ->
      forall e,
        Q (Returned (-1))
          (EvCallback cp cm st r
           :: (if err_present
               then [EvErrorSet B_ERROR_WARN e "Unable to open directory" cp]
               else [])
           ++ error_events)) /\
     ((0 < r)%Z -> S_ISDIR st = true ->
      forall a,
        Q (Returned (-1))
          (EvCallback cp cm st r :: EvDirOpen a cp :: EvDirDestroy a
           :: error_events)) /\
     ((0 < r)%Z -> S_ISDIR st = true ->
      forall dir (s5 : state),
        dir_path dir = cp -> dir_addr dir < st_brk s5 ->
        st_log s5
        = [EvCallback cp cm st r; EvDirOpen (dir_addr dir) cp;
           EvStackPush (dir_addr dir)] ->
        Q (fst (b_find_loop fuel callback cp cm flags dir [dir] s5))
          (st_log (snd (b_find_loop fuel callback cp cm flags dir [dir]
                          s5))))) ->
  Q (fst (b_find fuel callback path member_name flags s))
    (st_log (snd (b_find fuel callback path member_name flags s))).
Proof.
  intros Hcp Hcm Hempty Halloc Hstat Hroot. unfold b_find.
  rewrite Hcp, Hcm. unfold b_stack_new, bind, ret, malloc.
  destruct (alloc_ok (st_brk s)) eqn:Hal.
  2:{ cbn [fst snd]. unfold b_string_free, emit. cbn [st_log set_errno bump].
      rewrite Hempty. apply Halloc. reflexivity. }
  unfold b_stat. destruct (statfn flags cp) as [e|st] eqn:Hst.
  { cbn [fst snd]. rewrite error_dir_open_log. cbn [st_log set_errno bump].
    rewrite Hempty. apply (Hstat e eq_refl). }
  destruct (invoke_log callback cp cm st (bump s)) as [Hlog3 Hbrk3].
  assert (Hres : fst (invoke callback cp cm st (bump s))
                 = fst (callback (st_builder s) cp cm st)).
  { unfold invoke. cbn [st_builder bump].
    destruct (callback (st_builder s) cp cm st); reflexivity. }
  destruct (Hroot st (fst (invoke callback cp cm st (bump s))) eq_refl Hres)
    as (Hzero & Hneg & Hfile & Hopenf & Hpushf & Hloop).
  destruct (invoke callback cp cm st (bump s)) as [res s3].
  cbn [fst snd st_log st_brk bump] in *. rewrite Hempty in Hlog3.
  simpl in Hlog3.
  destruct (res =? 0)%Z eqn:Hz.
  { apply Z.eqb_eq in Hz. cbn [fst snd]. rewrite cleanup_log, Hlog3.
    apply Hzero, Hz. }
  destruct (res <? 0)%Z eqn:Hn.
  { apply Z.ltb_lt in Hn. cbn [fst snd]. rewrite error_dir_open_log, Hlog3.
    apply Hneg, Hn. }
  apply Z.eqb_neq in Hz. apply Z.ltb_ge in Hn.
  assert (Hpos : (0 < res)%Z) by lia.
  destruct (S_ISDIR st) eqn:Hdir; cbn [negb].
  2:{ cbn [fst snd]. rewrite Hlog3. apply Hfile; [exact Hpos|reflexivity]. }
  pose proof (b_dir_open_log cp s3) as Hopen.
  destruct (b_dir_open cp s3) as [[dir|] s4].
  - destruct Hopen as (Hlog4 & Hlo & Hhi & Hdp).
    pose proof (b_stack_push_log [] dir s4) as Hpush.
    destruct (b_stack_push [] dir s4) as [[ds|] s5].
    + destruct Hpush as (Hds & Hlog5 & Hbrk5). subst ds.
      apply (Hloop Hpos eq_refl dir s5 Hdp); [lia|].
      rewrite Hlog5, Hlog4, Hlog3. reflexivity.
    + destruct Hpush as (Hlog5 & Hbrk5).
      cbn [fst snd error_cleanup_result destroyed_again existsb].
      rewrite error_cleanup_log, Hlog5, Hlog4, Hlog3. simpl.
      apply (Hpushf Hpos eq_refl).
  - destruct Hopen as (Hlog4 & Hbrk4). cbn [fst snd].
    rewrite error_dir_open_log.
    specialize (Hopenf Hpos eq_refl (st_errno s4)).
    destruct err_present; cbn; rewrite Hlog4, Hlog3; exact Hopenf.
Qed.

End Accounting.

(** ** Frames, strings and the stack over a whole call *)

Section Balance.

Context {E : Env}.

Lemma occurrences_quiet_destroys (ev : event) (dirs : b_stack) :
  (forall a, event_eqb ev (EvDirDestroy a) = false) ->
  occurrences ev (map (fun d => EvDirDestroy (dir_addr d)) dirs) = 0.
Proof.
  intros Hev. induction dirs as [|d dirs IH]; [reflexivity|].
  unfold occurrences in *. simpl. rewrite Hev. exact IH.
Qed.

(** No turn of the loop destroys the stack or releases a canonicalized
    string. *)
Lemma turn_keeps_strings (flags : Z) cwd rest brk brk' oi b dirs' suffix :
  turn_shape flags cwd rest brk brk' oi b dirs' suffix ->
  occurrences EvStackDestroy suffix = 0 /\
  forall w, occurrences (EvStringFree w) suffix = 0.
Proof.
  intros H. destruct H; try destruct err_present;
    (split; [reflexivity|intros []; reflexivity]).
Qed.

Ltac occ_crunch :=
  rewrite ?occurrences_app; unfold occurrences in *; simpl in *;
  repeat match goal with
         | |- context [Nat.eqb ?x ?y] => destruct (Nat.eqb_spec x y)
         | |- context [Nat.eq_dec ?x ?y] => destruct (Nat.eq_dec x y)
         | H : context [Nat.eq_dec ?x ?y] |- _ => destruct (Nat.eq_dec x y)
         end; simpl in *; subst.

(** The turns that let the loop go on keep the books of the frames: a
    frame is on the stack exactly while it has been pushed and not yet
    destroyed, and no address is pushed twice. *)
Lemma turn_keeps_balance (flags : Z) cwd rest L brk brk' oi dirs' suffix :
  (forall d, In d (cwd :: rest) -> dir_addr d < brk) ->
  (forall a, occurrences (EvStackPush a) L
             = occurrences (EvDirDestroy a) L
               + count_occ Nat.eq_dec (map dir_addr (cwd :: rest)) a) ->
  (forall a, brk <= a -> occurrences (EvStackPush a) L = 0) ->
  (forall a, occurrences (EvStackPush a) L <= 1) ->
  brk <= brk' ->
  turn_shape flags cwd rest brk brk' oi true dirs' suffix ->
  (forall d, In d dirs' -> dir_addr d < brk') /\
  (forall a, occurrences (EvStackPush a) (L ++ suffix)
             = occurrences (EvDirDestroy a) (L ++ suffix)
               + count_occ Nat.eq_dec (map dir_addr dirs') a) /\
  (forall a, brk' <= a -> occurrences (EvStackPush a) (L ++ suffix) = 0) /\
  (forall a, occurrences (EvStackPush a) (L ++ suffix) <= 1).
Proof.
  intros Hlt Hbal Hfresh Hone Hbrk Hshape.
  assert (Hcwd : dir_addr cwd < brk) by (apply Hlt; left; reflexivity).
  assert (Hrest : forall d, In d rest -> dir_addr d < brk')
    by (intros d Hd; specialize (Hlt d (or_intror Hd)); lia).
  inversion Hshape; subst; try destruct err_present.
  all: split;
    [intros d Hd;
     first [apply Hrest, Hd
           |destruct Hd as [<-|Hd];
            [simpl; lia
            |first [apply Hrest, Hd
                   |destruct Hd as [<-|Hd]; [simpl; lia|apply Hrest, Hd]]]]
    |].
  all: split; [intros a0; specialize (Hbal a0); specialize (Hfresh a0);
               specialize (Hone a0); occ_crunch; lia|].
  all: split; intros a0; try intros Hge; specialize (Hbal a0);
    specialize (Hfresh a0); specialize (Hone a0); occ_crunch; lia.
Qed.

(** X9. When [b_find] returns 0, every frame that was pushed onto the
    stack has been destroyed exactly once, and no frame that was not pushed
    has been destroyed. *)
Theorem frames_balanced_on_success (fuel : nat) (callback : b_find_callback)
    (path member_name : string) (flags : Z) (s : state) :
  st_log s = [] ->
  fst (b_find fuel callback path member_name flags s) = Returned 0 ->
  forall a,
    occurrences (EvStackPush a)
      (st_log (snd (b_find fuel callback path member_name flags s)))
    = occurrences (EvDirDestroy a)
        (st_log (snd (b_find fuel callback path member_name flags s))) /\
    occurrences (EvStackPush a)
      (st_log (snd (b_find fuel callback path member_name flags s))) <= 1.
Proof.
  intros Hempty.
  destruct (b_path_clean path) as [cp|] eqn:Hcp.
  2:{ unfold b_find. rewrite Hcp. discriminate. }
  destruct (b_path_clean member_name) as [cm|] eqn:Hcm.
  2:{ unfold b_find. rewrite Hcp, Hcm. discriminate. }
  apply (b_find_cases
           (fun o L => o = Returned 0 ->
              forall a,
                occurrences (EvStackPush a) L = occurrences (EvDirDestroy a) L
                /\ occurrences (EvStackPush a) L <= 1)
           callback path member_name cp cm flags fuel s Hcp Hcm Hempty).
  - intros _ H. discriminate H.
  - intros e _ H. discriminate H.
  - intros st r Hst Hr.
    split; [intros _ _ a; unfold occurrences; simpl; split; lia|].
    split; [intros _ H; discriminate H|].
    split; [intros _ _ _ a; unfold occurrences; simpl; split; lia|].
    split; [intros _ _ e H; discriminate H|].
    split; [intros _ _ a H; discriminate H|].
    intros Hpos Hdir dir s5 Hdp Hlt Hlog Hret a.
    destruct (b_find_loop fuel callback cp cm flags dir [dir] s5)
      as [o s'] eqn:Hrun.
    cbn [fst snd] in *. subst o.
    destruct (loop_turns
                (fun dirs L brk =>
                   (forall d, In d dirs -> dir_addr d < brk) /\
                   (forall a, occurrences (EvStackPush a) L
                              = occurrences (EvDirDestroy a) L
                                + count_occ Nat.eq_dec (map dir_addr dirs) a)
                   /\
                   (forall a, brk <= a -> occurrences (EvStackPush a) L = 0)
                   /\
                   (forall a, occurrences (EvStackPush a) L <= 1))
                callback cp cm flags) with (fuel := fuel) (dir := dir)
      (dirs := [dir]) (s := s5) (o := Returned 0) (s' := s')
      as [[H _]|[[_ (L & brk & HI & Hfin)]|[[H|H] _]]]; try discriminate H.
    + intros cwd rest L brk brk' oi dirs' suffix (H1 & H2 & H3 & H4) Hbrk Hsh.
      apply (turn_keeps_balance flags cwd rest L brk brk' oi dirs' suffix);
        assumption.
    + rewrite Hlog. split; [intros d [<-|[]]; exact Hlt|].
      split; [intros a0; occ_crunch; lia|].
      split; intros a0; try intros Hge; occ_crunch; lia.
    + exact Hrun.
    + destruct HI as (_ & Hbal & _ & Hone). rewrite Hfin.
      specialize (Hbal a). specialize (Hone a). simpl in Hbal.
      rewrite !occurrences_app.
      replace (occurrences (EvStackPush a) cleanup_events) with 0
        by reflexivity.
      replace (occurrences (EvDirDestroy a) cleanup_events) with 0
        by reflexivity.
      lia.
Qed.

(** X15. The outcome [Undefined] stands for the double destruction of a
    frame and for nothing else: when [b_find] ends with it, some frame has
    been handed to [b_dir_destroy] at least twice; and whenever [b_find]
    returns a value, 0 or -1, no frame has been destroyed more than once. *)
Theorem undefined_is_double_destruction (fuel : nat)
    (callback : b_find_callback) (path member_name : string) (flags : Z)
    (s : state) :
  st_log s = [] ->
  (fst (b_find fuel callback path member_name flags s) = Undefined ->
   exists a,
     2 <= occurrences (EvDirDestroy a)
            (st_log (snd (b_find fuel callback path member_name flags s))))
  /\
  (forall z,
     fst (b_find fuel callback path member_name flags s) = Returned z ->
     forall a,
       occurrences (EvDirDestroy a)
         (st_log (snd (b_find fuel callback path member_name flags s)))
       <= 1).
Proof.
  intros Hempty.
  destruct (b_path_clean path) as [cp|] eqn:Hcp.
  2:{ unfold b_find. rewrite Hcp. cbn [fst snd]. rewrite Hempty.
      split; [discriminate|]. intros z _ a. unfold occurrences. simpl. lia. }
  destruct (b_path_clean member_name) as [cm|] eqn:Hcm.
  2:{ unfold b_find. rewrite Hcp, Hcm. cbn [fst snd].
      unfold b_string_free, emit. cbn [st_log]. rewrite Hempty.
      split; [discriminate|]. intros z _ a. unfold occurrences. simpl. lia. }
  assert (Hquiet : forall (L : list event),
            (forall a, occurrences (EvDirDestroy a) L <= 1) ->
            (Returned (-1) = Undefined ->
             exists a, 2 <= occurrences (EvDirDestroy a) L) /\
            (forall z, Returned (-1) = Returned z ->
                       forall a, occurrences (EvDirDestroy a) L <= 1)).
  { intros L HL. split; [discriminate|]. intros z _. exact HL. }
  assert (Hquiet0 : forall (L : list event),
            (forall a, occurrences (EvDirDestroy a) L <= 1) ->
            (Returned 0 = Undefined ->
             exists a, 2 <= occurrences (EvDirDestroy a) L) /\
            (forall z, Returned 0 = Returned z ->
                       forall a, occurrences (EvDirDestroy a) L <= 1)).
  { intros L HL. split; [discriminate|]. intros z _. exact HL. }
  apply (b_find_cases
           (fun o L =>
              (o = Undefined ->
               exists a, 2 <= occurrences (EvDirDestroy a) L) /\
              (forall z, o = Returned z ->
                         forall a, occurrences (EvDirDestroy a) L <= 1))
           callback path member_name cp cm flags fuel s Hcp Hcm Hempty).
  - intros _. apply Hquiet. intros a. unfold occurrences. simpl. lia.
  - intros e _. apply Hquiet. intros a. unfold occurrences. simpl. lia.
  - intros st r Hst Hr.
    split; [intros _; apply Hquiet0; intros a; unfold occurrences; simpl;
            lia|].
    split; [intros _; apply Hquiet; intros a; unfold occurrences; simpl;
            lia|].
    split; [intros _ _; apply Hquiet0; intros a; unfold occurrences; simpl;
            lia|].
    split; [intros _ _ e; apply Hquiet; intros a; destruct err_present;
            unfold occurrences; simpl; lia|].
    split; [intros _ _ a0; apply Hquiet; intros a; unfold occurrences; simpl;
            destruct (Nat.eqb a a0); simpl; lia|].
    intros Hpos Hdir dir s5 Hdp Hlt Hlog.
    assert (Hlog0 : forall a,
              occurrences (EvDirDestroy a) (st_log s5) = 0).
    { intros a. rewrite Hlog. reflexivity. }
    split.
    + intros Hund. exists (dir_addr dir).
      destruct (loop_abort_destroys_root_twice callback cp cm flags dir
                  fuel [dir] s5 eq_refl) as [_ Hocc];
        [rewrite Hund; discriminate|rewrite Hund; discriminate|lia].
    + intros z Hret a.
      destruct (b_find_loop fuel callback cp cm flags dir [dir] s5)
        as [o s'] eqn:Hrun.
      cbn [fst snd] in *. subst o.
      destruct (loop_turns
                  (fun dirs L brk =>
                     (forall d, In d dirs -> dir_addr d < brk) /\
                     (forall a, occurrences (EvStackPush a) L
                                = occurrences (EvDirDestroy a) L
                                  + count_occ Nat.eq_dec (map dir_addr dirs) a)
                     /\
                     (forall a, brk <= a -> occurrences (EvStackPush a) L = 0)
                     /\
                     (forall a, occurrences (EvStackPush a) L <= 1))
                  callback cp cm flags) with (fuel := fuel) (dir := dir)
        (dirs := [dir]) (s := s5) (o := Returned z) (s' := s')
        as [[H _]|[[_ (L & brk & HI & Hfin)]|[[H|H] _]]];
        try discriminate H.
      * intros cwd rest L brk brk' oi dirs' suffix (H1 & H2 & H3 & H4)
          Hbrk Hsh.
        apply (turn_keeps_balance flags cwd rest L brk brk' oi dirs' suffix);
          assumption.
      * rewrite Hlog. split; [intros d [<-|[]]; exact Hlt|].
        split; [intros a0; occ_crunch; lia|].
        split; intros a0; try intros Hge; occ_crunch; lia.
      * exact Hrun.
      * destruct HI as (_ & Hbal & _ & Hone). rewrite Hfin.
        specialize (Hbal a). specialize (Hone a). simpl in Hbal.
        rewrite occurrences_app.
        replace (occurrences (EvDirDestroy a) cleanup_events) with 0
          by reflexivity.
        lia.
      * exfalso.
        destruct (loop_abort_destroys_root_twice callback cp cm flags dir
                    fuel [dir] s5 eq_refl) as [Hund _];
          rewrite Hrun in *; cbn [fst] in *;
          [rewrite H; discriminate|rewrite H; discriminate|].
        rewrite H in Hund. discriminate Hund.
Qed.

(** X10. Except for the return of line 229 (a root that is not a
    directory and that the callback accepted), every return of [b_find]
    that had both canonicalized strings and the stack has destroyed the
    stack once and released each string once, whatever happened in the
    walk. *)
Theorem exits_release_strings_and_stack (fuel : nat)
    (callback : b_find_callback) (path member_name cp cm : string)
    (flags : Z) (s : state) :
  b_path_clean path = Some cp ->
  b_path_clean member_name = Some cm ->
  st_log s = [] ->
  alloc_ok (st_brk s) = true ->
  (forall st, statfn flags cp = inr st ->
     S_ISDIR st = true \/ (fst (callback (st_builder s) cp cm st) <= 0)%Z) ->
  forall z,
    fst (b_find fuel callback path member_name flags s) = Returned z ->
    occurrences EvStackDestroy
      (st_log (snd (b_find fuel callback path member_name flags s))) = 1 /\
    occurrences (EvStringFree CleanPath)
      (st_log (snd (b_find fuel callback path member_name flags s))) = 1 /\
    occurrences (EvStringFree CleanMemberName)
      (st_log (snd (b_find fuel callback path member_name flags s))) = 1.
Proof.
  intros Hcp Hcm Hempty Hal Hnot.
  apply (b_find_cases
           (fun o L => forall z, o = Returned z ->
              occurrences EvStackDestroy L = 1 /\
              occurrences (EvStringFree CleanPath) L = 1 /\
              occurrences (EvStringFree CleanMemberName) L = 1)
           callback path member_name cp cm flags fuel s Hcp Hcm Hempty).
  - intros Hf. congruence.
  - intros e _ z _. repeat split.
  - intros st r Hst Hr.
    split; [intros _ z _; repeat split|].
    split; [intros _ z _; repeat split|].
    split; [intros Hpos Hdir; destruct (Hnot st Hst); [congruence|lia]|].
    split; [intros _ _ e z _; destruct err_present; repeat split|].
    split; [intros _ _ a z _; repeat split|].
    intros Hpos Hdir dir s5 Hdp Hlt Hlog z Hret.
    destruct (b_find_loop fuel callback cp cm flags dir [dir] s5)
      as [o s'] eqn:Hrun.
    cbn [fst snd] in *. subst o.
    destruct (loop_turns
                (fun _ L _ =>
                   occurrences EvStackDestroy L = 0 /\
                   forall w, occurrences (EvStringFree w) L = 0)
                callback cp cm flags) with (fuel := fuel) (dir := dir)
      (dirs := [dir]) (s := s5) (o := Returned z) (s' := s')
      as [[H _]|[[_ (L & brk & [H1 H2] & Hfin)]
               |[_ (cwd & rest & L & brk & brk' & oi & dirs' & suffix
                    & [H1 H2] & _ & Hsh & Hfin)]]]; try discriminate H.
    + intros cwd rest L brk brk' oi dirs' suffix [H1 H2] _ Hsh.
      destruct (turn_keeps_strings _ _ _ _ _ _ _ _ _ Hsh) as [H3 H4].
      split; [|intros w; specialize (H2 w); specialize (H4 w)];
        rewrite occurrences_app; lia.
    + rewrite Hlog. split; [reflexivity|intros []; reflexivity].
    + exact Hrun.
    + rewrite Hfin, !occurrences_app, H1, !H2. repeat split.
    + destruct (turn_keeps_strings _ _ _ _ _ _ _ _ _ Hsh) as [H3 H4].
      rewrite Hfin, !occurrences_app, H1, !H2, H3, !H4.
      rewrite !occurrences_quiet_destroys by (intros; reflexivity).
      repeat split.
Qed.

Lemma accepted_dir_app (flags : Z) (L L' : list event) (p : string) :
  accepted_dir flags L p -> accepted_dir flags (L ++ L') p.
Proof.
  intros (m & st & r & Hin & H). exists m, st, r.
  split; [apply in_or_app; left; exact Hin|exact H].
Qed.

Lemma event_in_order_app (flags : Z) (L L' : list event) (ev : event) :
  event_in_order flags L ev -> event_in_order flags (L ++ L') ev.
Proof.
  destruct ev; simpl; trivial.
  - intros (H1 & H2 & H3 & H4). repeat split; try assumption.
    apply accepted_dir_app, H4.
  - apply accepted_dir_app.
Qed.

Lemma turn_in_order (flags : Z) cwd rest brk brk' oi b dirs' suffix :
  turn_shape flags cwd rest brk brk' oi b dirs' suffix ->
  forall L ev, In ev suffix -> event_in_order flags (L ++ suffix) ev.
Proof.
  intros Hsh L ev Hin.
  assert (Hacc : forall p m st r tail,
            statfn flags p = inr st -> (0 < r)%Z -> S_ISDIR st = true ->
            accepted_dir flags (L ++ EvCallback p m st r :: tail) p).
  { intros p m st r tail Hst Hr Hdir. exists m, st, r.
    split; [apply in_or_app; right; left; reflexivity|].
    repeat split; assumption. }
  destruct Hsh; try destruct err_present eqn:Herr; simpl in Hin;
    repeat (destruct Hin as [<-|Hin]); try destruct Hin; simpl; trivial;
    try (repeat split; trivial); apply Hacc; assumption.
Qed.

(** Whatever [b_find] does, every event of its log is in order. *)
Lemma b_find_log_in_order (fuel : nat) (callback : b_find_callback)
    (path member_name : string) (flags : Z) (s : state) :
  st_log s = [] ->
  forall ev,
    In ev (st_log (snd (b_find fuel callback path member_name flags s))) ->
    event_in_order flags
      (st_log (snd (b_find fuel callback path member_name flags s))) ev.
Proof.
  intros Hempty.
  destruct (b_path_clean path) as [cp|] eqn:Hcp.
  2:{ unfold b_find. rewrite Hcp. cbn [snd]. rewrite Hempty. intros ev []. }
  destruct (b_path_clean member_name) as [cm|] eqn:Hcm.
  2:{ unfold b_find. rewrite Hcp, Hcm. cbn [snd]. unfold b_string_free, emit.
      cbn [st_log]. rewrite Hempty. intros ev [<-|[]]. exact I. }
  assert (Htail : forall L dirs (tail : list event),
            (forall ev, In ev tail -> forall L', event_in_order flags L' ev) ->
            (forall ev, In ev L -> event_in_order flags L ev) ->
            forall ev,
              In ev (L ++ map (fun d => EvDirDestroy (dir_addr d)) dirs
                       ++ tail) ->
              event_in_order flags
                (L ++ map (fun d => EvDirDestroy (dir_addr d)) dirs ++ tail)
                ev).
  { intros L dirs tail Ht HL ev Hin. apply in_app_or in Hin.
    destruct Hin as [Hin|Hin]; [apply event_in_order_app, HL, Hin|].
    apply in_app_or in Hin. destruct Hin as [Hin|Hin].
    - apply in_map_iff in Hin. destruct Hin as (d & <- & _). exact I.
    - apply Ht, Hin. }
  apply (b_find_cases
           (fun o L => forall ev, In ev L -> event_in_order flags L ev)
           callback path member_name cp cm flags fuel s Hcp Hcm Hempty).
  - intros _ ev [<-|[<-|[]]]; exact I.
  - intros e _ ev [<-|[<-|[<-|[]]]]; exact I.
  - intros st r Hst Hr.
    assert (Hacc : forall tail, (0 < r)%Z -> S_ISDIR st = true ->
              accepted_dir flags (EvCallback cp cm st r :: tail) cp).
    { intros tail Hpos Hdir. exists cm, st, r.
      split; [left; reflexivity|]. repeat split; assumption. }
    split; [intros _ ev [<-|[<-|[<-|[<-|[]]]]]; exact I|].
    split; [intros _ ev [<-|[<-|[<-|[<-|[]]]]]; exact I|].
    split; [intros _ _ ev [<-|[]]; exact I|].
    split.
    { intros Hpos Hdir e ev Hin.
      destruct err_present eqn:Herr; simpl in Hin;
        repeat (destruct Hin as [<-|Hin]); try destruct Hin; simpl; trivial.
      repeat split; trivial. apply Hacc; assumption. }
    split.
    { intros Hpos Hdir a ev Hin. simpl in Hin.
      repeat (destruct Hin as [<-|Hin]); try destruct Hin; simpl; trivial.
      apply Hacc; assumption. }
    intros Hpos Hdir dir s5 Hdp Hlt Hlog ev.
    destruct (b_find_loop fuel callback cp cm flags dir [dir] s5)
      as [o s'] eqn:Hrun.
    cbn [fst snd] in *.
    destruct (loop_turns
                (fun _ L _ => forall ev, In ev L -> event_in_order flags L ev)
                callback cp cm flags) with (fuel := fuel) (dir := dir)
      (dirs := [dir]) (s := s5) (o := o) (s' := s')
      as [[_ [_ H]]|[[_ (L & brk & HI & Hfin)]
                    |[_ (cwd & rest & L & brk & brk' & oi & dirs' & suffix
                         & HI & _ & Hsh & Hfin)]]].
    + intros cwd rest L brk brk' oi dirs' suffix HI _ Hsh ev0 Hin.
      apply in_app_or in Hin. destruct Hin as [Hin|Hin].
      * apply event_in_order_app, HI, Hin.
      * eapply turn_in_order; eassumption.
    + rewrite Hlog. intros ev0 Hin. simpl in Hin.
      repeat (destruct Hin as [<-|Hin]); try destruct Hin; simpl; trivial.
      apply Hacc; assumption.
    + exact Hrun.
    + apply H.
    + rewrite Hfin. intros Hin.
      apply (Htail L [] cleanup_events); [|exact HI|exact Hin].
      intros e0 [<-|[<-|[<-|[]]]] L'; exact I.
    + rewrite Hfin. intros Hin.
      replace (L ++ suffix ++ [EvDirDestroy (dir_addr dir)]
                 ++ map (fun d => EvDirDestroy (dir_addr d)) dirs'
                 ++ error_events)
        with ((L ++ suffix)
                ++ map (fun d => EvDirDestroy (dir_addr d))
                     (dir :: dirs') ++ error_events) in *
        by (simpl; rewrite <- !app_assoc; reflexivity).
      apply (Htail (L ++ suffix) (dir :: dirs') error_events);
        [| |exact Hin].
      * intros e0 [<-|[<-|[<-|[]]]] L'; exact I.
      * intros e0 Hin0. apply in_app_or in Hin0.
        destruct Hin0 as [Hin0|Hin0].
        -- apply event_in_order_app, HI, Hin0.
        -- eapply turn_in_order; eassumption.
Qed.

(** X11. [b_find] sets an error on the accumulator only when there is
    one, only as a warning that a directory could not be opened, and only
    for a path on which the callback had returned a positive value and
    whose stat says directory. *)
Theorem errors_set_only_for_failed_opens (fuel : nat)
    (callback : b_find_callback) (path member_name : string) (flags : Z)
    (s : state) :
  st_log s = [] ->
  forall ty e msg p,
    In (EvErrorSet ty e msg p)
      (st_log (snd (b_find fuel callback path member_name flags s))) ->
    err_present = true /\ ty = B_ERROR_WARN /\
    msg = "Unable to open directory" /\
    exists m st r,
      In (EvCallback p m st r)
        (st_log (snd (b_find fuel callback path member_name flags s))) /\
      (0 < r)%Z /\ S_ISDIR st = true.
Proof.
  intros Hempty ty e msg p Hin.
  destruct (b_find_log_in_order fuel callback path member_name flags s
              Hempty _ Hin) as (H1 & H2 & H3 & m & st & r & H4 & H5 & H6 & _).
  repeat split; try assumption. exists m, st, r. repeat split; assumption.
Qed.

(** X12. [b_find] opens a directory only after the callback returned a
    positive value on that very path and only if the stat taken under the
    symlink policy says directory: without FOLLOW_SYMLINKS a symbolic link
    to a directory is never descended into. *)
Theorem directories_opened_only_when_accepted (fuel : nat)
    (callback : b_find_callback) (path member_name : string) (flags : Z)
    (s : state) :
  st_log s = [] ->
  forall a p,
    In (EvDirOpen a p)
      (st_log (snd (b_find fuel callback path member_name flags s))) ->
    exists m st r,
      In (EvCallback p m st r)
        (st_log (snd (b_find fuel callback path member_name flags s))) /\
      (0 < r)%Z /\ S_ISDIR st = true /\ statfn flags p = inr st.
Proof.
  intros Hempty a p Hin.
  exact (b_find_log_in_order fuel callback path member_name flags s
           Hempty _ Hin).
Qed.

Lemma turn_releases_record (flags : Z) cwd rest brk brk' ia b dirs' suffix :
  turn_shape flags cwd rest brk brk' (Some ia) b dirs' suffix ->
  (b = true -> occurrences (EvItemFree ia) suffix = 1) /\
  (occurrences (EvItemFree ia) suffix = 1 \/
   occurrences (EvItemFree ia) suffix = 0 /\ b = false /\
   exists a p, In (EvDirOpen a p) suffix /\ In (EvDirDestroy a) suffix /\
               ~ In (EvStackPush a) suffix).
Proof.
  intros Hsh. remember (Some ia) as oi eqn:Hoi.
  destruct Hsh; try discriminate Hoi; injection Hoi as ->;
    try (assert (Hone : forall pre : list event,
                   occurrences (EvItemFree ia) pre = 0 ->
                   occurrences (EvItemFree ia) (pre ++ [EvItemFree ia]) = 1)
          by (intros pre Hpre; rewrite occurrences_app, Hpre;
              unfold occurrences; simpl; rewrite Nat.eqb_refl; reflexivity)).
  - split; [intros _|left]; apply (Hone []); reflexivity.
  - split; [intros _|left];
      apply (Hone [EvCallback p m st r]); reflexivity.
  - split; [intros _|left]; destruct err_present;
      first [apply (Hone [EvCallback p m st r]); reflexivity
            |apply (Hone [EvCallback p m st r;
                          EvErrorSet B_ERROR_WARN e
                            "Unable to open directory" p]);
             reflexivity].
  - split; [intros Hb; discriminate Hb|right].
    split; [reflexivity|]. split; [reflexivity|].
    exists a, p. split; [right; left; reflexivity|].
    split; [right; right; left; reflexivity|].
    intros [Hx|[Hx|[Hx|[]]]]; discriminate Hx.
  - split; [intros _|left];
      apply (Hone [EvCallback p m st r; EvDirOpen (dir_addr nd) p;
                   EvStackPush (dir_addr nd)]); reflexivity.
Qed.

(** X13. A turn of the loop that read an entry record and lets the loop go
    on has released that record exactly once. A turn that ends the walk has
    released it too, unless what ended the walk is the failure to push the
    frame just opened: then the record is not released. *)
Theorem entry_record_released_each_turn (callback : b_find_callback)
    (cp cm : string) (flags : Z) (cwd cwd' : b_dir) (rest : b_stack)
    (s s1 : state) (item : b_dir_item) :
  b_dir_read cwd flags s = (Some item, cwd', s1) ->
  exists suffix,
    st_log (iter_state (b_find_iter callback cp cm flags cwd rest s))
    = st_log s ++ suffix /\
    (is_continue (b_find_iter callback cp cm flags cwd rest s) = true ->
     occurrences (EvItemFree (item_addr item)) suffix = 1) /\
    (occurrences (EvItemFree (item_addr item)) suffix = 1 \/
     occurrences (EvItemFree (item_addr item)) suffix = 0 /\
     is_continue (b_find_iter callback cp cm flags cwd rest s) = false /\
     exists a p, In (EvDirOpen a p) suffix /\ In (EvDirDestroy a) suffix /\
                 ~ In (EvStackPush a) suffix).
Proof.
  intros Hrd.
  destruct (iter_turn callback cp cm flags cwd rest s)
    as (suffix & Hlog & _ & Hsh).
  rewrite Hrd in Hsh. cbn [fst option_map] in Hsh.
  exists suffix. split; [exact Hlog|].
  exact (turn_releases_record _ _ _ _ _ _ _ _ _ Hsh).
Qed.

End Balance.

Lemma surfaced_paths_extend_the_root_witness :
  map v_logical
    (tl (visits (st_log (snd (@b_find env_t 20 accept_all "/t" "pkg" 0
                                (@state0 env_t 0))))))
  = ["pkg/a"; "pkg/b"; "pkg/b/c"; "pkg/b/d"] /\
  Forall (fun v =>
            exists suffix,
              v_disk v = ("/t" ++ suffix)%string /\
              String.length "/t" <= String.length (v_disk v) /\
              (v_logical v = v_disk v \/
               "/t" <> "pkg" /\ v_logical v = ("pkg" ++ suffix)%string))
    (tl (visits (st_log (snd (@b_find env_t 20 accept_all "/t" "pkg" 0
                                (@state0 env_t 0)))))).
Proof.
  split; [vm_compute; reflexivity|].
  exact (@surfaced_paths_extend_the_root env_t 20 accept_all "/t" "pkg"
           "/t" "pkg" 0%Z (@state0 env_t 0) eq_refl eq_refl eq_refl).
Defined.

Lemma dot_entries_never_surfaced_witness :
  map v_disk
    (tl (visits (st_log (snd (@b_find env_t 20 accept_all "/t" "/t" 0
                                (@state0 env_t 0))))))
  = ["/t/a"; "/t/b"; "/t/b/c"; "/t/b/d"] /\
  Forall (fun v => forall b,
            v_disk v <> (b ++ "/.")%string /\
            v_disk v <> (b ++ "/..")%string)
    (tl (visits (st_log (snd (@b_find env_t 20 accept_all "/t" "/t" 0
                                (@state0 env_t 0)))))).
Proof.
  split; [vm_compute; reflexivity|].
  exact (@dot_entries_never_surfaced env_t 20 accept_all "/t" "/t"
           "/t" "/t" 0%Z (@state0 env_t 0) eq_refl eq_refl eq_refl
           (table_env_names false 1 t_stats t_stats t_dirs always_ok
              eq_refl)).
Defined.

Lemma b_dir_read_yields_next_entry_witness :
  fst (@b_dir_read env_t (mk_dir 1 [Dirent "a"; Dirent "b"] "/t") 0
         (@state0 env_t 0))
  = (Some (mk_item 0 (reg_stat 2) "/t/a" "a"), mk_dir 1 [Dirent "b"] "/t").
Proof.
  exact (proj2 (@b_dir_read_yields_next_entry env_t
                  (mk_dir 1 [Dirent "a"; Dirent "b"] "/t") 0%Z
                  (@state0 env_t 0))
           "a" [Dirent "b"] (reg_stat 2) eq_refl (fun k _ => eq_refl)
           eq_refl).
Defined.

Lemma frames_balanced_on_success_witness :
  occurrences (EvStackPush 32)
    (st_log (snd (@b_find env_t 20 accept_all "/t" "pkg" 0
                    (@state0 env_t 0))))
  = occurrences (EvDirDestroy 32)
      (st_log (snd (@b_find env_t 20 accept_all "/t" "pkg" 0
                      (@state0 env_t 0)))) /\
  occurrences (EvStackPush 32)
    (st_log (snd (@b_find env_t 20 accept_all "/t" "pkg" 0
                    (@state0 env_t 0)))) <= 1.
Proof.
  assert (Hret : fst (@b_find env_t 20 accept_all "/t" "pkg" 0
                        (@state0 env_t 0)) = Returned 0)
    by (vm_compute; reflexivity).
  exact (@frames_balanced_on_success env_t 20 accept_all "/t" "pkg" 0%Z
           (@state0 env_t 0) eq_refl Hret 32).
Defined.

Lemma exits_release_strings_and_stack_witness :
  fst (@b_find env_p 20 accept_all "/p/locked" "/p/locked" 0
         (@state0 env_p 0)) = Returned (-1) /\
  occurrences EvStackDestroy
    (st_log (snd (@b_find env_p 20 accept_all "/p/locked" "/p/locked" 0
                    (@state0 env_p 0)))) = 1 /\
  occurrences (EvStringFree CleanPath)
    (st_log (snd (@b_find env_p 20 accept_all "/p/locked" "/p/locked" 0
                    (@state0 env_p 0)))) = 1 /\
  occurrences (EvStringFree CleanMemberName)
    (st_log (snd (@b_find env_p 20 accept_all "/p/locked" "/p/locked" 0
                    (@state0 env_p 0)))) = 1.
Proof.
  assert (Hret : fst (@b_find env_p 20 accept_all "/p/locked" "/p/locked" 0
                        (@state0 env_p 0)) = Returned (-1))
    by (vm_compute; reflexivity).
  split; [exact Hret|].
  refine (@exits_release_strings_and_stack env_p 20 accept_all
            "/p/locked" "/p/locked" "/p/locked" "/p/locked" 0%Z
            (@state0 env_p 0) eq_refl eq_refl eq_refl eq_refl _ (-1)%Z Hret).
  intros st Hst. left.
  assert (Hroot : @statfn env_p 0 "/p/locked" = inr (dir_stat 21))
    by reflexivity.
  rewrite Hroot in Hst. injection Hst as <-. reflexivity.
Defined.

Lemma errors_set_only_for_failed_opens_witness :
  @err_present env_p = true /\ B_ERROR_WARN = B_ERROR_WARN /\
  "Unable to open directory"%string = "Unable to open directory"%string /\
  exists m st r,
    In (EvCallback "/p/locked" m st r)
      (st_log (snd (@b_find env_p 20 accept_all "/p" "/p" 0
                      (@state0 env_p 0)))) /\
    (0 < r)%Z /\ S_ISDIR st = true.
Proof.
  assert (HL : st_log (snd (@b_find env_p 20 accept_all "/p" "/p" 0
                              (@state0 env_p 0)))
               = [EvCallback "/p" "/p" (dir_stat 20) 1;
                  EvDirOpen 1 "/p"; EvStackPush 1;
                  EvCallback "/p/locked" "/p/locked" (dir_stat 21) 1;
                  EvErrorSet B_ERROR_WARN EACCES "Unable to open directory"
                    "/p/locked";
                  EvItemFree 4;
                  EvCallback "/p/z" "/p/z" (reg_stat 22) 1;
                  EvItemFree 11; EvDirDestroy 1; EvStackDestroy;
                  EvStringFree CleanPath; EvStringFree CleanMemberName])
    by (vm_compute; reflexivity).
  apply (@errors_set_only_for_failed_opens env_p 20 accept_all "/p" "/p"
           0%Z (@state0 env_p 0) eq_refl B_ERROR_WARN EACCES
           "Unable to open directory" "/p/locked").
  rewrite HL. do 4 right. left. reflexivity.
Defined.

Lemma directories_opened_only_when_accepted_witness :
  exists m st r,
    In (EvCallback "/t/b" m st r)
      (st_log (snd (@b_find env_t 20 accept_all "/t" "pkg" 0
                      (@state0 env_t 0)))) /\
    (0 < r)%Z /\ S_ISDIR st = true /\ @statfn env_t 0 "/t/b" = inr st.
Proof.
  assert (HL : st_log (snd (@b_find env_t 20 accept_all "/t" "pkg" 0
                              (@state0 env_t 0)))
               = [EvCallback "/t" "pkg" (dir_stat 1) 1;
                  EvDirOpen 1 "/t"; EvStackPush 1; EvItemFree 4;
                  EvItemFree 10;
                  EvCallback "/t/a" "pkg/a" (reg_stat 2) 1;
                  EvItemFree 16;
                  EvCallback "/t/b" "pkg/b" (dir_stat 3) 1;
                  EvDirOpen 32 "/t/b"; EvStackPush 32; EvItemFree 24;
                  EvItemFree 35; EvItemFree 41;
                  EvCallback "/t/b/c" "pkg/b/c" (reg_stat 4) 1;
                  EvItemFree 47;
                  EvCallback "/t/b/d" "pkg/b/d" (reg_stat 5) 1;
                  EvItemFree 55; EvDirDestroy 32; EvDirDestroy 1;
                  EvStackDestroy; EvStringFree CleanPath;
                  EvStringFree CleanMemberName])
    by (vm_compute; reflexivity).
  apply (@directories_opened_only_when_accepted env_t 20 accept_all "/t"
           "pkg" 0%Z (@state0 env_t 0) eq_refl 32).
  rewrite HL. do 8 right. left. reflexivity.
Defined.

Lemma entry_record_released_each_turn_witness :
  exists suffix,
    st_log (iter_state
              (@b_find_iter env_t accept_all "/t" "pkg" 0
                 (mk_dir 1 [Dirent "a"; Dirent "b"] "/t") []
                 (@state0 env_t 0)))
    = suffix /\
    occurrences (EvItemFree 0) suffix = 1.
Proof.
  destruct (@entry_record_released_each_turn env_t accept_all "/t" "pkg"
              0%Z (mk_dir 1 [Dirent "a"; Dirent "b"] "/t")
              (mk_dir 1 [Dirent "b"] "/t") []
              (@state0 env_t 0)
              (snd (@b_dir_read env_t
                      (mk_dir 1 [Dirent "a"; Dirent "b"] "/t") 0
                      (@state0 env_t 0)))
              (mk_item 0 (reg_stat 2) "/t/a" "a") eq_refl)
    as (suffix & Hlog & Hgo & _).
  exists suffix. split; [exact Hlog|].
  apply Hgo. reflexivity.
Defined.

Lemma undefined_is_double_destruction_witness :
  exists a,
    2 <= occurrences (EvDirDestroy a)
           (st_log (snd (@b_find env_t_err 20 (fail_fatally_at "/t/a")
                           "/t" "/t" 0 (@state0 env_t_err 0)))).
Proof.
  assert (Hund : fst (@b_find env_t_err 20 (fail_fatally_at "/t/a")
                        "/t" "/t" 0 (@state0 env_t_err 0)) = Undefined)
    by (vm_compute; reflexivity).
  exact (proj1 (@undefined_is_double_destruction env_t_err 20
                  (fail_fatally_at "/t/a") "/t" "/t" 0%Z
                  (@state0 env_t_err 0) eq_refl) Hund).
Defined.
